(** * Songs catalogue: record model, repository, audit log and services

    A shallow embedding of [models.py], [database.py] and [services.py].

    - Python [str] is [string]; [str.strip] removes the ASCII characters
      that Python counts as white space.
    - A MongoDB document is a finite map from field names to BSON values
      ([gmap string value]); only the four value types the program writes
      occur (text, integer, date, ObjectId).
    - A [datetime] is an integer number of milliseconds (the precision
      BSON keeps).
    - Exceptions are values of [exn] (class and message); a computation
      returns a [result].  Code that talks to the store runs in the monad
      [M] over a [world]: the two collections, the connection flag, the
      wall clock, the ObjectId generator and, per store resource, the list
      of faults the environment is going to inject.
    - [datetime.now] reads the clock of the world; a call does not advance
      it, and every statement below holds for every value of it.
    - The dataclasses are typed as their annotations say; values of other
      types, which Python would not reject, are outside the model.
    - Calls to [logger] have no influence on any result and are left out. *)

From stdpp Require Import gmap strings list fin_maps sorting.
From Stdlib Require Import ZArith NArith Ascii String DecimalString.

Local Open Scope string_scope.
Local Open Scope Z_scope.

(** ** Python strings *)

(** [str.isspace] on the ASCII range: TAB, LF, VT, FF, CR, the four
    separators 0x1c-0x1f, and the space. *)
Definition isspace (c : ascii) : bool :=
  let n := nat_of_ascii c in
  ((9 <=? n)%nat && (n <=? 13)%nat) || ((28 <=? n)%nat && (n <=? 32)%nat).

Fixpoint lstrip (s : string) : string :=
  match s with
  | EmptyString => EmptyString
  | String c s' => if isspace c then lstrip s' else s
  end.

Fixpoint rstrip (s : string) : string :=
  match s with
  | EmptyString => EmptyString
  | String c s' =>
      match rstrip s' with
      | EmptyString => if isspace c then EmptyString else String c EmptyString
      | r => String c r
      end
  end.

(** [s.strip()] *)
Definition strip (s : string) : string := rstrip (lstrip s).

(** Truth value of a [str]: non-empty. *)
Definition truthy (s : string) : bool :=
  match s with EmptyString => false | _ => true end.

(** Truth value of an [Optional[str]]: present and non-empty. *)
Definition truthy_opt (o : option string) : bool :=
  match o with Some s => truthy s | None => false end.

(** ** Exceptions and results *)

Inductive exn_class :=
  | ValueError
  | DatabaseError
  | InvalidId
  | ConnectionFailure
  | ServerSelectionTimeoutError
  | DuplicateKeyError
  | PyMongoError
  | TypeError
  | BaseException.

#[global] Instance exn_class_eq_dec : EqDecision exn_class.
Proof. solve_decision. Defined.

Record exn := Exn { exn_cls : exn_class; exn_msg : string }.

#[global] Instance exn_eq_dec : EqDecision exn.
Proof. solve_decision. Defined.

Inductive result (A : Type) :=
  | Ok (a : A)
  | Raise (e : exn).
Arguments Ok {A} a.
Arguments Raise {A} e.

Definition rbind {A B} (r : result A) (k : A -> result B) : result B :=
  match r with
  | Ok a => k a
  | Raise e => Raise e
  end.

Notation "'let+' x ':=' c 'in' k" := (rbind c (fun x => k))
  (at level 10, x name, c at level 100, k at level 200, only parsing).

Definition is_ok {A} (r : result A) : bool :=
  match r with Ok _ => true | Raise _ => false end.

(** The class of the exception a result carries, if it carries one. *)
Definition raised_class {A} (r : result A) : option exn_class :=
  match r with Ok _ => None | Raise e => Some (exn_cls e) end.

(** ** BSON values and documents *)

(** An ObjectId is twelve bytes, kept as the number they spell. *)
Inductive ObjectId := Oid (n : N).

#[global] Instance ObjectId_eq_dec : EqDecision ObjectId.
Proof. solve_decision. Defined.

Definition hex_digit (c : ascii) : option N :=
  let n := N_of_ascii c in
  if ((48 <=? n) && (n <=? 57))%N then Some (n - 48)%N
  else if ((97 <=? n) && (n <=? 102))%N then Some (n - 87)%N
  else if ((65 <=? n) && (n <=? 70))%N then Some (n - 55)%N
  else None.

Fixpoint hex_value (acc : N) (s : string) : option N :=
  match s with
  | EmptyString => Some acc
  | String c s' =>
      match hex_digit c with
      | Some d => hex_value (16 * acc + d)%N s'
      | None => None
      end
  end.

(** [ObjectId(song_id)] for a [str] argument: a string of 24 hexadecimal
    digits is accepted, anything else raises [InvalidId] (here [None]). *)
Definition ObjectId_of_str (s : string) : option ObjectId :=
  if Nat.eqb (String.length s) 24 then Oid <$> hex_value 0 s else None.

Inductive value :=
  | VStr (s : string)
  | VInt (n : Z)
  | VTime (t : Z)
  | VOid (o : ObjectId).

#[global] Instance value_eq_dec : EqDecision value.
Proof. solve_decision. Defined.

Abbreviation document := (gmap string value).

(** Reading a field at the type a dataclass attribute is declared with.
    The dataclasses check no types: a text, number or date of the wrong
    type makes [_validate] or a later method raise ([AttributeError],
    [TypeError]); the model raises [TypeError] at the read.  No document
    written by [to_dict] is ill-typed. *)
Definition ill_typed {A} (k : string) : result A :=
  Raise (Exn TypeError ("ill-typed field: " +:+ k)).

Definition get_str (d : document) (k : string) : result (option string) :=
  match d !! k with
  | None => Ok None
  | Some (VStr s) => Ok (Some s)
  | Some _ => ill_typed k
  end.

Definition get_int (d : document) (k : string) : result (option Z) :=
  match d !! k with
  | None => Ok None
  | Some (VInt n) => Ok (Some n)
  | Some _ => ill_typed k
  end.

Definition get_time (d : document) (k : string) : result (option Z) :=
  match d !! k with
  | None => Ok None
  | Some (VTime t) => Ok (Some t)
  | Some _ => ill_typed k
  end.

Definition get_oid (d : document) (k : string) : result (option ObjectId) :=
  match d !! k with
  | None => Ok None
  | Some (VOid o) => Ok (Some o)
  | Some _ => ill_typed k
  end.

(** [d[k] = v] when [o] holds a value, nothing otherwise. *)
Definition set_opt (k : string) (o : option value) (d : document) : document :=
  match o with
  | Some v => <[k := v]> d
  | None => d
  end.

(** ** models.py: Song *)

Module Song.

Record t := mk {
  title : string;
  artist : string;
  username : string;
  genre : option string;
  year : option Z;
  duration : option Z;
  created_at : Z;
  updated_at : Z;
  id : option ObjectId
}.

#[global] Instance song_eq_dec : EqDecision t.
Proof. solve_decision. Defined.

Definition _validate (self : t) : result unit :=
  if negb (truthy (title self)) || negb (truthy (strip (title self))) then
    Raise (Exn ValueError "Song title cannot be empty")
  else if negb (truthy (artist self)) || negb (truthy (strip (artist self))) then
    Raise (Exn ValueError "Artist name cannot be empty")
  else if negb (truthy (username self)) || negb (truthy (strip (username self))) then
    Raise (Exn ValueError "Username cannot be empty")
  else if match year self with
          | Some y => (y <? 1000) || (3000 <? y)
          | None => false
          end then
    Raise (Exn ValueError "Year must be between 1000 and 3000")
  else if match duration self with
          | Some n => n <? 0
          | None => false
          end then
    Raise (Exn ValueError "Duration cannot be negative")
  else Ok tt.

(** The dataclass constructor: the fields are stored, then
    [__post_init__] validates. *)
Definition new (self : t) : result t :=
  let+ _ := _validate self in Ok self.

Definition to_dict (self : t) : document :=
  let data : document :=
    <["updated_at" := VTime (updated_at self)]>
    (<["created_at" := VTime (created_at self)]>
    (<["username" := VStr (strip (username self))]>
    (<["artist" := VStr (strip (artist self))]>
    (<["title" := VStr (strip (title self))]> ∅)))) in
  let data :=
    if truthy_opt (genre self)
    then set_opt "genre" (VStr ∘ strip <$> genre self) data else data in
  let data := set_opt "year" (VInt <$> year self) data in
  let data := set_opt "duration" (VInt <$> duration self) data in
  let data := set_opt "_id" (VOid <$> id self) data in
  data.

(** [now] is the value of [datetime.now(timezone.utc)], which Python
    evaluates for the two defaults before it looks the keys up. *)
Definition from_dict (now : Z) (data : document) : result t :=
  let+ title := get_str data "title" in
  let+ artist := get_str data "artist" in
  let+ username := get_str data "username" in
  let+ genre := get_str data "genre" in
  let+ year := get_int data "year" in
  let+ duration := get_int data "duration" in
  let+ created_at := get_time data "created_at" in
  let+ updated_at := get_time data "updated_at" in
  let+ id := get_oid data "_id" in
  new (mk (default "" title) (default "" artist) (default "" username)
          genre year duration
          (default now created_at) (default now updated_at) id).

(** One keyword argument of [update_fields]: the name of a dataclass
    field with a value of the field's type ([None] when the caller
    passed [None]), or a name that is no attribute of a [Song] (the
    names of its methods are not considered). *)
Inductive kwarg :=
  | kw_title (v : option string)
  | kw_artist (v : option string)
  | kw_username (v : option string)
  | kw_genre (v : option string)
  | kw_year (v : option Z)
  | kw_duration (v : option Z)
  | kw_created_at (v : option Z)
  | kw_updated_at (v : option Z)
  | kw_id (v : option ObjectId)
  | kw_other (key : string) (v : option value).

(** [value is not None] *)
Definition kw_is_set (kw : kwarg) : bool :=
  match kw with
  | kw_title v | kw_artist v | kw_username v | kw_genre v => bool_decide (is_Some v)
  | kw_year v | kw_duration v | kw_created_at v | kw_updated_at v => bool_decide (is_Some v)
  | kw_id v => bool_decide (is_Some v)
  | kw_other _ v => bool_decide (is_Some v)
  end.

(** [if hasattr(self, key) and value is not None: setattr(self, key, value)] *)
Definition setattr (self : t) (kw : kwarg) : t :=
  match kw with
  | kw_title (Some v) =>
      mk v (artist self) (username self) (genre self) (year self) (duration self)
         (created_at self) (updated_at self) (id self)
  | kw_artist (Some v) =>
      mk (title self) v (username self) (genre self) (year self) (duration self)
         (created_at self) (updated_at self) (id self)
  | kw_username (Some v) =>
      mk (title self) (artist self) v (genre self) (year self) (duration self)
         (created_at self) (updated_at self) (id self)
  | kw_genre (Some v) =>
      mk (title self) (artist self) (username self) (Some v) (year self) (duration self)
         (created_at self) (updated_at self) (id self)
  | kw_year (Some v) =>
      mk (title self) (artist self) (username self) (genre self) (Some v) (duration self)
         (created_at self) (updated_at self) (id self)
  | kw_duration (Some v) =>
      mk (title self) (artist self) (username self) (genre self) (year self) (Some v)
         (created_at self) (updated_at self) (id self)
  | kw_created_at (Some v) =>
      mk (title self) (artist self) (username self) (genre self) (year self) (duration self)
         v (updated_at self) (id self)
  | kw_updated_at (Some v) =>
      mk (title self) (artist self) (username self) (genre self) (year self) (duration self)
         (created_at self) v (id self)
  | kw_id (Some v) =>
      mk (title self) (artist self) (username self) (genre self) (year self) (duration self)
         (created_at self) (updated_at self) (Some v)
  | _ => self
  end.

Definition set_updated_at (now : Z) (self : t) : t :=
  mk (title self) (artist self) (username self) (genre self) (year self) (duration self)
     (created_at self) now (id self).

(** [update_fields] mutates the object it is called on: the first
    component is the object as the call leaves it, the second what the
    call returns or raises. *)
Definition update_fields (kwargs : list kwarg) (now : Z) (self : t) : t * result unit :=
  let self := foldl setattr self kwargs in
  let self := set_updated_at now self in
  (self, _validate self).

End Song.

(** ** models.py: HistoryEntry *)

Module HistoryEntry.

Record t := mk {
  username : string;
  action : string;
  song_title : string;
  song_artist : string;
  timestamp : Z;
  id : option ObjectId
}.

#[global] Instance entry_eq_dec : EqDecision t.
Proof. solve_decision. Defined.

(** An action outside the five known ones is only logged as unusual. *)
Definition _validate (self : t) : result unit :=
  if negb (truthy (username self)) || negb (truthy (strip (username self))) then
    Raise (Exn ValueError "Username cannot be empty")
  else if negb (truthy (action self)) || negb (truthy (strip (action self))) then
    Raise (Exn ValueError "Action cannot be empty")
  else Ok tt.

Definition new (self : t) : result t :=
  let+ _ := _validate self in Ok self.

Definition to_dict (self : t) : document :=
  let data : document :=
    <["timestamp" := VTime (timestamp self)]>
    (<["song_artist" := VStr (strip (song_artist self))]>
    (<["song_title" := VStr (strip (song_title self))]>
    (<["action" := VStr (strip (action self))]>
    (<["username" := VStr (strip (username self))]> ∅)))) in
  set_opt "_id" (VOid <$> id self) data.

Definition from_dict (now : Z) (data : document) : result t :=
  let+ username := get_str data "username" in
  let+ action := get_str data "action" in
  let+ song_title := get_str data "song_title" in
  let+ song_artist := get_str data "song_artist" in
  let+ timestamp := get_time data "timestamp" in
  let+ id := get_oid data "_id" in
  new (mk (default "" username) (default "" action) (default "" song_title)
          (default "" song_artist) (default now timestamp) id).

End HistoryEntry.

(** ** The world: store, connection, clock, faults *)

(** A fault the driver reports: the pymongo exception class and its
    message. *)
Inductive fault_kind :=
  | connection_failure
  | server_selection_timeout
  | duplicate_key
  | operation_failure.

#[global] Instance fault_kind_eq_dec : EqDecision fault_kind.
Proof. solve_decision. Defined.

Record fault := Fault { fault_is : fault_kind; fault_msg : string }.

#[global] Instance fault_eq_dec : EqDecision fault.
Proof. solve_decision. Defined.

Definition exn_of_fault (f : fault) : exn :=
  Exn match fault_is f with
      | connection_failure => ConnectionFailure
      | server_selection_timeout => ServerSelectionTimeoutError
      | duplicate_key => DuplicateKeyError
      | operation_failure => PyMongoError
      end
      (fault_msg f).

(** What the environment does to the next call on a store resource:
    [None] lets it through, [Some f] makes the driver raise [f].  A list
    that has run out lets every further call through. *)
Abbreviation fault_plan := (list (option fault)).

Record world := World {
  songs : list document;            (* the songs collection, in insertion order *)
  history : list document;          (* the history collection *)
  connected : bool;                 (* SongsDatabase._connected *)
  clock : Z;                        (* what datetime.now() reads *)
  oid_counter : N;                  (* the next ObjectId the driver generates *)
  connect_faults : fault_plan;      (* MongoClient(...) and ping *)
  songs_faults : fault_plan;        (* operations on the songs collection *)
  history_faults : fault_plan       (* operations on the history collection *)
}.

#[global] Instance world_eq_dec : EqDecision world.
Proof. solve_decision. Defined.

Definition set_songs (l : list document) (w : world) : world :=
  World l (history w) (connected w) (clock w) (oid_counter w)
        (connect_faults w) (songs_faults w) (history_faults w).
Definition set_history (l : list document) (w : world) : world :=
  World (songs w) l (connected w) (clock w) (oid_counter w)
        (connect_faults w) (songs_faults w) (history_faults w).
Definition set_connected (b : bool) (w : world) : world :=
  World (songs w) (history w) b (clock w) (oid_counter w)
        (connect_faults w) (songs_faults w) (history_faults w).
Definition set_oid_counter (n : N) (w : world) : world :=
  World (songs w) (history w) (connected w) (clock w) n
        (connect_faults w) (songs_faults w) (history_faults w).
Definition set_connect_faults (f : fault_plan) (w : world) : world :=
  World (songs w) (history w) (connected w) (clock w) (oid_counter w)
        f (songs_faults w) (history_faults w).
Definition set_songs_faults (f : fault_plan) (w : world) : world :=
  World (songs w) (history w) (connected w) (clock w) (oid_counter w)
        (connect_faults w) f (history_faults w).
Definition set_history_faults (f : fault_plan) (w : world) : world :=
  World (songs w) (history w) (connected w) (clock w) (oid_counter w)
        (connect_faults w) (songs_faults w) f.

(** ** The monad of store computations *)

Definition M (A : Type) : Type := world -> result A * world.

Definition ret {A} (a : A) : M A := fun w => (Ok a, w).

Definition raise {A} (e : exn) : M A := fun w => (Raise e, w).

Definition bind {A B} (c : M A) (k : A -> M B) : M B :=
  fun w =>
    match c w with
    | (Ok a, w') => k a w'
    | (Raise e, w') => (Raise e, w')
    end.

Notation "'let*' x ':=' c 'in' k" := (bind c (fun x => k))
  (at level 10, x name, c at level 100, k at level 200, only parsing).

(** A pure computation that may raise. *)
Definition lift {A} (r : result A) : M A := fun w => (r, w).

(** [try: body except ... as e: handler e] *)
Definition try_except {A} (body : M A) (handler : exn -> M A) : M A :=
  fun w =>
    match body w with
    | (Ok a, w') => (Ok a, w')
    | (Raise e, w') => handler e w'
    end.

(** [datetime.now(timezone.utc)] *)
Definition now : M Z := fun w => (Ok (clock w), w).

(** [str(e)] *)
Definition str (e : exn) : string := exn_msg e.

(** ** The driver: what pymongo and the server do *)

Definition next_fault (plan : fault_plan) : option fault * fault_plan :=
  match plan with
  | [] => (None, [])
  | f :: plan' => (f, plan')
  end.

(** One round trip to the songs collection: the next planned fault, if
    any, is raised. *)
Definition songs_call : M unit := fun w =>
  let '(f, plan) := next_fault (songs_faults w) in
  let w' := set_songs_faults plan w in
  match f with
  | Some f => (Raise (exn_of_fault f), w')
  | None => (Ok tt, w')
  end.

Definition history_call : M unit := fun w =>
  let '(f, plan) := next_fault (history_faults w) in
  let w' := set_history_faults plan w in
  match f with
  | Some f => (Raise (exn_of_fault f), w')
  | None => (Ok tt, w')
  end.

(** A filter document matches when every field it names has the same
    value in the candidate. *)
Definition matches (query d : document) : bool :=
  bool_decide (map_Forall (fun k v => d !! k = Some v) query).

Definition by_id_and_user (o : ObjectId) (username : string) : document :=
  <["username" := VStr username]> (<["_id" := VOid o]> ∅).

(** [insert_one]: a document without [_id] receives a generated one; an
    [_id] the collection already holds is a duplicate key.  ([to_dict]
    writes an ObjectId under [_id] or no [_id] at all.) *)
Definition insert_doc (d : document) (coll : list document) (counter : N)
  : result (ObjectId * list document * N) :=
  let '(o, d', counter') :=
    match d !! "_id" with
    | Some (VOid o) => (o, d, counter)
    | _ => (Oid counter, <["_id" := VOid (Oid counter)]> d, (counter + 1)%N)
    end in
  if existsb (fun x => bool_decide (x !! "_id" = Some (VOid o))) coll
  then Raise (Exn DuplicateKeyError "E11000 duplicate key error")
  else Ok (o, (coll ++ [d'])%list, counter').

(** [update_one(filter, {"$set": upd})] on the first match: the fields of
    [upd] overwrite the stored ones.  The result is the collection and
    [modified_count]; [_id] cannot be given another value. *)
Fixpoint update_first (query upd : document) (coll : list document)
  : result (list document * nat) :=
  match coll with
  | [] => Ok ([], 0%nat)
  | d :: rest =>
      if matches query d then
        let d' := upd ∪ d in
        if bool_decide (d' !! "_id" = d !! "_id") then
          if bool_decide (d' = d) then Ok (coll, 0%nat) else Ok (d' :: rest, 1%nat)
        else Raise (Exn PyMongoError "Performing an update on the path '_id' would modify the immutable field '_id'")
      else
        let+ r := update_first query upd rest in
        Ok (d :: r.1, r.2)
  end.

(** [delete_one(filter)]: the collection without its first match, and
    [deleted_count]. *)
Fixpoint delete_first (query : document) (coll : list document)
  : list document * nat :=
  match coll with
  | [] => ([], 0%nat)
  | d :: rest =>
      if matches query d then (rest, 1%nat)
      else let r := delete_first query rest in (d :: r.1, r.2)
  end.

(** The order the server sorts values of one field in: a missing field
    sorts as null, before numbers, before text, before ObjectIds, before
    dates; values of one type in their own order. *)
Definition bson_rank (o : option value) : nat :=
  match o with
  | None => 0
  | Some (VInt _) => 1
  | Some (VStr _) => 2
  | Some (VOid _) => 3
  | Some (VTime _) => 4
  end.

Definition bson_leb (a b : option value) : bool :=
  match a, b with
  | Some (VInt x), Some (VInt y) => x <=? y
  | Some (VStr x), Some (VStr y) => String.leb x y
  | Some (VOid (Oid x)), Some (VOid (Oid y)) => (x <=? y)%N
  | Some (VTime x), Some (VTime y) => x <=? y
  | _, _ => (bson_rank a <=? bson_rank b)%nat
  end.

(** [d1] may come before [d2] in [sort(field, -1)]. *)
Definition desc_by (field : string) (d1 d2 : document) : Prop :=
  bson_leb (d2 !! field) (d1 !! field).

#[global] Instance desc_by_dec field d1 d2 : Decision (desc_by field d1 d2).
Proof. unfold desc_by. apply _. Defined.

(** [find(query).sort(field, -1)]; which of two documents with equal keys
    comes first is the server's choice, here the one [merge_sort] makes. *)
Definition find_sorted (query : document) (field : string) (coll : list document)
  : list document :=
  merge_sort (desc_by field) (List.filter (matches query) coll).

(** [cursor.limit(n)]: zero is no limit, a negative limit counts as its
    absolute value. *)
Definition cursor_limit (n : Z) (l : list document) : list document :=
  if n =? 0 then l else take (Z.abs_nat n) l.

(** [for x in xs: out.append(f(x))], stopping at the first exception. *)
Fixpoint map_result {A B} (f : A -> result B) (xs : list A) : result (list B) :=
  match xs with
  | [] => Ok []
  | x :: xs' =>
      let+ y := f x in
      let+ ys := map_result f xs' in
      Ok (y :: ys)
  end.

(** ** database.py *)

Module SongsDatabase.

(** [MongoClient(...)] and the [ping]. *)
Definition connect_call : M unit := fun w =>
  let '(f, plan) := next_fault (connect_faults w) in
  let w' := set_connect_faults plan w in
  match f with
  | Some f => (Raise (exn_of_fault f), w')
  | None => (Ok tt, w')
  end.

(** [_create_indexes] catches whatever index creation raises and only
    warns; it changes no document and is not modelled further. *)
Definition connect : M bool :=
  try_except
    (let* _ := connect_call in
     fun w => (Ok true, set_connected true w))
    (fun e =>
       match exn_cls e with
       | ConnectionFailure | ServerSelectionTimeoutError =>
           raise (Exn DatabaseError ("Database connection failed: " +:+ str e))
       | _ =>
           raise (Exn DatabaseError ("Unexpected database error: " +:+ str e))
       end).

Definition close (w : world) : world := set_connected false w.

Definition _ensure_connected : M unit := fun w =>
  if connected w then (Ok tt, w)
  else (Raise (Exn DatabaseError "Database not connected. Call connect() first."), w).

Definition insert_one_songs (d : document) : M ObjectId :=
  let* _ := songs_call in
  fun w =>
    match insert_doc d (songs w) (oid_counter w) with
    | Ok (o, coll, counter) => (Ok o, set_oid_counter counter (set_songs coll w))
    | Raise e => (Raise e, w)
    end.

Definition insert_one_history (d : document) : M ObjectId :=
  let* _ := history_call in
  fun w =>
    match insert_doc d (history w) (oid_counter w) with
    | Ok (o, coll, counter) => (Ok o, set_oid_counter counter (set_history coll w))
    | Raise e => (Raise e, w)
    end.

Definition find_one_songs (query : document) : M (option document) :=
  let* _ := songs_call in
  fun w => (Ok (List.find (matches query) (songs w)), w).

Definition update_one_songs (query upd : document) : M nat :=
  let* _ := songs_call in
  fun w =>
    match update_first query upd (songs w) with
    | Ok (coll, modified_count) => (Ok modified_count, set_songs coll w)
    | Raise e => (Raise e, w)
    end.

Definition delete_one_songs (query : document) : M nat :=
  let* _ := songs_call in
  fun w =>
    let '(coll, deleted_count) := delete_first query (songs w) in
    (Ok deleted_count, set_songs coll w).

(** [ObjectId(song_id)] *)
Definition ObjectId_ (song_id : string) : M ObjectId :=
  match ObjectId_of_str song_id with
  | Some o => ret o
  | None => raise (Exn InvalidId (song_id +:+ " is not a valid ObjectId, it must be a 12-byte input or a 24-character hex string"))
  end.

Definition add_song (song : Song.t) : M ObjectId :=
  let* _ := _ensure_connected in
  try_except
    (let song_data := Song.to_dict song in
     insert_one_songs song_data)
    (fun e =>
       match exn_cls e with
       | DuplicateKeyError =>
           raise (Exn DatabaseError ("Song already exists: " +:+ str e))
       | _ =>
           raise (Exn DatabaseError ("Failed to add song: " +:+ str e))
       end).

Definition get_songs (username : option string) (limit : option Z) : M (list Song.t) :=
  let* _ := _ensure_connected in
  try_except
    (let query : document :=
       if truthy_opt username
       then set_opt "username" (VStr <$> username) ∅ else ∅ in
     let* _ := songs_call in
     let* t := now in
     fun w =>
       let cursor := find_sorted query "created_at" (songs w) in
       let cursor :=
         match limit with
         | Some n => if n =? 0 then cursor else cursor_limit n cursor
         | None => cursor
         end in
       (map_result (Song.from_dict t) cursor, w))
    (fun e => raise (Exn DatabaseError ("Failed to get songs: " +:+ str e))).

Section Regex.

(** [regex_search pattern text]: whether the server's case-insensitive
    regular-expression search of [pattern] in [text] succeeds. *)
Variable regex_search : string -> string -> bool.

Definition regex_field (pattern field : string) (d : document) : bool :=
  match d !! field with
  | Some (VStr s) => regex_search pattern s
  | _ => false
  end.

Definition search_songs (username search_term : string) : M (list Song.t) :=
  let* _ := _ensure_connected in
  try_except
    (let* _ := songs_call in
     let* t := now in
     fun w =>
       let cursor :=
         List.filter
           (fun d => matches (<["username" := VStr username]> ∅) d
                     && (regex_field search_term "title" d
                         || regex_field search_term "artist" d))
           (songs w) in
       (map_result (Song.from_dict t) cursor, w))
    (fun e => raise (Exn DatabaseError ("Failed to search songs: " +:+ str e))).

End Regex.

Definition get_song_by_id (username song_id : string) : M (option Song.t) :=
  let* _ := _ensure_connected in
  try_except
    (let* object_id := ObjectId_ song_id in
     let* song_data := find_one_songs (by_id_and_user object_id username) in
     match song_data with
     | Some song_data =>
         let* t := now in
         let* song := lift (Song.from_dict t song_data) in
         ret (Some song)
     | None => ret None
     end)
    (fun e =>
       match exn_cls e with
       | InvalidId =>
           raise (Exn DatabaseError ("Invalid song ID format: " +:+ song_id))
       | _ =>
           raise (Exn DatabaseError ("Failed to get song: " +:+ str e))
       end).

Definition update_song (username song_id : string) (kwargs : list Song.kwarg) : M bool :=
  let* _ := _ensure_connected in
  try_except
    (let* song := get_song_by_id username song_id in
     match song with
     | None => ret false
     | Some song =>
         let* t := now in
         let '(song, validated) := Song.update_fields kwargs t song in
         let* _ := lift validated in
         let* object_id := ObjectId_ song_id in
         let* modified_count :=
           update_one_songs (by_id_and_user object_id username) (Song.to_dict song) in
         ret (0 <? modified_count)%nat
     end)
    (fun e =>
       match exn_cls e with
       | InvalidId =>
           raise (Exn DatabaseError ("Invalid song ID format: " +:+ song_id))
       | _ =>
           raise (Exn DatabaseError ("Failed to update song: " +:+ str e))
       end).

Definition delete_song (username song_id : string) : M (option Song.t) :=
  let* _ := _ensure_connected in
  try_except
    (let* song := get_song_by_id username song_id in
     match song with
     | None => ret None
     | Some song =>
         let* object_id := ObjectId_ song_id in
         let* deleted_count := delete_one_songs (by_id_and_user object_id username) in
         if (0 <? deleted_count)%nat then ret (Some song) else ret None
     end)
    (fun e =>
       match exn_cls e with
       | InvalidId =>
           raise (Exn DatabaseError ("Invalid song ID format: " +:+ song_id))
       | _ =>
           raise (Exn DatabaseError ("Failed to delete song: " +:+ str e))
       end).

Definition add_history_entry (entry : HistoryEntry.t) : M ObjectId :=
  let* _ := _ensure_connected in
  try_except
    (let entry_data := HistoryEntry.to_dict entry in
     insert_one_history entry_data)
    (fun e => raise (Exn DatabaseError ("Failed to add history entry: " +:+ str e))).

Definition get_history (username : string) (limit : Z) : M (list HistoryEntry.t) :=
  let* _ := _ensure_connected in
  try_except
    (let* _ := history_call in
     let* t := now in
     fun w =>
       let history_data :=
         cursor_limit limit
           (find_sorted (<["username" := VStr username]> ∅) "timestamp" (history w)) in
       (map_result (HistoryEntry.from_dict t) history_data, w))
    (fun e => raise (Exn DatabaseError ("Failed to get history: " +:+ str e))).

End SongsDatabase.

(** [with DatabaseManager() as db: body]: a new [SongsDatabase] is
    connected; [__exit__] closes it on every way out of the body and
    suppresses nothing.  When [connect] raises the body is not entered. *)
Definition with_db {A} (body : M A) : M A := fun w =>
  match SongsDatabase.connect (set_connected false w) with
  | (Raise e, w') => (Raise e, w')
  | (Ok _, w') => let '(r, w'') := body w' in (r, SongsDatabase.close w'')
  end.

(** ** services.py *)

Module SongsService.

Definition _log_history (username action title artist : string) : M unit :=
  try_except
    (let* t := now in
     let* entry := lift (HistoryEntry.new
                           (HistoryEntry.mk username action title artist t None)) in
     let* _ := SongsDatabase.add_history_entry entry in
     ret tt)
    (fun e =>
       (* Don't fail the main operation if history logging fails *)
       ret tt).

Definition add_song (username title artist : string)
    (genre : option string) (year duration : option Z) : M bool :=
  try_except
    (let* created := now in
     let* updated := now in
     let* song := lift (Song.new
                          (Song.mk title artist username genre year duration
                                   created updated None)) in
     with_db
       (let* song_id := SongsDatabase.add_song song in
        let* _ := _log_history username "added" title artist in
        ret true))
    (fun e =>
       match exn_cls e with
       | ValueError => raise (Exn ValueError ("Invalid song data: " +:+ str e))
       | DatabaseError => raise (Exn DatabaseError ("Failed to add song: " +:+ str e))
       | _ => raise (Exn BaseException ("Unexpected error: " +:+ str e))
       end).

Definition list_songs (username : option string) (limit : option Z) : M (list Song.t) :=
  try_except
    (with_db (SongsDatabase.get_songs username limit))
    (fun e =>
       match exn_cls e with
       | DatabaseError => raise (Exn DatabaseError ("Failed to list songs: " +:+ str e))
       | _ => raise (Exn BaseException ("Unexpected error: " +:+ str e))
       end).

Section Regex.

Variable regex_search : string -> string -> bool.

Definition search_songs (username search_term : string) : M (list Song.t) :=
  try_except
    (if negb (truthy (strip search_term)) then
       raise (Exn ValueError "Search term cannot be empty")
     else
       with_db (SongsDatabase.search_songs regex_search username (strip search_term)))
    (fun e =>
       match exn_cls e with
       | ValueError => raise (Exn ValueError ("Invalid search: " +:+ str e))
       | DatabaseError => raise (Exn DatabaseError ("Failed to search songs: " +:+ str e))
       | _ => raise (Exn BaseException ("Unexpected error: " +:+ str e))
       end).

End Regex.

Definition get_song (username song_id : string) : M (option Song.t) :=
  try_except
    (with_db
       (let* song := SongsDatabase.get_song_by_id username song_id in
        match song with
        | Some s =>
            let* _ := _log_history username "viewed" (Song.title s) (Song.artist s) in
            ret song
        | None => ret song
        end))
    (fun e =>
       match exn_cls e with
       | DatabaseError => raise (Exn DatabaseError ("Failed to get song: " +:+ str e))
       | _ => raise (Exn BaseException ("Unexpected error: " +:+ str e))
       end).

Definition update_song (username song_id : string) (kwargs : list Song.kwarg) : M bool :=
  try_except
    ((* Remove None values *)
     let update_data := List.filter Song.kw_is_set kwargs in
     match update_data with
     | [] => raise (Exn ValueError "No update data provided")
     | _ =>
         with_db
           (let* original_song := SongsDatabase.get_song_by_id username song_id in
            match original_song with
            | None => ret false
            | Some original_song =>
                let* success := SongsDatabase.update_song username song_id update_data in
                if success then
                  let* _ := _log_history username "updated"
                              (Song.title original_song) (Song.artist original_song) in
                  ret success
                else ret success
            end)
     end)
    (fun e =>
       match exn_cls e with
       | ValueError => raise (Exn ValueError ("Invalid update: " +:+ str e))
       | DatabaseError => raise (Exn DatabaseError ("Failed to update song: " +:+ str e))
       | _ => raise (Exn BaseException ("Unexpected error: " +:+ str e))
       end).

Definition delete_song (username song_id : string) : M bool :=
  try_except
    (with_db
       (let* deleted_song := SongsDatabase.delete_song username song_id in
        match deleted_song with
        | Some s =>
            let* _ := _log_history username "deleted" (Song.title s) (Song.artist s) in
            ret true
        | None => ret false
        end))
    (fun e =>
       match exn_cls e with
       | DatabaseError => raise (Exn DatabaseError ("Failed to delete song: " +:+ str e))
       | _ => raise (Exn BaseException ("Unexpected error: " +:+ str e))
       end).

Definition get_history (username : string) (limit : Z) : M (list HistoryEntry.t) :=
  try_except
    (with_db (SongsDatabase.get_history username limit))
    (fun e =>
       match exn_cls e with
       | DatabaseError => raise (Exn DatabaseError ("Failed to get history: " +:+ str e))
       | _ => raise (Exn BaseException ("Unexpected error: " +:+ str e))
       end).

End SongsService.

Module PlaybackService.

Definition play_song (username song_id : string) : M bool :=
  try_except
    (let* song := SongsService.get_song username song_id in
     match song with
     | Some s =>
         let* _ := with_db (SongsService._log_history username "played"
                              (Song.title s) (Song.artist s)) in
         ret true
     | None => ret false
     end)
    (fun e => ret false).

End PlaybackService.


(** ** formatters.py *)

(** Texts are strings of one-byte characters, here as everywhere else: a
    width counts those.  The pictographs the messages start with are
    spelled by their UTF-8 bytes and enter no width. *)

(** [str(n)] for an [int]. *)
Definition str_of_int (n : Z) : string :=
  NilZero.string_of_int (Z.to_int n).

(** [f"{n:02d}"] for a number that is not negative: at least two digits,
    zeros in front. *)
Definition zero_pad_2 (n : Z) : string :=
  let s := str_of_int n in
  if (String.length s <? 2)%nat then "0" +:+ s else s.

Definition hex_char (d : N) : ascii :=
  if (d <? 10)%N then ascii_of_N (48 + d) else ascii_of_N (87 + d).

Fixpoint hex_digits (count : nat) (n : N) (acc : string) : string :=
  match count with
  | O => acc
  | S count' => hex_digits count' (n / 16)%N (String (hex_char (n mod 16)%N) acc)
  end.

(** [str(oid)]: the twelve bytes as 24 hexadecimal digits in lower case. *)
Definition str_of_ObjectId (o : ObjectId) : string :=
  match o with Oid n => hex_digits 24 n "" end.

(** [s[:n]] *)
Definition take_chars (n : nat) (s : string) : string := String.substring 0 n s.

Fixpoint spaces (n : nat) : string :=
  match n with
  | O => ""
  | S n' => String " " (spaces n')
  end.

(** [f"{s:<width}"] *)
Definition pad_right (width : nat) (s : string) : string :=
  s +:+ spaces (width - String.length s).

(** ["-" * n] *)
Fixpoint dashes (n : nat) : string :=
  match n with
  | O => ""
  | S n' => String "-" (dashes n')
  end.

(** [sep.join(parts)] *)
Fixpoint join (sep : string) (parts : list string) : string :=
  match parts with
  | [] => ""
  | [p] => p
  | p :: rest => p +:+ sep +:+ join sep rest
  end.

(** The line feed. *)
Definition LF : string := String (ascii_of_nat 10) "".

(** [s or default] for a [str] *)
Definition str_or (s default : string) : string :=
  if truthy s then s else default.

Definition opt_str_or (o : option string) (default : string) : string :=
  match o with
  | Some s => str_or s default
  | None => default
  end.

(** Truth value of an [Optional[int]]: present and not zero. *)
Definition truthy_int (o : option Z) : bool :=
  match o with
  | Some n => negb (n =? 0)
  | None => false
  end.

(** [divmod(duration, 60)] rendered as minutes and two-digit seconds. *)
Definition minutes_seconds (duration : Z) : string :=
  let minutes := duration / 60 in
  let seconds := duration mod 60 in
  str_of_int minutes +:+ ":" +:+ zero_pad_2 seconds.

Module SongFormatter.

Definition format_song (song : Song.t) : string :=
  let song_id :=
    match Song.id song with
    | Some o => str_of_ObjectId o
    | None => "N/A"
    end in
  let title := str_or (Song.title song) "Unknown" in
  let artist := str_or (Song.artist song) "Unknown" in
  let genre := opt_str_or (Song.genre song) "N/A" in
  let year :=
    if truthy_int (Song.year song)
    then str_of_int (default 0 (Song.year song)) else "N/A" in
  let duration_str :=
    match Song.duration song with
    | Some duration => minutes_seconds duration
    | None => "N/A"
    end in
  LF +:+ "🎵 " +:+ title +:+ " - " +:+ artist +:+ LF +:+
  "   Genre: " +:+ genre +:+ " | Year: " +:+ year +:+ " | Duration: " +:+ duration_str
    +:+ LF +:+
  "   ID: " +:+ song_id +:+ LF.

Definition format_song_list (songs : list Song.t) (username : option string) : string :=
  match songs with
  | [] =>
      let user_text :=
        if truthy_opt username then " for " +:+ default "" username else "" in
      "No songs found" +:+ user_text
  | _ =>
      let header :=
        LF +:+ "🎵 Songs" +:+
        (if truthy_opt username then " for " +:+ default "" username else "") +:+ ":" in
      let formatted_songs := format_song <$> songs in
      header +:+ join "" formatted_songs
  end.

Definition table_header : string :=
  pad_right 30 "Title" +:+ " " +:+ pad_right 25 "Artist" +:+ " " +:+
  pad_right 15 "Genre" +:+ " " +:+ pad_right 6 "Year" +:+ " " +:+ pad_right 8 "Duration".

Definition table_row (song : Song.t) : string :=
  let title :=
    if (30 <? String.length (Song.title song))%nat
    then take_chars 27 (Song.title song) +:+ "..." else Song.title song in
  let artist :=
    if (25 <? String.length (Song.artist song))%nat
    then take_chars 22 (Song.artist song) +:+ "..." else Song.artist song in
  let genre :=
    if truthy_opt (Song.genre song)
       && (15 <? String.length (default "" (Song.genre song)))%nat
    then take_chars 12 (default "" (Song.genre song)) +:+ "..."
    else opt_str_or (Song.genre song) "N/A" in
  let year :=
    if truthy_int (Song.year song)
    then str_of_int (default 0 (Song.year song)) else "N/A" in
  let duration :=
    if truthy_int (Song.duration song)
    then minutes_seconds (default 0 (Song.duration song)) else "N/A" in
  pad_right 30 title +:+ " " +:+ pad_right 25 artist +:+ " " +:+
  pad_right 15 genre +:+ " " +:+ pad_right 6 year +:+ " " +:+ pad_right 8 duration.

Definition format_song_table (songs : list Song.t) : string :=
  match songs with
  | [] => "No songs found"
  | _ =>
      let header := table_header in
      let separator := dashes (String.length header) in
      let rows := table_row <$> songs in
      LF +:+ header +:+ LF +:+ separator +:+ LF +:+ join LF rows
  end.

End SongFormatter.

Module HistoryFormatter.

Section Strftime.

(** [strftime timestamp]: the timestamp rendered by
    [strftime("%Y-%m-%d %H:%M:%S")]. *)
Variable strftime : Z -> string.

Definition action_emoji (action : string) : string :=
  if String.eqb action "added" then "➕"
  else if String.eqb action "updated" then "✏️"
  else if String.eqb action "deleted" then "🗑️"
  else if String.eqb action "played" then "▶️"
  else if String.eqb action "viewed" then "👁️"
  else "📝".

Definition format_history_entry (entry : HistoryEntry.t) : string :=
  let timestamp := strftime (HistoryEntry.timestamp entry) in
  let action := HistoryEntry.action entry in
  let title := HistoryEntry.song_title entry in
  let artist := HistoryEntry.song_artist entry in
  action_emoji action +:+ " " +:+ timestamp +:+ " - " +:+ action +:+ " '" +:+ title
    +:+ "' by " +:+ artist.

Definition format_history_list (history : list HistoryEntry.t) (username : string)
  : string :=
  match history with
  | [] => "No history found for " +:+ username
  | _ =>
      let header := LF +:+ "📜 History for " +:+ username +:+ ":" in
      let formatted_entries := format_history_entry <$> history in
      header +:+ LF +:+ join LF formatted_entries
  end.

End Strftime.

End HistoryFormatter.

Module MessageFormatter.

Definition success (message : string) : string := "✅ " +:+ message.

Definition error (message : string) : string := "❌ " +:+ message.

Definition warning (message : string) : string := "⚠️ " +:+ message.

Definition info (message : string) : string := "ℹ️ " +:+ message.

Definition search_results (songs : list Song.t) (search_term : string) : string :=
  match songs with
  | [] => "No songs found matching '" +:+ search_term +:+ "'"
  | _ =>
      let header := LF +:+ "🔍 Search results for '" +:+ search_term +:+ "':" in
      let formatted_songs := SongFormatter.format_song <$> songs in
      header +:+ join "" formatted_songs
  end.

End MessageFormatter.

(** ** cli.py: the command handlers *)

(** A handler prints while it talks to the services: its computations
    thread what has been written to standard output, item by item, next
    to the world.  What was printed before an exception stays printed. *)
Definition C (A : Type) : Type :=
  list string -> world -> result A * list string * world.

Definition cret {A} (a : A) : C A := fun out w => (Ok a, out, w).

Definition cbind {A B} (c : C A) (k : A -> C B) : C B :=
  fun out w =>
    match c out w with
    | (Ok a, out', w') => k a out' w'
    | (Raise e, out', w') => (Raise e, out', w')
    end.

Notation "'let!' x ':=' c 'in' k" := (cbind c (fun x => k))
  (at level 10, x name, c at level 100, k at level 200, only parsing).

Definition ctry_except {A} (body : C A) (handler : exn -> C A) : C A :=
  fun out w =>
    match body out w with
    | (Ok a, out', w') => (Ok a, out', w')
    | (Raise e, out', w') => handler e out' w'
    end.

(** A call into the services. *)
Definition call {A} (c : M A) : C A :=
  fun out w => let '(r, w') := c w in (r, out, w').

(** [print(s)] *)
Definition print (s : string) : C unit := fun out w => (Ok tt, (out ++ [s])%list, w).

(** [input(prompt)]: the prompt is written, then a line is read; at the
    end of input Python raises [EOFError], an exception of no class the
    handlers name.  An interrupt from the keyboard, which no handler
    catches, is not modelled. *)
Definition input (stdin : option string) (prompt : string) : C string :=
  fun out w =>
    match stdin with
    | Some line => (Ok line, (out ++ [prompt])%list, w)
    | None => (Raise (Exn BaseException "EOF when reading a line"), (out ++ [prompt])%list, w)
    end.

(** [s.lower()] on ASCII. *)
Definition lower_char (c : ascii) : ascii :=
  let n := nat_of_ascii c in
  if ((65 <=? n) && (n <=? 90))%nat then ascii_of_nat (n + 32) else c.

Fixpoint lower (s : string) : string :=
  match s with
  | EmptyString => EmptyString
  | String c s' => String (lower_char c) (lower s')
  end.

Module SongsCLI.

(** The parsed arguments of each command, as [argparse] delivers them: an
    option that was not given is [None] (a flag: [false]). *)
Record add_args := AddArgs {
  add_user : string;
  add_title : string;
  add_artist : string;
  add_genre : option string;
  add_year : option Z;
  add_duration : option Z
}.

Record list_args := ListArgs {
  list_user : string;
  list_limit : option Z;
  list_all : bool;
  list_table : bool
}.

Record search_args := SearchArgs {
  search_user : string;
  search_term : string
}.

Record id_args := IdArgs {
  id_user : string;
  id_song_id : string
}.

Record update_args := UpdateArgs {
  update_user : string;
  update_song_id : string;
  update_title : option string;
  update_artist : option string;
  update_genre : option string;
  update_year : option Z;
  update_duration : option Z
}.

Record delete_args := DeleteArgs {
  delete_user : string;
  delete_song_id : string;
  delete_confirm : bool
}.

Record history_args := HistoryArgs {
  history_user : string;
  history_limit : Z
}.

Definition handle_add (args : add_args) : C Z :=
  ctry_except
    (let! success :=
       call (SongsService.add_song (add_user args) (add_title args) (add_artist args)
               (add_genre args) (add_year args) (add_duration args)) in
     if success then
       let! _ := print (MessageFormatter.success
                          ("Song '" +:+ add_title args +:+ "' by " +:+ add_artist args
                           +:+ " added successfully!")) in
       cret 0
     else
       let! _ := print (MessageFormatter.error "Failed to add song") in
       cret 1)
    (fun e =>
       match exn_cls e with
       | ValueError =>
           let! _ := print (MessageFormatter.error ("Invalid input: " +:+ str e)) in
           cret 1
       | DatabaseError =>
           let! _ := print (MessageFormatter.error ("Database error: " +:+ str e)) in
           cret 1
       | _ =>
           let! _ := print (MessageFormatter.error ("Unexpected error: " +:+ str e)) in
           cret 1
       end).

Definition handle_list (args : list_args) : C Z :=
  ctry_except
    (let username := if list_all args then None else Some (list_user args) in
     let! songs := call (SongsService.list_songs username (list_limit args)) in
     let! _ :=
       if list_table args && bool_decide (songs <> [])
       then print (SongFormatter.format_song_table songs)
       else print (SongFormatter.format_song_list songs username) in
     cret 0)
    (fun e =>
       match exn_cls e with
       | DatabaseError =>
           let! _ := print (MessageFormatter.error ("Database error: " +:+ str e)) in
           cret 1
       | _ =>
           let! _ := print (MessageFormatter.error ("Unexpected error: " +:+ str e)) in
           cret 1
       end).

Section Regex.

Variable regex_search : string -> string -> bool.

Definition handle_search (args : search_args) : C Z :=
  ctry_except
    (let! songs :=
       call (SongsService.search_songs regex_search (search_user args) (search_term args)) in
     let! _ := print (MessageFormatter.search_results songs (search_term args)) in
     cret 0)
    (fun e =>
       match exn_cls e with
       | ValueError =>
           let! _ := print (MessageFormatter.error ("Invalid search: " +:+ str e)) in
           cret 1
       | DatabaseError =>
           let! _ := print (MessageFormatter.error ("Database error: " +:+ str e)) in
           cret 1
       | _ =>
           let! _ := print (MessageFormatter.error ("Unexpected error: " +:+ str e)) in
           cret 1
       end).

End Regex.

Definition handle_get (args : id_args) : C Z :=
  ctry_except
    (let! song := call (SongsService.get_song (id_user args) (id_song_id args)) in
     match song with
     | Some s =>
         let! _ := print (LF +:+ "🎵 Song details:") in
         let! _ := print (SongFormatter.format_song s) in
         cret 0
     | None =>
         let! _ := print (MessageFormatter.error "Song not found") in
         cret 1
     end)
    (fun e =>
       match exn_cls e with
       | DatabaseError =>
           let! _ := print (MessageFormatter.error ("Database error: " +:+ str e)) in
           cret 1
       | _ =>
           let! _ := print (MessageFormatter.error ("Unexpected error: " +:+ str e)) in
           cret 1
       end).

(** The keyword arguments [handle_update] collects: the options whose
    value is truthy, in the order title, artist, genre, year, duration. *)
Definition update_data (args : update_args) : list Song.kwarg :=
  (if truthy_opt (update_title args) then [Song.kw_title (update_title args)] else []) ++
  (if truthy_opt (update_artist args) then [Song.kw_artist (update_artist args)] else []) ++
  (if truthy_opt (update_genre args) then [Song.kw_genre (update_genre args)] else []) ++
  (if truthy_int (update_year args) then [Song.kw_year (update_year args)] else []) ++
  (if truthy_int (update_duration args) then [Song.kw_duration (update_duration args)]
   else []).

Definition handle_update (args : update_args) : C Z :=
  ctry_except
    (match update_data args with
     | [] =>
         let! _ := print (MessageFormatter.error "No update fields provided") in
         cret 1
     | data =>
         let! success :=
           call (SongsService.update_song (update_user args) (update_song_id args) data) in
         if success then
           let! _ := print (MessageFormatter.success "Song updated successfully!") in
           cret 0
         else
           let! _ := print (MessageFormatter.error "Song not found or no changes made") in
           cret 1
     end)
    (fun e =>
       match exn_cls e with
       | ValueError =>
           let! _ := print (MessageFormatter.error ("Invalid update: " +:+ str e)) in
           cret 1
       | DatabaseError =>
           let! _ := print (MessageFormatter.error ("Database error: " +:+ str e)) in
           cret 1
       | _ =>
           let! _ := print (MessageFormatter.error ("Unexpected error: " +:+ str e)) in
           cret 1
       end).

(** A handler leaves by [return] from the middle of its body: [Some code]
    is a return, [None] goes on. *)
Definition handle_delete (stdin : option string) (args : delete_args) : C Z :=
  ctry_except
    (let! returned :=
       if negb (delete_confirm args) then
         let! song := call (SongsService.get_song (delete_user args) (delete_song_id args)) in
         match song with
         | None =>
             let! _ := print (MessageFormatter.error "Song not found") in
             cret (Some 1)
         | Some s =>
             let! response :=
               input stdin ("Are you sure you want to delete '" +:+ Song.title s
                            +:+ "' by " +:+ Song.artist s +:+ "? (y/N): ") in
             if negb (String.eqb (lower response) "y" || String.eqb (lower response) "yes")
             then
               let! _ := print (MessageFormatter.info "Delete cancelled") in
               cret (Some 0)
             else cret None
         end
       else cret None in
     match returned with
     | Some code => cret code
     | None =>
         let! success :=
           call (SongsService.delete_song (delete_user args) (delete_song_id args)) in
         if success then
           let! _ := print (MessageFormatter.success "Song deleted successfully!") in
           cret 0
         else
           let! _ := print (MessageFormatter.error "Song not found") in
           cret 1
     end)
    (fun e =>
       match exn_cls e with
       | DatabaseError =>
           let! _ := print (MessageFormatter.error ("Database error: " +:+ str e)) in
           cret 1
       | _ =>
           let! _ := print (MessageFormatter.error ("Unexpected error: " +:+ str e)) in
           cret 1
       end).

Section Strftime.

Variable strftime : Z -> string.

Definition handle_history (args : history_args) : C Z :=
  ctry_except
    (let! history :=
       call (SongsService.get_history (history_user args) (history_limit args)) in
     let! _ := print (HistoryFormatter.format_history_list strftime history
                        (history_user args)) in
     cret 0)
    (fun e =>
       match exn_cls e with
       | DatabaseError =>
           let! _ := print (MessageFormatter.error ("Database error: " +:+ str e)) in
           cret 1
       | _ =>
           let! _ := print (MessageFormatter.error ("Unexpected error: " +:+ str e)) in
           cret 1
       end).

End Strftime.

Definition handle_play (args : id_args) : C Z :=
  ctry_except
    (let! success := call (PlaybackService.play_song (id_user args) (id_song_id args)) in
     if success then
       let! _ := print (MessageFormatter.success "Song played successfully!") in
       cret 0
     else
       let! _ := print (MessageFormatter.error "Song not found") in
       cret 1)
    (fun e =>
       let! _ := print (MessageFormatter.error ("Error playing song: " +:+ str e)) in
       cret 1).

End SongsCLI.
(** * Vocabulary of the statements *)

(** The invariants [_validate] enforces. *)
Definition checked_invariants (s : Song.t) : Prop :=
  strip (Song.title s) <> "" /\
  strip (Song.artist s) <> "" /\
  strip (Song.username s) <> "" /\
  (forall y, Song.year s = Some y -> 1000 <= y <= 3000) /\
  (forall n, Song.duration s = Some n -> 0 <= n).


(** The record [to_dict] writes down: the four texts trimmed, an empty
    genre dropped. *)
Definition stored_form (s : Song.t) : Song.t :=
  Song.mk (strip (Song.title s)) (strip (Song.artist s)) (strip (Song.username s))
          (if truthy_opt (Song.genre s) then strip <$> Song.genre s else None)
          (Song.year s) (Song.duration s)
          (Song.created_at s) (Song.updated_at s) (Song.id s).

(** A record whose texts carry no surrounding white space and whose
    genre, when present, is not empty. *)
Definition trimmed (s : Song.t) : Prop :=
  strip (Song.title s) = Song.title s /\
  strip (Song.artist s) = Song.artist s /\
  strip (Song.username s) = Song.username s /\
  (forall g, Song.genre s = Some g -> g <> "" /\ strip g = g).

(** Concrete records used below. *)
Definition song_1 : Song.t :=
  Song.mk "Song 1" "Artist" "alice" None None None 1000 1000 None.

Definition song_padded : Song.t :=
  Song.mk " Song 1" "Artist" "alice" None None None 1000 1000 None.

Definition song_backdated : Song.t :=
  Song.mk "Song 1" "Artist" "alice" None None None 1000 500 None.

Definition song_full : Song.t :=
  Song.mk "Song 1" "Artist" "alice" (Some "Rock") (Some 1999) (Some 240)
          1000 1000 (Some (Oid 1)).

(** How the three by-id operations of the repository re-raise what their
    body raised. *)
Definition wrap_by_id (what song_id : string) (e : exn) : exn :=
  match exn_cls e with
  | InvalidId => Exn DatabaseError ("Invalid song ID format: " +:+ song_id)
  | _ => Exn DatabaseError ("Failed to " +:+ what +:+ " song: " +:+ str e)
  end.

Definition not_connected : exn :=
  Exn DatabaseError "Database not connected. Call connect() first.".

(** The world after one round trip to the songs collection. *)
Definition after_songs_call (w : world) : world :=
  set_songs_faults (next_fault (songs_faults w)).2 w.

(** The fault the next round trip to the songs collection meets. *)
Definition pending_songs_fault (w : world) : option fault :=
  (next_fault (songs_faults w)).1.

(** A world with one track of alice's, stored at time 1000, read at time
    2000, and a connected session. *)
Definition alice_doc : document :=
  <["_id" := VOid (Oid 1)]> (Song.to_dict song_1).

Definition world_alice : world :=
  World [alice_doc] [] true 2000 2 [] [] [].

Definition id_1 : string := "000000000000000000000001".
Definition id_2 : string := "000000000000000000000002".

(** The record read back from [alice_doc]. *)
Definition song_1_stored : Song.t :=
  Song.mk "Song 1" "Artist" "alice" None None None 1000 1000 (Some (Oid 1)).


(** Records in the order of a descending [createdAt]. *)
Definition newest_first (s1 s2 : Song.t) : Prop :=
  Song.created_at s2 <= Song.created_at s1.

(** The document reads back as the record, with its stored creation
    time. *)
Definition reads_as (now : Z) (d : document) (s : Song.t) : Prop :=
  Song.from_dict now d = Ok s /\
  d !! "created_at" = Some (VTime (Song.created_at s)).

(** A second track, bob's, stored later. *)
Definition bob_doc : document :=
  Song.to_dict (Song.mk "Tune" "Band" "bob" None None None 1500 1500 (Some (Oid 2))).

Definition world_two : world :=
  World [alice_doc; bob_doc] [] true 2000 3 [] [] [].

(** The fault the next connection attempt meets. *)
Definition pending_connect_fault (w : world) : option fault :=
  (next_fault (connect_faults w)).1.

(** The world in which the body of a [with DatabaseManager()] block starts
    once [connect] has succeeded. *)
Definition session (w : world) : world :=
  World (songs w) (history w) true (clock w) (oid_counter w)
        (next_fault (connect_faults w)).2 (songs_faults w) (history_faults w).

(** The world a failed connection attempt leaves. *)
Definition no_session (w : world) : world :=
  World (songs w) (history w) false (clock w) (oid_counter w)
        (next_fault (connect_faults w)).2 (songs_faults w) (history_faults w).

(** What [connect] raises for a fault of the driver. *)
Definition connect_error (f : fault) : exn :=
  match fault_is f with
  | connection_failure | server_selection_timeout =>
      Exn DatabaseError ("Database connection failed: " +:+ fault_msg f)
  | _ => Exn DatabaseError ("Unexpected database error: " +:+ fault_msg f)
  end.

(** The fault the next round trip to the history collection meets. *)
Definition pending_history_fault (w : world) : option fault :=
  (next_fault (history_faults w)).1.

(** Everything but the audit trail (the history collection, its faults
    and the identifier generator) is the same in both worlds. *)
Definition same_but_audit (w w' : world) : Prop :=
  songs w' = songs w /\ connected w' = connected w /\ clock w' = clock w /\
  connect_faults w' = connect_faults w /\ songs_faults w' = songs_faults w.

(** The document of the audit entry an action leaves, before the store
    has given it an identifier. *)
Definition audit_doc (username action title artist : string) (time : Z) : document :=
  HistoryEntry.to_dict (HistoryEntry.mk username action title artist time None).


(** Every exception the computation can raise has a class in [P]. *)
Definition raises_only {A} (c : M A) (P : exn_class -> Prop) : Prop :=
  forall w e, (c w).1 = Raise e -> P (exn_cls e).


Definition is_DatabaseError (c : exn_class) : Prop := c = DatabaseError.

(** A session that cannot be opened. *)
Definition world_offline : world :=
  World [alice_doc] [] false 2000 2
        [Some (Fault connection_failure "connection refused")] [] [].

(** A disconnected process facing the store that holds alice's track. *)
Definition world_idle : world :=
  World [alice_doc] [] false 2000 2 [] [] [].

(** * Further vocabulary *)

(** The entry [HistoryEntry.to_dict] writes down: the four texts
    trimmed. *)
Definition entry_stored_form (e : HistoryEntry.t) : HistoryEntry.t :=
  HistoryEntry.mk (strip (HistoryEntry.username e)) (strip (HistoryEntry.action e))
                  (strip (HistoryEntry.song_title e)) (strip (HistoryEntry.song_artist e))
                  (HistoryEntry.timestamp e) (HistoryEntry.id e).

(** The record with the identifier the store has given it. *)
Definition with_id (o : ObjectId) (s : Song.t) : Song.t :=
  Song.mk (Song.title s) (Song.artist s) (Song.username s) (Song.genre s)
          (Song.year s) (Song.duration s) (Song.created_at s) (Song.updated_at s)
          (Some o).

(** The identifiers of a collection, document by document. *)
Definition ids (coll : list document) : list (option value) :=
  (fun d : document => d !! "_id") <$> coll.

(** Every document has an identifier of its own. *)
Definition unique_ids (coll : list document) : Prop := NoDup (ids coll).

(** A session in which the next round trip to the songs collection meets
    no fault. *)
Definition ready (w : world) : Prop :=
  connected w = true /\ pending_songs_fault w = None.

(** An entry of an unknown kind. *)
Definition entry_shared : HistoryEntry.t :=
  HistoryEntry.mk " alice " "shared" " Song 1" "" 1000 None.

(** The record an update leaves in the store, read back: the new texts
    trimmed; a genre that is absent or empty in the updated record keeps
    the stored one. *)
Definition merged_form (old new : Song.t) : Song.t :=
  Song.mk (strip (Song.title new)) (strip (Song.artist new)) (strip (Song.username new))
          (if truthy_opt (Song.genre new) then strip <$> Song.genre new
           else Song.genre old)
          (Song.year new) (Song.duration new)
          (Song.created_at new) (Song.updated_at new) (Song.id new).

(** The arguments that assign: a value other than None under the name
    of a field. *)
Definition assigns (kw : Song.kwarg) : bool :=
  match kw with
  | Song.kw_other _ _ => false
  | _ => Song.kw_is_set kw
  end.

(** How [add_song] of the repository re-raises what its body raised. *)
Definition wrap_add (e : exn) : exn :=
  match exn_cls e with
  | DuplicateKeyError => Exn DatabaseError ("Song already exists: " +:+ str e)
  | _ => Exn DatabaseError ("Failed to add song: " +:+ str e)
  end.

(** The identifier a record is stored under: its own, or the next one the
    driver generates. *)
Definition id_for (s : Song.t) (w : world) : ObjectId :=
  match Song.id s with
  | Some o => o
  | None => Oid (oid_counter w)
  end.

Definition has_id (o : ObjectId) (d : document) : bool :=
  bool_decide (d !! "_id" = Some (VOid o)).

(** A store with a second track under alice, and a session on it. *)
Definition song_2 : Song.t :=
  Song.mk " Song 2 " "Artist" "alice" (Some "Rock") (Some 1999) None 2000 2000 None.

(** Every optional field the first record has, the second has too. *)
Definition keeps_fields (old new : Song.t) : Prop :=
  (is_Some (Song.genre old) -> is_Some (Song.genre new)) /\
  (is_Some (Song.year old) -> is_Some (Song.year new)) /\
  (is_Some (Song.duration old) -> is_Some (Song.duration new)) /\
  (is_Some (Song.id old) -> is_Some (Song.id new)).

(** Every document of the collection can be read as a record. *)
Definition readable (coll : list document) : Prop :=
  forall d now, d ∈ coll -> is_ok (Song.from_dict now d) = true.

(** A store with two tracks of alice's. *)
Definition rock_doc : document :=
  Song.to_dict (Song.mk "Song 2" "Artist" "alice" (Some "Rock") (Some 1999) None
                        1500 1500 (Some (Oid 2))).

Definition world_rock : world :=
  World [alice_doc; rock_doc] [] true 2000 3 [] [] [].

(** The filter document of a listing by owner. *)
Definition by_user (username : string) : document :=
  <["username" := VStr username]> ∅.

(** Entries in the order of a descending timestamp. *)
Definition latest_first (e1 e2 : HistoryEntry.t) : Prop :=
  HistoryEntry.timestamp e2 <= HistoryEntry.timestamp e1.

(** A session in which the next round trip to the history collection
    meets no fault. *)
Definition history_ready (w : world) : Prop :=
  connected w = true /\ pending_history_fault w = None.

(** A store with tracks of two owners and an audit trail. *)
Definition world_shared : world :=
  World [alice_doc; bob_doc; rock_doc]
        [<["_id" := VOid (Oid 10)]> (audit_doc "alice" "added" "Song 1" "Artist" 1000);
         <["_id" := VOid (Oid 11)]> (audit_doc "bob" "added" "Tune" "Band" 1500);
         <["_id" := VOid (Oid 12)]> (audit_doc "alice" "viewed" "Song 1" "Artist" 1800)]
        true 2000 13 [] [] [].

(** A matcher standing for the server's: case-sensitive containment of
    the pattern taken literally. *)
Fixpoint contains (pattern text : string) : bool :=
  String.prefix pattern text ||
  match text with
  | EmptyString => false
  | String _ rest => contains pattern rest
  end.

(** The document of an audit entry as the history collection holds it. *)
Definition audit_entry (o : ObjectId) (username action title artist : string) (time : Z)
  : document :=
  <["_id" := VOid o]> (audit_doc username action title artist time).

(** Both collections are the same in the two worlds. *)
Definition same_store (w w' : world) : Prop :=
  songs w' = songs w /\ history w' = history w.

(** ** Vocabulary of the command handlers *)

(** An error message, as [MessageFormatter.error] writes it. *)
Definition error_message (s : string) : bool := String.prefix "❌ " s.

(** A handler that reports: whatever the state of the world and of the
    database, it returns an exit code, 0 or 1, having printed at least one
    item after what was on the output, and the code is 1 exactly when the
    last item printed is an error message. *)
Definition reports (handler : C Z) : Prop :=
  forall out w, exists code printed final w',
    handler out w = (Ok code, (out ++ printed ++ [final])%list, w') /\
    (code = 0 \/ code = 1) /\
    (code = 1 <-> error_message final = true).

(** The answers [handle_delete] takes for a yes. *)
Definition confirms (response : string) : bool :=
  String.eqb (lower response) "y" || String.eqb (lower response) "yes".

(** The question [handle_delete] asks about a record. *)
Definition delete_prompt (s : Song.t) : string :=
  "Are you sure you want to delete '" +:+ Song.title s +:+ "' by " +:+ Song.artist s
  +:+ "? (y/N): ".

(** The exit code of a handler's run. *)
Definition exit_code {A} (run : result A * list string * world) : result A := run.1.1.

(** What a handler's run has written. *)
Definition stdout {A} (run : result A * list string * world) : list string := run.1.2.

(** A keyword argument that sets one of the five editable fields to a
    text that is not empty or to a number that is not zero. *)
Definition sets_value (kw : Song.kwarg) : bool :=
  match kw with
  | Song.kw_title v | Song.kw_artist v | Song.kw_genre v => truthy_opt v
  | Song.kw_year v | Song.kw_duration v => truthy_int v
  | _ => false
  end.

(** None of the options of an update carries a value: each is absent, an
    empty text or zero. *)
Definition no_option (args : SongsCLI.update_args) : Prop :=
  truthy_opt (SongsCLI.update_title args) = false /\
  truthy_opt (SongsCLI.update_artist args) = false /\
  truthy_opt (SongsCLI.update_genre args) = false /\
  truthy_int (SongsCLI.update_year args) = false /\
  truthy_int (SongsCLI.update_duration args) = false.

(** ** Vocabulary of the formatters *)

(** [P] holds for the [count] numbers from [n] on. *)
Fixpoint holds_from (count : nat) (n : Z) (P : Z -> bool) : bool :=
  match count with
  | O => true
  | S count' => P n && holds_from count' (n + 1) P
  end.
(** * Properties *)

(** ** Strings *)

Lemma truthy_true (s : string) : truthy s = true <-> s <> "".
Proof. destruct s; simpl; split; congruence. Qed.

Lemma lstrip_head (s : string) c r : lstrip s = String c r -> isspace c = false.
Proof.
  induction s as [|a s IH]; simpl; [discriminate|].
  destruct (isspace a) eqn:Ha; [exact IH|].
  intros [= <- _]. exact Ha.
Qed.

Lemma rstrip_head c r : isspace c = false -> exists r', rstrip (String c r) = String c r'.
Proof.
  intros Hc. simpl. destruct (rstrip r); rewrite ?Hc; eauto.
Qed.

Lemma rstrip_idem (s : string) : rstrip (rstrip s) = rstrip s.
Proof.
  induction s as [|c s IH]; [reflexivity|].
  simpl. destruct (rstrip s) as [|c2 r2] eqn:Hr.
  - destruct (isspace c) eqn:Hc; simpl; rewrite ?Hc; reflexivity.
  - change (rstrip (String c (String c2 r2)))
      with (match rstrip (String c2 r2) with
            | EmptyString => if isspace c then EmptyString else String c EmptyString
            | r => String c r
            end).
    rewrite IH. reflexivity.
Qed.

Lemma strip_idem (s : string) : strip (strip s) = strip s.
Proof.
  unfold strip. destruct (lstrip s) as [|c r] eqn:Hl; [reflexivity|].
  pose proof (lstrip_head _ _ _ Hl) as Hc.
  destruct (rstrip_head c r Hc) as [r' Hr].
  rewrite Hr. simpl lstrip. rewrite Hc, <- Hr. apply rstrip_idem.
Qed.

Lemma strip_empty : strip "" = "".
Proof. reflexivity. Qed.

(** The test [not s or not s.strip()] of the validators. *)
Lemma blank_test (s : string) :
  negb (truthy s) || negb (truthy (strip s)) = false <-> strip s <> "".
Proof.
  rewrite orb_false_iff, !negb_false_iff, !truthy_true.
  split; [tauto|]. intros H. split; [|exact H].
  intros ->. apply H. reflexivity.
Qed.

Lemma blank_test_true (s : string) :
  negb (truthy s) || negb (truthy (strip s)) = true <-> strip s = "".
Proof.
  destruct (negb (truthy s) || negb (truthy (strip s))) eqn:E.
  - split; [|done]. intros _.
    destruct (decide (strip s = "")) as [|Hn]; [done|].
    apply blank_test in Hn. congruence.
  - apply blank_test in E. split; [done|]. intros; contradiction.
Qed.

(** ** Record model *)

Lemma validate_ok_iff (s : Song.t) :
  Song._validate s = Ok tt <-> checked_invariants s.
Proof.
  unfold Song._validate, checked_invariants.
  destruct (negb (truthy (Song.title s)) || _) eqn:Ht.
  { apply blank_test_true in Ht. split; [discriminate|]. intros (H & _); contradiction. }
  destruct (negb (truthy (Song.artist s)) || _) eqn:Ha.
  { apply blank_test_true in Ha. split; [discriminate|]. intros (_ & H & _); contradiction. }
  destruct (negb (truthy (Song.username s)) || _) eqn:Hu.
  { apply blank_test_true in Hu. split; [discriminate|]. intros (_ & _ & H & _); contradiction. }
  apply blank_test in Ht, Ha, Hu.
  destruct (Song.year s) as [y|] eqn:Hy.
  - destruct ((y <? 1000) || (3000 <? y)) eqn:Ey.
    { split; [discriminate|]. intros (_ & _ & _ & H & _).
      specialize (H y eq_refl). apply orb_true_iff in Ey. lia. }
    apply orb_false_iff in Ey.
    destruct (Song.duration s) as [n|] eqn:Hn.
    + destruct (n <? 0) eqn:En.
      { split; [discriminate|]. intros (_ & _ & _ & _ & H).
        specialize (H n eq_refl). lia. }
      split; [|done]. intros _. split_and!; try done.
      all: intros ? [= <-]; lia.
    + split; [|done]. intros _. split_and!; try done.
      intros ? [= <-]; lia.
  - destruct (Song.duration s) as [n|] eqn:Hn.
    + destruct (n <? 0) eqn:En.
      { split; [discriminate|]. intros (_ & _ & _ & _ & H).
        specialize (H n eq_refl). lia. }
      split; [|done]. intros _. split_and!; try done.
      intros ? [= <-]; lia.
    + split; [|done]. intros _. split_and!; done.
Qed.

Lemma validate_raises_ValueError (s : Song.t) e :
  Song._validate s = Raise e -> exn_cls e = ValueError.
Proof.
  unfold Song._validate.
  repeat match goal with
         | |- context [if ?b then _ else _] => destruct b
         end; intros [= <-]; reflexivity.
Qed.

Lemma new_ok_iff (s : Song.t) : Song.new s = Ok s <-> Song._validate s = Ok tt.
Proof.
  unfold Song.new. destruct (Song._validate s) as [[]|e]; simpl; split; congruence.
Qed.

(** What [to_dict] stores under each key. *)
Lemma to_dict_lookup (s : Song.t) :
  Song.to_dict s !! "title" = Some (VStr (strip (Song.title s))) /\
  Song.to_dict s !! "artist" = Some (VStr (strip (Song.artist s))) /\
  Song.to_dict s !! "username" = Some (VStr (strip (Song.username s))) /\
  Song.to_dict s !! "genre" =
    (if truthy_opt (Song.genre s) then VStr ∘ strip <$> Song.genre s else None) /\
  Song.to_dict s !! "year" = (VInt <$> Song.year s) /\
  Song.to_dict s !! "duration" = (VInt <$> Song.duration s) /\
  Song.to_dict s !! "created_at" = Some (VTime (Song.created_at s)) /\
  Song.to_dict s !! "updated_at" = Some (VTime (Song.updated_at s)) /\
  Song.to_dict s !! "_id" = (VOid <$> Song.id s).
Proof.
  destruct s as [t a u g y d c up i]. unfold Song.to_dict, set_opt; simpl.
  destruct g as [g|]; simpl; [destruct (truthy g)|];
    destruct y, d, i; simpl; split_and!; by simplify_map_eq.
Qed.

Lemma validate_stored_form (s : Song.t) :
  Song._validate s = Ok tt -> Song._validate (stored_form s) = Ok tt.
Proof.
  rewrite !validate_ok_iff. unfold checked_invariants, stored_form; simpl.
  rewrite !strip_idem. tauto.
Qed.

Lemma stored_form_trimmed (s : Song.t) : trimmed s -> stored_form s = s.
Proof.
  intros (Ht & Ha & Hu & Hg). destruct s as [t a u g y d c up i]; simpl in *.
  unfold stored_form; simpl. rewrite Ht, Ha, Hu. f_equal.
  destruct g as [g|]; [|reflexivity]. simpl.
  destruct (Hg g eq_refl) as [Hne ->].
  apply truthy_true in Hne. by rewrite Hne.
Qed.

Lemma from_dict_to_dict (now : Z) (s : Song.t) :
  Song.from_dict now (Song.to_dict s) = Song.new (stored_form s).
Proof.
  destruct (to_dict_lookup s) as (Ht & Ha & Hu & Hg & Hy & Hd & Hc & Hup & Hi).
  unfold Song.from_dict, get_str, get_int, get_time, get_oid.
  rewrite Ht, Ha, Hu, Hg, Hy, Hd, Hc, Hup, Hi. simpl.
  unfold stored_form.
  destruct (Song.genre s) as [g|]; simpl; [destruct (truthy g); simpl|];
    destruct (Song.year s), (Song.duration s), (Song.id s); reflexivity.
Qed.

(** C6, as amended.  Serialising a valid record and reading the document
    back yields the record in its stored form: title, artist, owner and
    genre trimmed and an empty genre dropped, every other field (the
    identifier included) as it was.  The result is the original record
    itself when its texts are already trimmed.  An absent optional field
    has no key in the document. *)
Theorem C6_roundtrip_stored_form (now : Z) (s : Song.t) :
  Song._validate s = Ok tt ->
  Song.from_dict now (Song.to_dict s) = Ok (stored_form s) /\
  (trimmed s -> Song.from_dict now (Song.to_dict s) = Ok s) /\
  (Song.genre s = None -> Song.to_dict s !! "genre" = None) /\
  (Song.year s = None -> Song.to_dict s !! "year" = None) /\
  (Song.duration s = None -> Song.to_dict s !! "duration" = None) /\
  (Song.id s = None -> Song.to_dict s !! "_id" = None).
Proof.
  intros Hv.
  assert (Hrt : Song.from_dict now (Song.to_dict s) = Ok (stored_form s)).
  { rewrite from_dict_to_dict. apply new_ok_iff. by apply validate_stored_form. }
  destruct (to_dict_lookup s) as (_ & _ & _ & Hg & Hy & Hd & _ & _ & Hi).
  split_and!.
  - exact Hrt.
  - intros Htr. rewrite Hrt. f_equal. by apply stored_form_trimmed.
  - intros E. by rewrite Hg, E.
  - intros E. by rewrite Hy, E.
  - intros E. by rewrite Hd, E.
  - intros E. by rewrite Hi, E.
Qed.

Lemma C6_roundtrip_stored_form_witness :
  Song.from_dict 0 (Song.to_dict song_padded) = Ok (stored_form song_padded) /\
  Song.from_dict 0 (Song.to_dict song_full) = Ok song_full.
Proof.
  split.
  - apply (C6_roundtrip_stored_form 0 song_padded). reflexivity.
  - apply (C6_roundtrip_stored_form 0 song_full); [reflexivity|].
    unfold trimmed; simpl. split_and!; try reflexivity.
    intros g [= <-]. split; [discriminate|reflexivity].
Defined.

(** C6 as stated fails: a valid record whose title starts with a space
    does not come back equal from the document form. *)
Lemma C6_roundtrip_counterexample :
  Song._validate song_padded = Ok tt /\
  Song.from_dict 0 (Song.to_dict song_padded) <> Ok song_padded /\
  Song.from_dict 0 (Song.to_dict song_padded) = Ok song_1.
Proof.
  split; [reflexivity|].
  assert (E : Song.from_dict 0 (Song.to_dict song_padded) = Ok song_1)
    by (vm_compute; reflexivity).
  split; [|exact E]. rewrite E. intros [=].
Qed.

(** C7, as amended.  Construction succeeds exactly when title, artist and
    owner are non-empty after trimming, the year (if any) lies in
    [1000, 3000] and the duration (if any) is not negative; otherwise it
    raises a ValueError.  The two timestamps are not compared. *)
Theorem C7_construction_checks (s : Song.t) :
  (Song.new s = Ok s <-> checked_invariants s) /\
  (~ checked_invariants s ->
   exists msg, Song.new s = Raise (Exn ValueError msg)).
Proof.
  split.
  - rewrite new_ok_iff. apply validate_ok_iff.
  - intros Hn. unfold Song.new.
    destruct (Song._validate s) as [[]|[c msg]] eqn:E.
    + exfalso. apply Hn. by apply validate_ok_iff.
    + apply validate_raises_ValueError in E as Hc. simpl in Hc. subst c.
      exists msg. reflexivity.
Qed.

Lemma C7_construction_checks_witness :
  Song.new song_full = Ok song_full /\
  exists msg, Song.new (Song.mk "  " "Artist" "alice" None None None 0 0 None)
              = Raise (Exn ValueError msg).
Proof.
  split.
  - apply (C7_construction_checks song_full).
    unfold checked_invariants; simpl. split_and!; try discriminate.
    + intros y [= <-]. lia.
    + intros n [= <-]. lia.
  - apply (C7_construction_checks (Song.mk "  " "Artist" "alice" None None None 0 0 None)).
    intros (H & _). apply H. reflexivity.
Defined.

(** C7 as stated fails: a record whose updatedAt is earlier than its
    createdAt is constructed without error. *)
Lemma C7_construction_counterexample :
  Song.updated_at song_backdated < Song.created_at song_backdated /\
  Song.new song_backdated = Ok song_backdated.
Proof. split; [simpl; lia | reflexivity]. Qed.

(** [update_fields] leaves the object with every assignment applied and
    the timestamp refreshed, whatever validation says afterwards. *)
Lemma update_fields_object (kwargs : list Song.kwarg) (now : Z) (self : Song.t) :
  (Song.update_fields kwargs now self).1
  = Song.set_updated_at now (foldl Song.setattr self kwargs).
Proof. reflexivity. Qed.

Lemma update_fields_outcome (kwargs : list Song.kwarg) (now : Z) (self : Song.t) :
  (Song.update_fields kwargs now self).2
  = Song._validate (Song.set_updated_at now (foldl Song.setattr self kwargs)).
Proof. reflexivity. Qed.

(** ** Repository: the equations of the by-id operations *)

Lemma songs_call_eq (w : world) :
  songs_call w =
  (match pending_songs_fault w with
   | Some f => Raise (exn_of_fault f)
   | None => Ok tt
   end,
   after_songs_call w).
Proof.
  unfold songs_call, pending_songs_fault, after_songs_call.
  destruct (next_fault (songs_faults w)) as [[f|] plan]; reflexivity.
Qed.

Lemma get_song_by_id_eq (u song_id : string) (w : world) :
  SongsDatabase.get_song_by_id u song_id w =
  if connected w then
    match ObjectId_of_str song_id with
    | None => (Raise (Exn DatabaseError ("Invalid song ID format: " +:+ song_id)), w)
    | Some o =>
        match pending_songs_fault w with
        | Some f => (Raise (wrap_by_id "get" song_id (exn_of_fault f)), after_songs_call w)
        | None =>
            match List.find (matches (by_id_and_user o u)) (songs w) with
            | None => (Ok None, after_songs_call w)
            | Some d =>
                match Song.from_dict (clock w) d with
                | Ok s => (Ok (Some s), after_songs_call w)
                | Raise e => (Raise (wrap_by_id "get" song_id e), after_songs_call w)
                end
            end
        end
    end
  else (Raise not_connected, w).
Proof.
  unfold SongsDatabase.get_song_by_id, SongsDatabase._ensure_connected,
    SongsDatabase.ObjectId_, SongsDatabase.find_one_songs, bind, try_except.
  destruct (connected w); [|reflexivity].
  destruct (ObjectId_of_str song_id) as [o|]; [|reflexivity].
  unfold ret at 1. rewrite songs_call_eq.
  destruct (pending_songs_fault w) as [[[] msg]|]; [reflexivity..|].
  simpl. destruct (List.find _ _) as [d|]; [|reflexivity].
  unfold now, lift, bind, ret, raise; simpl.
  destruct (Song.from_dict _ d) as [s|e]; [reflexivity|].
  unfold wrap_by_id. destruct (exn_cls e); reflexivity.
Qed.
Lemma update_song_eq (u song_id : string) (kw : list Song.kwarg) (w : world) :
  SongsDatabase.update_song u song_id kw w =
  if connected w then
    match SongsDatabase.get_song_by_id u song_id w with
    | (Raise e, w1) => (Raise (wrap_by_id "update" song_id e), w1)
    | (Ok None, w1) => (Ok false, w1)
    | (Ok (Some song), w1) =>
        match (Song.update_fields kw (clock w1) song).2 with
        | Raise e => (Raise (wrap_by_id "update" song_id e), w1)
        | Ok _ =>
            match ObjectId_of_str song_id with
            | None =>
                (Raise (Exn DatabaseError ("Invalid song ID format: " +:+ song_id)), w1)
            | Some o =>
                match pending_songs_fault w1 with
                | Some f =>
                    (Raise (wrap_by_id "update" song_id (exn_of_fault f)),
                     after_songs_call w1)
                | None =>
                    match update_first (by_id_and_user o u)
                            (Song.to_dict (Song.update_fields kw (clock w1) song).1)
                            (songs w1) with
                    | Ok (coll, n) =>
                        (Ok (0 <? n)%nat, set_songs coll (after_songs_call w1))
                    | Raise e =>
                        (Raise (wrap_by_id "update" song_id e), after_songs_call w1)
                    end
                end
            end
        end
    end
  else (Raise not_connected, w).
Proof.
  unfold SongsDatabase.update_song, SongsDatabase._ensure_connected.
  unfold bind at 1. destruct (connected w); [|reflexivity].
  unfold try_except, bind at 1.
  destruct (SongsDatabase.get_song_by_id u song_id w) as [[[song|]|e] w1];
    [| reflexivity | unfold wrap_by_id, raise; destruct (exn_cls e); reflexivity].
  unfold now, bind at 1.
  destruct (Song.update_fields kw (clock w1) song) as [song' [[]|e]] eqn:Euf; simpl.
  2:{ unfold lift, bind, wrap_by_id, raise; simpl. destruct (exn_cls e); reflexivity. }
  unfold lift, bind, SongsDatabase.ObjectId_, SongsDatabase.update_one_songs; simpl.
  destruct (ObjectId_of_str song_id) as [o|]; [|reflexivity].
  unfold ret at 1. unfold bind. rewrite songs_call_eq.
  destruct (pending_songs_fault w1) as [[[] msg]|]; [reflexivity..|].
  change (songs (after_songs_call w1)) with (songs w1).
  destruct (update_first _ _ (songs w1)) as [[coll n]|e]; [reflexivity|].
  unfold wrap_by_id, raise. destruct (exn_cls e); reflexivity.
Qed.

Lemma delete_song_eq (u song_id : string) (w : world) :
  SongsDatabase.delete_song u song_id w =
  if connected w then
    match SongsDatabase.get_song_by_id u song_id w with
    | (Raise e, w1) => (Raise (wrap_by_id "delete" song_id e), w1)
    | (Ok None, w1) => (Ok None, w1)
    | (Ok (Some song), w1) =>
        match ObjectId_of_str song_id with
        | None =>
            (Raise (Exn DatabaseError ("Invalid song ID format: " +:+ song_id)), w1)
        | Some o =>
            match pending_songs_fault w1 with
            | Some f =>
                (Raise (wrap_by_id "delete" song_id (exn_of_fault f)),
                 after_songs_call w1)
            | None =>
                let r := delete_first (by_id_and_user o u) (songs w1) in
                (Ok (if (0 <? r.2)%nat then Some song else None),
                 set_songs r.1 (after_songs_call w1))
            end
        end
    end
  else (Raise not_connected, w).
Proof.
  unfold SongsDatabase.delete_song, SongsDatabase._ensure_connected.
  unfold bind at 1. destruct (connected w); [|reflexivity].
  unfold try_except, bind at 1.
  destruct (SongsDatabase.get_song_by_id u song_id w) as [[[song|]|e] w1];
    [| reflexivity | unfold wrap_by_id, raise; destruct (exn_cls e); reflexivity].
  unfold bind, SongsDatabase.ObjectId_, SongsDatabase.delete_one_songs; simpl.
  destruct (ObjectId_of_str song_id) as [o|]; [|reflexivity].
  unfold ret at 1. unfold bind. rewrite songs_call_eq.
  destruct (pending_songs_fault w1) as [[[] msg]|]; [reflexivity..|].
  change (songs (after_songs_call w1)) with (songs w1).
  destruct (delete_first _ (songs w1)) as [coll n]; simpl.
  destruct (0 <? n)%nat; reflexivity.
Qed.
Lemma matches_by_id_and_user (o : ObjectId) (u : string) (d : document) :
  matches (by_id_and_user o u) d = true <->
  d !! "_id" = Some (VOid o) /\ d !! "username" = Some (VStr u).
Proof.
  unfold matches, by_id_and_user. rewrite bool_decide_eq_true.
  rewrite map_Forall_insert by (by simplify_map_eq).
  rewrite map_Forall_insert by (by simplify_map_eq).
  split.
  - intros (Hu & Hi & _). done.
  - intros (Hi & Hu). split_and!; try done; apply map_Forall_empty.
Qed.

Lemma matches_empty (d : document) : matches ∅ d = true.
Proof. unfold matches. apply bool_decide_eq_true. apply map_Forall_empty. Qed.

Lemma find_none_iff {A} (f : A -> bool) (l : list A) :
  List.find f l = None <-> (forall x, x ∈ l -> f x = false).
Proof.
  induction l as [|a l IH]; simpl.
  - split; [|done]. intros _ x Hx. by apply elem_of_nil in Hx.
  - destruct (f a) eqn:Ha.
    + split; [discriminate|]. intros H. specialize (H a (list_elem_of_here _ _)). congruence.
    + rewrite IH. split.
      * intros H x Hx. apply elem_of_cons in Hx as [->|Hx]; auto.
      * intros H x Hx. apply H. by apply elem_of_cons; right.
Qed.

(** No document with the given identifier belongs to [u]. *)
Lemma find_foreign (o : ObjectId) (u : string) (coll : list document) :
  (forall d, d ∈ coll -> d !! "_id" = Some (VOid o) -> d !! "username" <> Some (VStr u)) ->
  List.find (matches (by_id_and_user o u)) coll = None.
Proof.
  intros H. apply find_none_iff. intros d Hd.
  destruct (matches (by_id_and_user o u) d) eqn:E; [|done].
  apply matches_by_id_and_user in E as [Hi Hu]. by destruct (H d Hd Hi).
Qed.

Lemma songs_after_songs_call (w : world) : songs (after_songs_call w) = songs w.
Proof. reflexivity. Qed.

(** Reading by identifier never changes the songs collection. *)
Lemma get_song_by_id_songs (u song_id : string) (w : world) :
  songs (SongsDatabase.get_song_by_id u song_id w).2 = songs w.
Proof.
  rewrite get_song_by_id_eq.
  repeat match goal with
         | |- context [match ?x with _ => _ end] => destruct x
         | |- context [if ?x then _ else _] => destruct x
         end; reflexivity.
Qed.





(** ** Repository: owner isolation, identifier errors, failed updates *)

(** C3.  A record persisted under owner B is invisible to another owner
    A: reading it and deleting it by identifier behave, in every world,
    exactly as for an identifier no document carries; without a fault both
    return absent, and the delete attempt leaves the songs collection as
    it was. *)
Theorem C3_owner_isolation (A B song_id other_id : string) (o o' : ObjectId) (w : world) :
  A <> B ->
  ObjectId_of_str song_id = Some o ->
  ObjectId_of_str other_id = Some o' ->
  (exists d, d ∈ songs w /\ d !! "_id" = Some (VOid o)) ->
  (forall d, d ∈ songs w -> d !! "_id" = Some (VOid o) ->
             d !! "username" = Some (VStr B)) ->
  (forall d, d ∈ songs w -> d !! "_id" <> Some (VOid o')) ->
  SongsDatabase.get_song_by_id A song_id w = SongsDatabase.get_song_by_id A other_id w /\
  SongsDatabase.delete_song A song_id w = SongsDatabase.delete_song A other_id w /\
  (connected w = true -> pending_songs_fault w = None ->
   (SongsDatabase.get_song_by_id A song_id w).1 = Ok None /\
   (SongsDatabase.delete_song A song_id w).1 = Ok None) /\
  songs (SongsDatabase.delete_song A song_id w).2 = songs w.
Proof.
  intros HAB Ho Ho' _ Hown Habsent.
  assert (Hf : List.find (matches (by_id_and_user o A)) (songs w) = None).
  { apply find_foreign. intros d Hd Hi Hu. rewrite (Hown d Hd Hi) in Hu.
    injection Hu as ->. by apply HAB. }
  assert (Hf' : List.find (matches (by_id_and_user o' A)) (songs w) = None).
  { apply find_foreign. intros d Hd Hi. by destruct (Habsent d Hd). }
  assert (Hget : SongsDatabase.get_song_by_id A song_id w
                 = SongsDatabase.get_song_by_id A other_id w).
  { rewrite !get_song_by_id_eq, Ho, Ho', Hf, Hf'.
    destruct (connected w); [|reflexivity].
    destruct (pending_songs_fault w) as [[[] msg]|]; reflexivity. }
  assert (Hdel : SongsDatabase.delete_song A song_id w
                 = SongsDatabase.delete_song A other_id w).
  { rewrite !delete_song_eq, <- Hget.
    rewrite get_song_by_id_eq, Ho, Hf.
    destruct (connected w); [|reflexivity].
    destruct (pending_songs_fault w) as [[[] msg]|]; reflexivity. }
  split_and!; try done.
  - intros Hc Hp. rewrite delete_song_eq, get_song_by_id_eq, Ho, Hf, Hc, Hp. done.
  - rewrite delete_song_eq, get_song_by_id_eq, Ho, Hf.
    destruct (connected w); [|reflexivity].
    destruct (pending_songs_fault w); reflexivity.
Qed.

Lemma C3_owner_isolation_witness :
  SongsDatabase.get_song_by_id "bob" id_1 world_alice
    = SongsDatabase.get_song_by_id "bob" id_2 world_alice /\
  (SongsDatabase.get_song_by_id "bob" id_1 world_alice).1 = Ok None /\
  (SongsDatabase.delete_song "bob" id_1 world_alice).1 = Ok None /\
  songs (SongsDatabase.delete_song "bob" id_1 world_alice).2 = [alice_doc].
Proof.
  destruct (C3_owner_isolation "bob" "alice" id_1 id_2 (Oid 1) (Oid 2) world_alice)
    as (Hget & _ & Habsent & Hsongs).
  - discriminate.
  - reflexivity.
  - reflexivity.
  - exists alice_doc. split; [apply list_elem_of_here | reflexivity].
  - intros d Hd _. apply list_elem_of_singleton in Hd. subst d. reflexivity.
  - intros d Hd. apply list_elem_of_singleton in Hd. subst d. vm_compute. discriminate.
  - destruct Habsent as [Hg Hd]; [reflexivity..|]. split_and!; assumption.
Defined.



Lemma get_song_by_id_clock (u song_id : string) (w : world) :
  clock (SongsDatabase.get_song_by_id u song_id w).2 = clock w.
Proof.
  rewrite get_song_by_id_eq.
  repeat match goal with
         | |- context [match ?x with _ => _ end] => destruct x
         | |- context [if ?x then _ else _] => destruct x
         end; reflexivity.
Qed.

Lemma get_song_by_id_ok_connected (u song_id : string) (w w1 : world) r :
  SongsDatabase.get_song_by_id u song_id w = (Ok r, w1) -> connected w = true.
Proof.
  rewrite get_song_by_id_eq. destruct (connected w); [done|discriminate].
Qed.

(** C1, as amended.  When the assignments violate a validated invariant,
    the field update raises a ValueError after it has assigned: the
    record in memory carries every assigned field and the refreshed
    updatedAt, nothing is rolled back.  The repository update that
    performs it on the record it has just loaded fails before any write,
    with a DatabaseError, and the songs collection is as it was. *)
Theorem C1_failed_update_fields
    (kwargs : list Song.kwarg) (now : Z) (self : Song.t) (e : exn) :
  (Song.update_fields kwargs now self).2 = Raise e ->
  exn_cls e = ValueError /\
  (Song.update_fields kwargs now self).1
    = Song.set_updated_at now (foldl Song.setattr self kwargs) /\
  (forall u song_id w w1,
     SongsDatabase.get_song_by_id u song_id w = (Ok (Some self), w1) ->
     clock w = now ->
     SongsDatabase.update_song u song_id kwargs w
       = (Raise (Exn DatabaseError ("Failed to update song: " +:+ str e)), w1) /\
     songs w1 = songs w).
Proof.
  intros Hfail.
  assert (Hcls : exn_cls e = ValueError).
  { rewrite update_fields_outcome in Hfail. by eapply validate_raises_ValueError. }
  split_and!; [exact Hcls | reflexivity |].
  intros u song_id w w1 Hget Hclock.
  pose proof (get_song_by_id_clock u song_id w) as Hc1.
  pose proof (get_song_by_id_songs u song_id w) as Hs1.
  pose proof (get_song_by_id_ok_connected _ _ _ _ _ Hget) as Hconn.
  rewrite Hget in Hc1, Hs1. simpl in Hc1, Hs1.
  split; [|exact Hs1].
  rewrite update_song_eq, Hconn, Hget, Hc1, Hclock, Hfail.
  unfold wrap_by_id. rewrite Hcls. reflexivity.
Qed.

Lemma C1_failed_update_fields_witness :
  (Song.update_fields [Song.kw_title (Some "New"); Song.kw_year (Some 5000)]
     2000 song_1_stored).1
    = Song.mk "New" "Artist" "alice" None (Some 5000) None 1000 2000 (Some (Oid 1)) /\
  SongsDatabase.update_song "alice" id_1
     [Song.kw_title (Some "New"); Song.kw_year (Some 5000)] world_alice
    = (Raise (Exn DatabaseError
                "Failed to update song: Year must be between 1000 and 3000"),
       world_alice).
Proof.
  destruct (C1_failed_update_fields
              [Song.kw_title (Some "New"); Song.kw_year (Some 5000)] 2000 song_1_stored
              (Exn ValueError "Year must be between 1000 and 3000"))
    as (_ & Hobj & Hrepo); [reflexivity|].
  split; [exact Hobj|].
  apply (Hrepo "alice" id_1 world_alice world_alice); reflexivity.
Defined.

(** C1 as stated fails: after the failed update of a valid record the
    record has the new title, the out-of-range year and a refreshed
    updatedAt. *)
Lemma C1_failed_update_counterexample :
  Song._validate song_1_stored = Ok tt /\
  raised_class
    (Song.update_fields [Song.kw_title (Some "New"); Song.kw_year (Some 5000)]
       2000 song_1_stored).2 = Some ValueError /\
  (Song.update_fields [Song.kw_title (Some "New"); Song.kw_year (Some 5000)]
     2000 song_1_stored).1 <> song_1_stored /\
  Song.title
    (Song.update_fields [Song.kw_title (Some "New"); Song.kw_year (Some 5000)]
       2000 song_1_stored).1 = "New" /\
  Song.updated_at
    (Song.update_fields [Song.kw_title (Some "New"); Song.kw_year (Some 5000)]
       2000 song_1_stored).1 = 2000 /\
  Song.updated_at song_1_stored = 1000.
Proof. split_and!; try reflexivity. vm_compute. discriminate. Qed.

(** ** Repository: what an update reports *)

Lemma from_dict_id (now : Z) (d : document) (s : Song.t) (o : ObjectId) :
  Song.from_dict now d = Ok s -> d !! "_id" = Some (VOid o) -> Song.id s = Some o.
Proof.
  unfold Song.from_dict, get_oid. intros H Hi. rewrite Hi in H. simpl in H.
  destruct (get_str d "title"); [|done].
  destruct (get_str d "artist"); [|done].
  destruct (get_str d "username"); [|done].
  destruct (get_str d "genre"); [|done].
  destruct (get_int d "year"); [|done].
  destruct (get_int d "duration"); [|done].
  destruct (get_time d "created_at"); [|done].
  destruct (get_time d "updated_at"); [|done].
  simpl in H. unfold Song.new in H.
  destruct (Song._validate _); [|done]. simpl in H. injection H as <-. reflexivity.
Qed.

(** [update_one] acts on the document [find_one] returns. *)
Lemma update_first_found (q upd d : document) (coll : list document) :
  List.find (matches q) coll = Some d ->
  (upd ∪ d) !! "_id" = d !! "_id" ->
  exists coll',
    update_first q upd coll
    = Ok (coll', if bool_decide (upd ∪ d = d) then 0%nat else 1%nat).
Proof.
  intros Hf Hid. induction coll as [|x coll IH]; [discriminate|].
  simpl in *. destruct (matches q x).
  - injection Hf as ->. rewrite bool_decide_eq_true_2 by exact Hid.
    destruct (bool_decide (upd ∪ d = d)); eauto.
  - destruct (IH Hf) as [coll' ->]. simpl. eauto.
Qed.

Lemma union_differs_at (upd d : document) (k : string) (v : value) :
  upd !! k = Some v -> d !! k <> Some v -> upd ∪ d <> d.
Proof.
  intros Hu Hd E. apply Hd. rewrite <- E.
  apply lookup_union_Some_l. exact Hu.
Qed.

Lemma update_fields_updated_at kw now s :
  Song.updated_at (Song.update_fields kw now s).1 = now.
Proof. reflexivity. Qed.

(** C2, as amended.  On a persisted record, with no fault, a valid update
    returns true exactly when the store reports a modification, that is
    when writing the re-serialised record changes the stored document.
    The re-serialised record carries the refreshed updatedAt, so every
    such update made at a time other than the stored updatedAt returns
    true, whether or not the supplied fields differ from the current
    ones. *)
Theorem C2_update_reports_modification
    (u song_id : string) (o : ObjectId) (kw : list Song.kwarg)
    (w : world) (d : document) (song : Song.t) :
  connected w = true ->
  ObjectId_of_str song_id = Some o ->
  pending_songs_fault w = None ->
  pending_songs_fault (after_songs_call w) = None ->
  List.find (matches (by_id_and_user o u)) (songs w) = Some d ->
  Song.from_dict (clock w) d = Ok song ->
  Song._validate (Song.update_fields kw (clock w) song).1 = Ok tt ->
  Song.id (Song.update_fields kw (clock w) song).1 = Song.id song ->
  (SongsDatabase.update_song u song_id kw w).1
    = Ok (bool_decide
            (Song.to_dict (Song.update_fields kw (clock w) song).1 ∪ d <> d)) /\
  (d !! "updated_at" <> Some (VTime (clock w)) ->
   (SongsDatabase.update_song u song_id kw w).1 = Ok true).
Proof.
  intros Hconn Ho Hp1 Hp2 Hfind Hread Hvalid Hid.
  set (song' := (Song.update_fields kw (clock w) song).1) in *.
  assert (Hmatch : d !! "_id" = Some (VOid o)).
  { apply List.find_some in Hfind as [_ Hm].
    by apply matches_by_id_and_user in Hm as [? _]. }
  assert (Hkeep : (Song.to_dict song' ∪ d) !! "_id" = d !! "_id").
  { destruct (to_dict_lookup song') as (_ & _ & _ & _ & _ & _ & _ & _ & Hi).
    rewrite Hid, (from_dict_id _ _ _ _ Hread Hmatch) in Hi. simpl in Hi.
    rewrite Hmatch. by apply lookup_union_Some_l. }
  destruct (update_first_found _ _ _ _ Hfind Hkeep) as [coll' Hupd].
  assert (Hrun : (SongsDatabase.update_song u song_id kw w).1
                 = Ok (bool_decide (Song.to_dict song' ∪ d <> d))).
  { rewrite update_song_eq, get_song_by_id_eq, Hconn, Ho, Hp1, Hfind, Hread.
    change (clock (after_songs_call w)) with (clock w).
    rewrite update_fields_outcome, <- update_fields_object.
    fold song'. rewrite Hvalid, Hp2.
    change (songs (after_songs_call w)) with (songs w).
    rewrite Hupd. simpl. f_equal.
    destruct (decide (Song.to_dict song' ∪ d = d)) as [E|E].
    - rewrite bool_decide_eq_true_2 by exact E.
      symmetry. apply bool_decide_eq_false. auto.
    - rewrite bool_decide_eq_false_2 by exact E.
      symmetry. by apply bool_decide_eq_true. }
  split; [exact Hrun|].
  intros Hstale. rewrite Hrun. f_equal. apply bool_decide_eq_true.
  destruct (to_dict_lookup song') as (_ & _ & _ & _ & _ & _ & _ & Hup & _).
  eapply union_differs_at; [exact Hup|].
  subst song'. rewrite update_fields_updated_at. exact Hstale.
Qed.

Lemma C2_update_reports_modification_witness :
  (SongsDatabase.update_song "alice" id_1 [Song.kw_title (Some "Song 1")] world_alice).1
    = Ok true.
Proof.
  apply (C2_update_reports_modification "alice" id_1 (Oid 1)
           [Song.kw_title (Some "Song 1")] world_alice alice_doc song_1_stored).
  - reflexivity.
  - reflexivity.
  - reflexivity.
  - reflexivity.
  - reflexivity.
  - reflexivity.
  - reflexivity.
  - reflexivity.
  - vm_compute. discriminate.
Defined.

(** C2 as stated fails: an update that supplies the title the record
    already has returns true, because the store sees the refreshed
    updatedAt. *)
Lemma C2_noop_update_counterexample :
  (SongsDatabase.get_song_by_id "alice" id_1 world_alice).1 = Ok (Some song_1_stored) /\
  Song.title song_1_stored = "Song 1" /\
  (SongsDatabase.update_song "alice" id_1 [Song.kw_title (Some "Song 1")] world_alice).1
    = Ok true.
Proof. split_and!; vm_compute; reflexivity. Qed.

(** ** Repository: listing *)

#[global] Instance desc_by_total (field : string) : Total (desc_by field).
Proof.
  intros d1 d2. unfold desc_by.
  destruct (d1 !! field) as [[x|x|x|[x]]|], (d2 !! field) as [[y|y|y|[y]]|]; simpl;
    try (by left); try (by right).
  - destruct (String.leb_total y x) as [->| ->]; [by left | by right].
  - destruct (Z.leb_spec y x), (Z.leb_spec x y); simpl; try (by left); try (by right); lia.
  - destruct (Z.leb_spec y x), (Z.leb_spec x y); simpl; try (by left); try (by right); lia.
  - destruct (N.leb_spec y x), (N.leb_spec x y); simpl; try (by left); try (by right); lia.
Qed.

#[global] Instance newest_first_trans : Transitive newest_first.
Proof. unfold newest_first. intros x y z. lia. Qed.

Lemma filter_all {A} (f : A -> bool) (l : list A) :
  (forall x, f x = true) -> List.filter f l = l.
Proof.
  intros H. induction l as [|a l IH]; simpl; [done|]. by rewrite H, IH.
Qed.

Lemma HdRel_take {A} (R : relation A) (a : A) (l : list A) (n : nat) :
  HdRel R a l -> HdRel R a (take n l).
Proof. destruct 1, n; simpl; constructor; assumption. Qed.

Lemma Sorted_take {A} (R : relation A) (l : list A) (n : nat) :
  Sorted R l -> Sorted R (take n l).
Proof.
  intros H. revert n. induction H as [|a l Hs IH Hh]; intros [|n]; simpl;
    constructor; auto using HdRel_take.
Qed.

Lemma Sorted_cursor_limit (R : relation document) (n : Z) (l : list document) :
  Sorted R l -> Sorted R (cursor_limit n l).
Proof. unfold cursor_limit. destruct (n =? 0); auto using Sorted_take. Qed.

Lemma cursor_limit_subseteq (n : Z) (l : list document) : cursor_limit n l ⊆ l.
Proof.
  unfold cursor_limit. destruct (n =? 0); [done|]. apply subseteq_take.
Qed.

Lemma map_result_Forall2 {A B} (f : A -> result B) (P : A -> B -> Prop) (xs : list A) :
  (forall x, x ∈ xs -> exists y, f x = Ok y /\ P x y) ->
  exists ys, map_result f xs = Ok ys /\ Forall2 P xs ys.
Proof.
  induction xs as [|x xs IH]; intros H; simpl.
  - exists []. split; [done|constructor].
  - destruct (H x) as (y & -> & Hy); [apply list_elem_of_here|].
    destruct IH as (ys & -> & Hys).
    { intros x' Hx'. apply H. by apply list_elem_of_further. }
    exists (y :: ys). split; [done|]. by constructor.
Qed.

Lemma Sorted_Forall2 {A B} (R1 : relation A) (R2 : relation B) (P : A -> B -> Prop)
    (xs : list A) (ys : list B) :
  (forall x1 x2 y1 y2, P x1 y1 -> P x2 y2 -> R1 x1 x2 -> R2 y1 y2) ->
  Forall2 P xs ys -> Sorted R1 xs -> Sorted R2 ys.
Proof.
  intros HR HF. induction HF as [|x y xs ys Hxy HF IH]; intros HS; [constructor|].
  apply Sorted_inv in HS as [HS Hh]. constructor; [auto|].
  destruct HF as [|x' y' xs' ys' Hxy' HF]; constructor.
  apply HdRel_inv in Hh. eauto.
Qed.

Lemma reads_as_order now d1 d2 s1 s2 :
  reads_as now d1 s1 -> reads_as now d2 s2 ->
  desc_by "created_at" d1 d2 -> newest_first s1 s2.
Proof.
  intros [_ H1] [_ H2]. unfold desc_by, newest_first. rewrite H1, H2. simpl.
  intros H. apply Is_true_true in H. lia.
Qed.

Lemma get_songs_eq (username : option string) (limit : option Z) (w : world) :
  connected w = true ->
  pending_songs_fault w = None ->
  SongsDatabase.get_songs username limit w =
  (match map_result (Song.from_dict (clock w))
           (let cursor :=
              find_sorted
                (if truthy_opt username then set_opt "username" (VStr <$> username) ∅ else ∅)
                "created_at" (songs w) in
            match limit with
            | Some n => cursor_limit n cursor
            | None => cursor
            end) with
   | Ok l => Ok l
   | Raise e => Raise (Exn DatabaseError ("Failed to get songs: " +:+ str e))
   end,
   after_songs_call w).
Proof.
  intros Hc Hp.
  unfold SongsDatabase.get_songs, SongsDatabase._ensure_connected, bind, try_except.
  rewrite Hc, songs_call_eq, Hp. unfold now. simpl.
  assert (E : forall cursor,
             match limit with
             | Some n => if n =? 0 then cursor else cursor_limit n cursor
             | None => cursor
             end
             = match limit with
               | Some n => cursor_limit n cursor
               | None => cursor
               end).
  { intros cursor. destruct limit as [n|]; [|done].
    unfold cursor_limit. by destruct (n =? 0). }
  rewrite E. destruct (map_result _ _); reflexivity.
Qed.

(** C9.  Listing with the empty string as owner is, in every world, the
    very computation of listing with no owner.  With a connection, no
    fault and readable documents it returns the records of all the
    documents in the collection, whoever owns them (cut to the limit, if
    one is given), newest first. *)
Theorem C9_empty_owner_lists_all (limit : option Z) (w : world) :
  SongsDatabase.get_songs (Some "") limit w = SongsDatabase.get_songs None limit w /\
  (connected w = true ->
   pending_songs_fault w = None ->
   (forall d, d ∈ songs w -> exists s, reads_as (clock w) d s) ->
   exists docs l,
     docs ≡ₚ songs w /\
     (SongsDatabase.get_songs (Some "") limit w).1 = Ok l /\
     Forall2 (reads_as (clock w))
       (match limit with Some n => cursor_limit n docs | None => docs end) l /\
     StronglySorted newest_first l).
Proof.
  split; [reflexivity|].
  intros Hc Hp Hread.
  set (docs := merge_sort (desc_by "created_at") (songs w)).
  set (cut := match limit with Some n => cursor_limit n docs | None => docs end).
  assert (Hperm : docs ≡ₚ songs w) by apply merge_sort_Permutation.
  assert (Hsorted : Sorted (desc_by "created_at") cut).
  { subst cut. pose proof (Sorted_merge_sort (desc_by "created_at") (songs w)) as Hs.
    destruct limit; auto using Sorted_cursor_limit. }
  assert (Hsub : forall d, d ∈ cut -> d ∈ songs w).
  { intros d Hd. rewrite <- Hperm. subst cut.
    destruct limit; [by eapply cursor_limit_subseteq | done]. }
  destruct (map_result_Forall2 (Song.from_dict (clock w)) (reads_as (clock w)) cut)
    as (l & Hl & HF).
  { intros d Hd. destruct (Hread d (Hsub d Hd)) as [s Hs].
    exists s. split; [apply Hs | exact Hs]. }
  exists docs, l. split_and!; try done.
  - rewrite get_songs_eq by done. cbn [fst truthy_opt truthy].
    unfold find_sorted. rewrite filter_all by apply matches_empty.
    fold docs. fold cut. by rewrite Hl.
  - apply Sorted_StronglySorted; [apply _|].
    eapply Sorted_Forall2; [|exact HF|exact Hsorted].
    intros. by eapply reads_as_order.
Qed.

Lemma C9_empty_owner_lists_all_witness :
  exists l,
    (SongsDatabase.get_songs (Some "") None world_two).1 = Ok l /\
    Song.username <$> l = ["bob"; "alice"] /\
    StronglySorted newest_first l.
Proof.
  destruct (C9_empty_owner_lists_all None world_two) as [_ H].
  destruct H as (docs & l & _ & Hl & _ & Hs).
  - reflexivity.
  - reflexivity.
  - intros d Hd. apply elem_of_cons in Hd as [->|Hd].
    + eexists. split; vm_compute; reflexivity.
    + apply list_elem_of_singleton in Hd as ->.
      eexists. split; vm_compute; reflexivity.
  - exists l. split_and!; try done.
    assert (E : (SongsDatabase.get_songs (Some "") None world_two).1
                = Ok [Song.mk "Tune" "Band" "bob" None None None 1500 1500 (Some (Oid 2));
                      song_1_stored]) by (vm_compute; reflexivity).
    rewrite E in Hl. injection Hl as <-. reflexivity.
Defined.

(** ** Services: sessions and the audit step *)

Lemma bind_ok {A B} (c : M A) (k : A -> M B) (w w' : world) (a : A) :
  c w = (Ok a, w') -> bind c k w = k a w'.
Proof. unfold bind. by intros ->. Qed.

Lemma bind_raise {A B} (c : M A) (k : A -> M B) (w w' : world) (e : exn) :
  c w = (Raise e, w') -> bind c k w = (Raise e, w').
Proof. unfold bind. by intros ->. Qed.

Lemma connect_eq (w : world) :
  SongsDatabase.connect (set_connected false w) =
  match pending_connect_fault w with
  | Some f => (Raise (connect_error f), no_session w)
  | None => (Ok true, session w)
  end.
Proof.
  unfold SongsDatabase.connect, SongsDatabase.connect_call, try_except, bind,
    pending_connect_fault, connect_error, session, no_session.
  destruct w as [s h c t n cf sf hf]. simpl.
  destruct (next_fault cf) as [[[[] msg]|] plan]; reflexivity.
Qed.

Lemma with_db_eq {A} (body : M A) (w : world) :
  with_db body w =
  match pending_connect_fault w with
  | Some f => (Raise (connect_error f), no_session w)
  | None => ((body (session w)).1, SongsDatabase.close (body (session w)).2)
  end.
Proof.
  unfold with_db. rewrite connect_eq.
  destruct (pending_connect_fault w); [reflexivity|].
  destruct (body (session w)); reflexivity.
Qed.


Lemma same_but_audit_refl w : same_but_audit w w.
Proof. by repeat split. Qed.

Lemma same_but_audit_trans w1 w2 w3 :
  same_but_audit w1 w2 -> same_but_audit w2 w3 -> same_but_audit w1 w3.
Proof.
  unfold same_but_audit. intros (?&?&?&?&?) (?&?&?&?&?). split_and!; congruence.
Qed.

Lemma audit_doc_no_id username action title artist time :
  audit_doc username action title artist time !! "_id" = None.
Proof. unfold audit_doc, HistoryEntry.to_dict, set_opt. simpl. by simplify_map_eq. Qed.

Lemma add_history_entry_eq (username action title artist : string) (time : Z) (w : world) :
  SongsDatabase.add_history_entry
    (HistoryEntry.mk username action title artist time None) w =
  if connected w then
    match pending_history_fault w with
    | Some f =>
        (Raise (Exn DatabaseError ("Failed to add history entry: " +:+ fault_msg f)),
         set_history_faults (next_fault (history_faults w)).2 w)
    | None =>
        if existsb (fun x => bool_decide (x !! "_id" = Some (VOid (Oid (oid_counter w)))))
                   (history w)
        then (Raise (Exn DatabaseError
                       "Failed to add history entry: E11000 duplicate key error"),
              set_history_faults (next_fault (history_faults w)).2 w)
        else (Ok (Oid (oid_counter w)),
              set_oid_counter (oid_counter w + 1)
                (set_history
                   (history w ++
                    [<["_id" := VOid (Oid (oid_counter w))]>
                       (audit_doc username action title artist time)])%list
                   (set_history_faults (next_fault (history_faults w)).2 w)))
    end
  else (Raise not_connected, w).
Proof.
  unfold SongsDatabase.add_history_entry, SongsDatabase._ensure_connected,
    SongsDatabase.insert_one_history, history_call, pending_history_fault.
  unfold bind, try_except, raise.
  destruct (connected w); [|reflexivity].
  destruct (next_fault (history_faults w)) as [[f|] plan]; [reflexivity|].
  cbn [history oid_counter set_history_faults fst snd].
  unfold insert_doc.
  fold (audit_doc username action title artist time).
  rewrite audit_doc_no_id.
  destruct (existsb _ _); reflexivity.
Qed.

(** The audit step returns normally whatever happens to the append, and
    touches nothing but the audit trail: the history collection is left
    as it was or has gained the one entry of the action. *)
Lemma log_history_spec (username action title artist : string) (w : world) :
  exists w',
    SongsService._log_history username action title artist w = (Ok tt, w') /\
    same_but_audit w w' /\
    (history w' = history w \/
     history w' = (history w ++
                   [<["_id" := VOid (Oid (oid_counter w))]>
                      (audit_doc username action title artist (clock w))])%list).
Proof.
  unfold SongsService._log_history, try_except, now, lift.
  unfold bind at 1. unfold bind at 1.
  destruct (HistoryEntry.new _) as [entry|e] eqn:Hnew.
  2:{ exists w. split; [reflexivity | split; [apply same_but_audit_refl | by left]]. }
  assert (entry = HistoryEntry.mk username action title artist (clock w) None) as ->.
  { unfold HistoryEntry.new in Hnew. destruct (HistoryEntry._validate _); [|done].
    simpl in Hnew. by injection Hnew as <-. }
  unfold bind. rewrite add_history_entry_eq.
  destruct (connected w) eqn:Hc.
  2:{ exists w. split; [reflexivity | split; [apply same_but_audit_refl | by left]]. }
  destruct (pending_history_fault w).
  { eexists. split; [reflexivity | split; [by repeat split | by left]]. }
  destruct (existsb _ _).
  { eexists. split; [reflexivity | split; [by repeat split | by left]]. }
  eexists. split; [reflexivity | split; [by repeat split | by right]].
Qed.

(** ** Services: audit failures *)



(** ** Services: the classes of the exceptions raised *)

Section Raises.
Context {A : Type} (P : exn_class -> Prop).


Lemma raises_raise (e : exn) : P (exn_cls e) -> raises_only (@raise A e) P.
Proof. intros H w e' [= <-]. exact H. Qed.

Lemma raises_bind {B} (c : M B) (k : B -> M A) :
  raises_only c P -> (forall b, raises_only (k b) P) -> raises_only (bind c k) P.
Proof.
  intros Hc Hk w e. unfold bind.
  destruct (c w) as [[b|e'] w'] eqn:E.
  - apply Hk.
  - intros [= <-]. apply (Hc w). by rewrite E.
Qed.

Lemma raises_try_except (body : M A) (handler : exn -> M A) :
  (forall e, raises_only (handler e) P) -> raises_only (try_except body handler) P.
Proof.
  intros Hh w e. unfold try_except.
  destruct (body w) as [[a|e'] w']; [discriminate | apply Hh].
Qed.


Lemma raises_weaken (Q : exn_class -> Prop) (c : M A) :
  (forall x, Q x -> P x) -> raises_only c Q -> raises_only c P.
Proof. intros HQ Hc w e H. apply HQ. by apply (Hc w). Qed.
End Raises.

Lemma raises_ensure_connected : raises_only SongsDatabase._ensure_connected is_DatabaseError.
Proof.
  intros w e. unfold SongsDatabase._ensure_connected.
  destruct (connected w); [discriminate|]. by intros [= <-].
Qed.

(** An operation of the repository: the connection check, then a body
    whose every exception the handler turns into a DatabaseError. *)
Lemma raises_guarded {A} (body : M A) (handler : exn -> M A) :
  (forall e, raises_only (handler e) is_DatabaseError) ->
  raises_only (let* _ := SongsDatabase._ensure_connected in try_except body handler)
              is_DatabaseError.
Proof.
  intros H. apply raises_bind; [apply raises_ensure_connected|].
  intros _. by apply raises_try_except.
Qed.

Lemma raises_log_history P username action title artist :
  raises_only (SongsService._log_history username action title artist) P.
Proof.
  intros w e. destruct (log_history_spec username action title artist w) as (w' & -> & _).
  discriminate.
Qed.

Ltac raises_repo :=
  apply raises_guarded; intros e;
  destruct (exn_cls e); apply raises_raise; reflexivity.

Lemma raises_db_add_song song : raises_only (SongsDatabase.add_song song) is_DatabaseError.
Proof. raises_repo. Qed.

Lemma raises_db_get_songs u l : raises_only (SongsDatabase.get_songs u l) is_DatabaseError.
Proof. raises_repo. Qed.

Lemma raises_db_search_songs rs u t :
  raises_only (SongsDatabase.search_songs rs u t) is_DatabaseError.
Proof. raises_repo. Qed.

Lemma raises_db_get_song_by_id u i :
  raises_only (SongsDatabase.get_song_by_id u i) is_DatabaseError.
Proof. raises_repo. Qed.

Lemma raises_db_update_song u i kw :
  raises_only (SongsDatabase.update_song u i kw) is_DatabaseError.
Proof. raises_repo. Qed.

Lemma raises_db_delete_song u i :
  raises_only (SongsDatabase.delete_song u i) is_DatabaseError.
Proof. raises_repo. Qed.

Lemma raises_db_get_history u l :
  raises_only (SongsDatabase.get_history u l) is_DatabaseError.
Proof. raises_repo. Qed.

Lemma raises_db_add_history_entry entry :
  raises_only (SongsDatabase.add_history_entry entry) is_DatabaseError.
Proof. raises_repo. Qed.

Create HintDb raises.
#[global] Hint Resolve raises_db_add_song raises_db_get_songs raises_db_search_songs
  raises_db_get_song_by_id raises_db_update_song raises_db_delete_song
  raises_db_get_history raises_log_history : raises.


(** ** Services: propagation of failures, the audit entry of an update *)

Lemma try_except_ok_inv {A} (body : M A) (handler : exn -> M A) (w : world) (r : A) :
  (forall e w', is_ok (handler e w').1 = false) ->
  (try_except body handler w).1 = Ok r -> (body w).1 = Ok r.
Proof.
  intros Hh. unfold try_except. destruct (body w) as [[a|e] w']; [done|].
  intros H. specialize (Hh e w'). rewrite H in Hh. discriminate.
Qed.







Ltac destruct_matches :=
  repeat match goal with
         | |- context [match ?x with _ => _ end] => destruct x
         | |- context [if ?x then _ else _] => destruct x
         end.

Lemma get_song_by_id_audit (u song_id : string) (w : world) :
  history (SongsDatabase.get_song_by_id u song_id w).2 = history w /\
  oid_counter (SongsDatabase.get_song_by_id u song_id w).2 = oid_counter w.
Proof. rewrite get_song_by_id_eq. destruct_matches; done. Qed.

Lemma update_song_audit (u song_id : string) kw (w : world) :
  history (SongsDatabase.update_song u song_id kw w).2 = history w /\
  oid_counter (SongsDatabase.update_song u song_id kw w).2 = oid_counter w /\
  clock (SongsDatabase.update_song u song_id kw w).2 = clock w.
Proof.
  rewrite update_song_eq.
  pose proof (get_song_by_id_audit u song_id w) as [Hh Ho].
  pose proof (get_song_by_id_clock u song_id w) as Hc.
  destruct (SongsDatabase.get_song_by_id u song_id w) as [r w1]. simpl in *.
  destruct_matches; done.
Qed.



(** * Further properties *)

(** ** History entries *)

Lemma entry_validate_ok_iff (e : HistoryEntry.t) :
  HistoryEntry._validate e = Ok tt <->
  strip (HistoryEntry.username e) <> "" /\ strip (HistoryEntry.action e) <> "".
Proof.
  unfold HistoryEntry._validate.
  destruct (negb (truthy (HistoryEntry.username e)) || _) eqn:Hu.
  { apply blank_test_true in Hu. split; [discriminate|]. intros [H _]; contradiction. }
  destruct (negb (truthy (HistoryEntry.action e)) || _) eqn:Ha.
  { apply blank_test_true in Ha. split; [discriminate|]. intros [_ H]; contradiction. }
  apply blank_test in Hu, Ha. done.
Qed.

Lemma entry_validate_raises (e : HistoryEntry.t) x :
  HistoryEntry._validate e = Raise x -> exn_cls x = ValueError.
Proof.
  unfold HistoryEntry._validate.
  repeat match goal with
         | |- context [if ?b then _ else _] => destruct b
         end; intros [= <-]; reflexivity.
Qed.

(** X1.  A history entry is constructed exactly when its username and its
    action are non-empty after trimming; otherwise construction raises a
    ValueError.  Nothing else is checked: an action outside the five known
    ones, an empty title or artist are accepted. *)
Theorem X1_history_entry_construction (e : HistoryEntry.t) :
  (HistoryEntry.new e = Ok e <->
   strip (HistoryEntry.username e) <> "" /\ strip (HistoryEntry.action e) <> "") /\
  (HistoryEntry.new e <> Ok e ->
   exists msg, HistoryEntry.new e = Raise (Exn ValueError msg)).
Proof.
  unfold HistoryEntry.new. split.
  - rewrite <- entry_validate_ok_iff.
    destruct (HistoryEntry._validate e) as [[]|x]; simpl; split; congruence.
  - destruct (HistoryEntry._validate e) as [[]|[c msg]] eqn:E; simpl; [done|].
    intros _. apply entry_validate_raises in E. simpl in E. subst c. eauto.
Qed.

Lemma X1_history_entry_construction_witness :
  HistoryEntry.new entry_shared = Ok entry_shared /\
  exists msg,
    HistoryEntry.new (HistoryEntry.mk "alice" "  " "Song 1" "Artist" 1000 None)
    = Raise (Exn ValueError msg).
Proof.
  split.
  - apply (X1_history_entry_construction entry_shared). split; discriminate.
  - apply (X1_history_entry_construction
             (HistoryEntry.mk "alice" "  " "Song 1" "Artist" 1000 None)).
    discriminate.
Defined.

Lemma entry_to_dict_lookup (e : HistoryEntry.t) :
  HistoryEntry.to_dict e !! "username" = Some (VStr (strip (HistoryEntry.username e))) /\
  HistoryEntry.to_dict e !! "action" = Some (VStr (strip (HistoryEntry.action e))) /\
  HistoryEntry.to_dict e !! "song_title" = Some (VStr (strip (HistoryEntry.song_title e))) /\
  HistoryEntry.to_dict e !! "song_artist"
    = Some (VStr (strip (HistoryEntry.song_artist e))) /\
  HistoryEntry.to_dict e !! "timestamp" = Some (VTime (HistoryEntry.timestamp e)) /\
  HistoryEntry.to_dict e !! "_id" = (VOid <$> HistoryEntry.id e).
Proof.
  destruct e as [u a t ar ts i]. unfold HistoryEntry.to_dict, set_opt; simpl.
  destruct i; simpl; split_and!; by simplify_map_eq.
Qed.

(** X2.  Serialising a valid history entry and reading the document back
    yields the entry with username, action, title and artist trimmed and
    the timestamp and identifier as they were; a second round trip
    changes nothing more. *)
Theorem X2_history_entry_roundtrip (now : Z) (e : HistoryEntry.t) :
  HistoryEntry._validate e = Ok tt ->
  HistoryEntry.from_dict now (HistoryEntry.to_dict e) = Ok (entry_stored_form e) /\
  HistoryEntry.from_dict now (HistoryEntry.to_dict (entry_stored_form e))
    = Ok (entry_stored_form e).
Proof.
  intros Hv.
  assert (Hrt : forall x, HistoryEntry._validate x = Ok tt ->
                  HistoryEntry.from_dict now (HistoryEntry.to_dict x)
                  = Ok (entry_stored_form x)).
  { intros x Hx.
    destruct (entry_to_dict_lookup x) as (Hu & Ha & Ht & Har & Hts & Hi).
    unfold HistoryEntry.from_dict, get_str, get_time, get_oid.
    rewrite Hu, Ha, Ht, Har, Hts, Hi. simpl.
    assert (Hs : HistoryEntry._validate (entry_stored_form x) = Ok tt).
    { apply entry_validate_ok_iff. apply entry_validate_ok_iff in Hx.
      unfold entry_stored_form; simpl. by rewrite !strip_idem. }
    destruct x as [u a t ar ts [o|]]; simpl in *;
      unfold HistoryEntry.new; unfold entry_stored_form in Hs; simpl in Hs;
      rewrite Hs; reflexivity. }
  split; [by apply Hrt|].
  rewrite Hrt.
  - unfold entry_stored_form; simpl. by rewrite !strip_idem.
  - apply entry_validate_ok_iff. apply entry_validate_ok_iff in Hv.
    unfold entry_stored_form; simpl. by rewrite !strip_idem.
Qed.

Lemma X2_history_entry_roundtrip_witness :
  HistoryEntry.from_dict 0 (HistoryEntry.to_dict entry_shared)
  = Ok (HistoryEntry.mk "alice" "shared" "Song 1" "" 1000 None).
Proof.
  apply (X2_history_entry_roundtrip 0 entry_shared). reflexivity.
Defined.

(** ** Field updates *)

Lemma setattr_unset (kw : Song.kwarg) (s : Song.t) :
  Song.kw_is_set kw = false -> Song.setattr s kw = s.
Proof.
  destruct kw as [v|v|v|v|v|v|v|v|v|k v]; destruct v; simpl;
    try reflexivity; try discriminate;
    intros H; exfalso; apply bool_decide_eq_false in H; apply H; eauto.
Qed.

Lemma foldl_setattr_filter (kwargs : list Song.kwarg) (s : Song.t) :
  foldl Song.setattr s (List.filter Song.kw_is_set kwargs) = foldl Song.setattr s kwargs.
Proof.
  revert s. induction kwargs as [|kw kwargs IH]; intros s; [reflexivity|].
  simpl. destruct (Song.kw_is_set kw) eqn:E; simpl.
  - apply IH.
  - rewrite (setattr_unset kw s E). apply IH.
Qed.

Lemma setattr_not_assigns (kw : Song.kwarg) (s : Song.t) :
  assigns kw = false -> Song.setattr s kw = s.
Proof.
  destruct kw as [v|v|v|v|v|v|v|v|v|k v]; destruct v; simpl;
    try reflexivity; try discriminate;
    intros H; exfalso; apply bool_decide_eq_false in H; apply H; eauto.
Qed.

Lemma foldl_setattr_assigns (kwargs : list Song.kwarg) (s : Song.t) :
  foldl Song.setattr s (List.filter assigns kwargs) = foldl Song.setattr s kwargs.
Proof.
  revert s. induction kwargs as [|kw kwargs IH]; intros s; [reflexivity|].
  simpl. destruct (assigns kw) eqn:E; simpl.
  - apply IH.
  - rewrite (setattr_not_assigns kw s E). apply IH.
Qed.

(** X3.  Keyword arguments whose value is None, and names that are no
    attribute of a record, change nothing: the field update does the same
    with and without them, and when no argument assigns it only refreshes
    updatedAt.  Identifier, owner and creation time are kept unless the
    arguments name them. *)
Theorem X3_update_fields_ignores_none (kwargs : list Song.kwarg) (now : Z) (s : Song.t) :
  Song.update_fields (List.filter Song.kw_is_set kwargs) now s
    = Song.update_fields kwargs now s /\
  Song.update_fields (List.filter assigns kwargs) now s
    = Song.update_fields kwargs now s /\
  (List.filter assigns kwargs = [] ->
   (Song.update_fields kwargs now s).1 = Song.set_updated_at now s) /\
  ((forall v, Song.kw_id (Some v) ∉ kwargs) ->
   Song.id (Song.update_fields kwargs now s).1 = Song.id s) /\
  ((forall v, Song.kw_username (Some v) ∉ kwargs) ->
   Song.username (Song.update_fields kwargs now s).1 = Song.username s) /\
  ((forall v, Song.kw_created_at (Some v) ∉ kwargs) ->
   Song.created_at (Song.update_fields kwargs now s).1 = Song.created_at s).
Proof.
  split_and!.
  - unfold Song.update_fields. by rewrite foldl_setattr_filter.
  - unfold Song.update_fields. by rewrite foldl_setattr_assigns.
  - intros H. rewrite update_fields_object, <- foldl_setattr_assigns, H. reflexivity.
  - intros H. rewrite update_fields_object. simpl. revert s.
    induction kwargs as [|kw kwargs IH]; intros s; [reflexivity|].
    simpl. rewrite IH.
    + destruct kw as [v|v|v|v|v|v|v|v|v|k v]; destruct v as [x|]; try reflexivity.
      destruct (H x). apply list_elem_of_here.
    + intros v Hv. apply (H v). by apply list_elem_of_further.
  - intros H. rewrite update_fields_object. simpl. revert s.
    induction kwargs as [|kw kwargs IH]; intros s; [reflexivity|].
    simpl. rewrite IH.
    + destruct kw as [v|v|v|v|v|v|v|v|v|k v]; destruct v as [x|]; try reflexivity.
      destruct (H x). apply list_elem_of_here.
    + intros v Hv. apply (H v). by apply list_elem_of_further.
  - intros H. rewrite update_fields_object. simpl. revert s.
    induction kwargs as [|kw kwargs IH]; intros s; [reflexivity|].
    simpl. rewrite IH.
    + destruct kw as [v|v|v|v|v|v|v|v|v|k v]; destruct v as [x|]; try reflexivity.
      destruct (H x). apply list_elem_of_here.
    + intros v Hv. apply (H v). by apply list_elem_of_further.
Qed.

Lemma X3_update_fields_ignores_none_witness :
  (Song.update_fields [Song.kw_title None; Song.kw_other "rating" (Some (VInt 5))]
     2000 song_1_stored).1
  = Song.mk "Song 1" "Artist" "alice" None None None 1000 2000 (Some (Oid 1)).
Proof.
  apply (X3_update_fields_ignores_none
           [Song.kw_title None; Song.kw_other "rating" (Some (VInt 5))]
           2000 song_1_stored).
  reflexivity.
Defined.

(** ** Repository: adding *)

Lemma to_dict_with_id (o : ObjectId) (s : Song.t) :
  Song.to_dict (with_id o s) = <["_id" := VOid o]> (Song.to_dict s).
Proof.
  destruct s as [t a u g y d c up [i|]]; unfold Song.to_dict, with_id, set_opt; simpl.
  - by rewrite insert_insert_eq.
  - reflexivity.
Qed.

Lemma insert_doc_eq (s : Song.t) (coll : list document) (w : world) :
  insert_doc (Song.to_dict s) coll (oid_counter w) =
  if existsb (has_id (id_for s w)) coll
  then Raise (Exn DuplicateKeyError "E11000 duplicate key error")
  else Ok (id_for s w, (coll ++ [Song.to_dict (with_id (id_for s w) s)])%list,
           match Song.id s with Some _ => oid_counter w | None => (oid_counter w + 1)%N end).
Proof.
  unfold insert_doc, id_for.
  destruct (to_dict_lookup s) as (_ & _ & _ & _ & _ & _ & _ & _ & Hi). rewrite Hi.
  destruct (Song.id s) as [o|] eqn:E; simpl.
  - fold (has_id o). destruct (existsb _ _); [reflexivity|].
    rewrite to_dict_with_id. do 3 f_equal. f_equal. f_equal.
    symmetry. apply insert_id. by rewrite Hi.
  - fold (has_id (Oid (oid_counter w))). destruct (existsb _ _); [reflexivity|].
    by rewrite to_dict_with_id.
Qed.

Lemma add_song_eq (s : Song.t) (w : world) :
  SongsDatabase.add_song s w =
  if connected w then
    match pending_songs_fault w with
    | Some f => (Raise (wrap_add (exn_of_fault f)), after_songs_call w)
    | None =>
        if existsb (has_id (id_for s w)) (songs w)
        then (Raise (Exn DatabaseError
                       "Song already exists: E11000 duplicate key error"),
              after_songs_call w)
        else (Ok (id_for s w),
              set_oid_counter
                match Song.id s with
                | Some _ => oid_counter w
                | None => (oid_counter w + 1)%N
                end
                (set_songs (songs w ++ [Song.to_dict (with_id (id_for s w) s)])%list
                           (after_songs_call w)))
    end
  else (Raise not_connected, w).
Proof.
  unfold SongsDatabase.add_song, SongsDatabase._ensure_connected,
    SongsDatabase.insert_one_songs.
  unfold bind at 1. destruct (connected w); [|reflexivity].
  unfold try_except, bind. rewrite songs_call_eq.
  destruct (pending_songs_fault w) as [[[] msg]|]; [reflexivity..|].
  change (songs (after_songs_call w)) with (songs w).
  change (oid_counter (after_songs_call w)) with (oid_counter w).
  rewrite insert_doc_eq. destruct (existsb _ _); reflexivity.
Qed.

Lemma existsb_has_id_false (o : ObjectId) (coll : list document) :
  existsb (has_id o) coll = false <-> (forall d, d ∈ coll -> d !! "_id" <> Some (VOid o)).
Proof.
  rewrite <- not_true_iff_false, existsb_exists. split.
  - intros H d Hd E. apply H. exists d. split; [by apply list_elem_of_In|].
    by apply bool_decide_eq_true.
  - intros H (d & Hd & E). apply bool_decide_eq_true in E.
    apply (H d); [by apply list_elem_of_In | done].
Qed.

(** What adding a record does to the two collections, in each of its
    outcomes. *)
Lemma db_add_song_outcome (s : Song.t) (w : world) :
  (forall o, (SongsDatabase.add_song s w).1 = Ok o ->
     o = id_for s w /\
     songs (SongsDatabase.add_song s w).2
       = (songs w ++ [Song.to_dict (with_id o s)])%list /\
     (forall d, d ∈ songs w -> d !! "_id" <> Some (VOid o))) /\
  (forall e, (SongsDatabase.add_song s w).1 = Raise e ->
     exn_cls e = DatabaseError /\
     songs (SongsDatabase.add_song s w).2 = songs w) /\
  history (SongsDatabase.add_song s w).2 = history w.
Proof.
  rewrite add_song_eq. split_and!.
  - intros o. destruct (connected w); [|discriminate].
    destruct (pending_songs_fault w); [discriminate|].
    destruct (existsb _ _) eqn:E; [discriminate|]. simpl. intros [= <-].
    split_and!; try done. by apply existsb_has_id_false.
  - intros e. destruct (connected w); [|by intros [= <-]].
    destruct (pending_songs_fault w) as [[[] msg]|]; [by intros [= <-]..|].
    destruct (existsb _ _); [by intros [= <-]|discriminate].
  - destruct (connected w); [|done]. destruct (pending_songs_fault w); [done|].
    destruct (existsb _ _); done.
Qed.

(** X4.  Adding a record appends exactly one document, the record's
    document form under its identifier, and touches no other document and
    not the history; the identifier is the record's own or a generated
    one, and no stored document had it.  When adding fails, for whatever
    reason, both collections are as they were; an identifier the
    collection already holds makes it fail with "Song already exists". *)
Theorem X4_add_song_appends (s : Song.t) (w : world) :
  (forall o, (SongsDatabase.add_song s w).1 = Ok o ->
     o = id_for s w /\
     songs (SongsDatabase.add_song s w).2
       = (songs w ++ [Song.to_dict (with_id o s)])%list /\
     (forall d, d ∈ songs w -> d !! "_id" <> Some (VOid o))) /\
  (forall e, (SongsDatabase.add_song s w).1 = Raise e ->
     exn_cls e = DatabaseError /\
     songs (SongsDatabase.add_song s w).2 = songs w) /\
  history (SongsDatabase.add_song s w).2 = history w /\
  (ready w -> (exists d, d ∈ songs w /\ d !! "_id" = Some (VOid (id_for s w))) ->
   (SongsDatabase.add_song s w).1
     = Raise (Exn DatabaseError "Song already exists: E11000 duplicate key error")).
Proof.
  destruct (db_add_song_outcome s w) as (Hok & Hfail & Hh).
  split; [exact Hok|]. split; [exact Hfail|]. split; [exact Hh|].
  intros [Hc Hp] (d & Hd & Hi). rewrite add_song_eq, Hc, Hp.
  destruct (existsb _ _) eqn:E; [done|].
  exfalso. eapply existsb_has_id_false in E; eauto.
Qed.

Lemma X4_add_song_appends_witness :
  (SongsDatabase.add_song song_1_stored world_alice).1
    = Raise (Exn DatabaseError "Song already exists: E11000 duplicate key error") /\
  songs (SongsDatabase.add_song song_2 world_alice).2
    = [alice_doc; Song.to_dict (with_id (Oid 2) song_2)].
Proof.
  destruct (X4_add_song_appends song_1_stored world_alice) as (_ & _ & _ & Hdup).
  destruct (X4_add_song_appends song_2 world_alice) as (Hok & _).
  split.
  - apply Hdup; [by split|]. exists alice_doc. split; [apply list_elem_of_here|reflexivity].
  - destruct (Hok (Oid 2)) as (_ & H & _); [reflexivity|exact H].
Defined.

Lemma find_app_fresh (f : document -> bool) (l : list document) (d : document) :
  (forall x, x ∈ l -> f x = false) -> f d = true -> List.find f (l ++ [d]) = Some d.
Proof.
  intros Hl Hd. induction l as [|a l IH]; simpl.
  - by rewrite Hd.
  - rewrite (Hl a) by apply list_elem_of_here. apply IH.
    intros x Hx. apply Hl. by apply list_elem_of_further.
Qed.

(** X5.  A valid record that has been added is read back by its owner,
    under the identifier returned, as the record it was stored as: its
    texts trimmed, the identifier set. *)
Theorem X5_add_then_get (s : Song.t) (song_id : string) (o : ObjectId) (w w1 : world) :
  Song._validate s = Ok tt ->
  SongsDatabase.add_song s w = (Ok o, w1) ->
  ObjectId_of_str song_id = Some o ->
  pending_songs_fault w1 = None ->
  (SongsDatabase.get_song_by_id (strip (Song.username s)) song_id w1).1
    = Ok (Some (with_id o (stored_form s))).
Proof.
  intros Hv Hadd Ho Hp.
  destruct (db_add_song_outcome s w) as (Hok & _).
  rewrite Hadd in Hok. destruct (Hok o eq_refl) as (_ & Hsongs & Hfresh).
  simpl in Hsongs.
  assert (Hc : connected w1 = true).
  { rewrite add_song_eq in Hadd. destruct (connected w) eqn:Hc; [|discriminate].
    destruct (pending_songs_fault w); [discriminate|].
    destruct (existsb _ _); [discriminate|]. by injection Hadd as _ <-. }
  rewrite get_song_by_id_eq, Hc, Ho, Hp, Hsongs.
  destruct (to_dict_lookup (with_id o s)) as (_ & _ & Hu & _ & _ & _ & _ & _ & Hi).
  rewrite find_app_fresh.
  - rewrite from_dict_to_dict.
    change (stored_form (with_id o s)) with (with_id o (stored_form s)).
    assert (Hn : Song.new (with_id o (stored_form s)) = Ok (with_id o (stored_form s))).
    { apply new_ok_iff. apply validate_stored_form in Hv.
      apply validate_ok_iff. apply validate_ok_iff in Hv. exact Hv. }
    by rewrite Hn.
  - intros d Hd. destruct (matches _ d) eqn:E; [|done].
    apply matches_by_id_and_user in E as [E _]. by destruct (Hfresh d Hd).
  - apply matches_by_id_and_user. by rewrite Hu, Hi.
Qed.

Lemma X5_add_then_get_witness :
  (SongsDatabase.get_song_by_id "alice" id_2
     (SongsDatabase.add_song song_2 world_alice).2).1
  = Ok (Some (Song.mk "Song 2" "Artist" "alice" (Some "Rock") (Some 1999) None
                      2000 2000 (Some (Oid 2)))).
Proof.
  apply (X5_add_then_get song_2 id_2 (Oid 2) world_alice
           (SongsDatabase.add_song song_2 world_alice).2); reflexivity.
Defined.

(** ** Repository: identifiers *)

Lemma update_first_ids (q upd : document) (coll coll' : list document) (n : nat) :
  update_first q upd coll = Ok (coll', n) -> ids coll' = ids coll.
Proof.
  revert coll' n. induction coll as [|d coll IH]; intros coll' n; simpl.
  - by intros [= <- _].
  - destruct (matches q d).
    + destruct (bool_decide (_ !! "_id" = _)) eqn:Hid; [|discriminate].
      apply bool_decide_eq_true in Hid.
      destruct (bool_decide (_ = d)); intros [= <- _]; [done|].
      unfold ids. simpl. by rewrite Hid.
    + destruct (update_first q upd coll) as [[c m]|e]; [|discriminate].
      simpl. intros [= <- _]. unfold ids. simpl. f_equal. by apply (IH c m).
Qed.

Lemma update_first_raise (q upd : document) (coll : list document) e :
  update_first q upd coll = Raise e -> exn_cls e = PyMongoError.
Proof.
  induction coll as [|d coll IH]; simpl; [discriminate|].
  destruct (matches q d).
  - destruct (bool_decide (_ !! "_id" = _)); [|by intros [= <-]].
    destruct (bool_decide _); discriminate.
  - destruct (update_first q upd coll) as [[c m]|e']; [discriminate|].
    simpl. intros [= <-]. by apply IH.
Qed.

Lemma delete_first_sublist (q : document) (coll : list document) :
  (delete_first q coll).1 `sublist_of` coll.
Proof.
  induction coll as [|d coll IH]; simpl; [constructor|].
  destruct (matches q d); simpl.
  - by apply sublist_cons.
  - by apply sublist_skip.
Qed.

Lemma sublist_ids (l1 l2 : list document) :
  l1 `sublist_of` l2 -> ids l1 `sublist_of` ids l2.
Proof. intros H. unfold ids. by apply fmap_sublist. Qed.

Lemma update_song_songs (u song_id : string) kw (w : world) :
  ids (songs (SongsDatabase.update_song u song_id kw w).2) = ids (songs w).
Proof.
  rewrite update_song_eq.
  pose proof (get_song_by_id_songs u song_id w) as Hs.
  destruct (connected w); [|done].
  destruct (SongsDatabase.get_song_by_id u song_id w) as [[[s|]|e] w1];
    simpl in Hs; rewrite <- ?Hs; try done.
  destruct (Song.update_fields kw (clock w1) s).2; [|done].
  destruct (ObjectId_of_str song_id); [|done].
  destruct (pending_songs_fault w1); [done|].
  destruct (update_first _ _ _) as [[coll n]|e] eqn:E; [|done].
  simpl. by eapply update_first_ids.
Qed.

Lemma delete_song_songs (u song_id : string) (w : world) :
  songs (SongsDatabase.delete_song u song_id w).2 `sublist_of` songs w.
Proof.
  rewrite delete_song_eq.
  pose proof (get_song_by_id_songs u song_id w) as Hs.
  destruct (connected w); [|done].
  destruct (SongsDatabase.get_song_by_id u song_id w) as [[[s|]|e] w1];
    simpl in Hs; rewrite <- ?Hs; try done.
  destruct (ObjectId_of_str song_id); [|done].
  destruct (pending_songs_fault w1); [done|].
  simpl. apply delete_first_sublist.
Qed.

(** X6.  The repository keeps identifiers unique and stable: if no two
    documents of the songs collection share an identifier, none do after
    an add, an update or a delete; an update changes no identifier at all,
    and a delete only removes documents. *)
Theorem X6_identifiers_stay_unique
    (s : Song.t) (u song_id : string) (kw : list Song.kwarg) (w : world) :
  unique_ids (songs w) ->
  unique_ids (songs (SongsDatabase.add_song s w).2) /\
  unique_ids (songs (SongsDatabase.update_song u song_id kw w).2) /\
  unique_ids (songs (SongsDatabase.delete_song u song_id w).2) /\
  ids (songs (SongsDatabase.update_song u song_id kw w).2) = ids (songs w) /\
  songs (SongsDatabase.delete_song u song_id w).2 `sublist_of` songs w.
Proof.
  intros Hu. split_and!.
  - destruct (db_add_song_outcome s w) as (Hok & Hfail & _).
    destruct (SongsDatabase.add_song s w) as [[o|e] w1] eqn:E; simpl in *.
    + destruct (Hok o eq_refl) as (_ & -> & Hfresh).
      unfold unique_ids, ids. rewrite fmap_app. apply NoDup_app. split_and!.
      * exact Hu.
      * intros x Hx Hin. simpl in Hin. apply list_elem_of_singleton in Hin. subst x.
        apply list_elem_of_fmap in Hx as (d & Hd & Hin).
        destruct (to_dict_lookup (with_id o s)) as (_ & _ & _ & _ & _ & _ & _ & _ & Hi).
        rewrite Hi in Hd. simpl in Hd. by destruct (Hfresh d Hin).
      * simpl. apply NoDup_singleton.
    + by destruct (Hfail e eq_refl) as [_ ->].
  - unfold unique_ids. by rewrite update_song_songs.
  - unfold unique_ids. eapply sublist_NoDup; [exact Hu | apply sublist_ids, delete_song_songs].
  - apply update_song_songs.
  - apply delete_song_songs.
Qed.

Lemma X6_identifiers_stay_unique_witness :
  unique_ids (songs (SongsDatabase.add_song song_2 world_alice).2) /\
  ids (songs (SongsDatabase.update_song "alice" id_1
                [Song.kw_title (Some "Song 1 (Remix)")] world_alice).2)
    = [Some (VOid (Oid 1))].
Proof.
  destruct (X6_identifiers_stay_unique song_2 "alice" id_1
              [Song.kw_title (Some "Song 1 (Remix)")] world_alice)
    as (Hadd & _ & _ & Hupd & _).
  - unfold unique_ids. vm_compute. apply NoDup_singleton.
  - split; [exact Hadd|]. rewrite Hupd. reflexivity.
Defined.

(** ** Repository: deleting *)

Lemma delete_first_found (q d : document) (coll : list document) :
  List.find (matches q) coll = Some d ->
  exists l1 l2,
    coll = (l1 ++ d :: l2)%list /\
    delete_first q coll = ((l1 ++ l2)%list, 1%nat) /\
    (forall x, x ∈ l1 -> matches q x = false).
Proof.
  induction coll as [|a coll IH]; simpl; [discriminate|].
  destruct (matches q a) eqn:Ha.
  - intros [= ->]. exists [], coll. split_and!; try done.
    intros x Hx. by apply elem_of_nil in Hx.
  - intros Hf. destruct (IH Hf) as (l1 & l2 & -> & -> & Hl1).
    exists (a :: l1), l2. split_and!; try done.
    intros x Hx. apply elem_of_cons in Hx as [->|Hx]; auto.
Qed.

(** X7.  Deleting an owner's record returns the record as it was read and
    removes exactly its document: the collection is the old one without
    that document, in the old order.  With unique identifiers no document
    carries the identifier afterwards, so the record can no longer be
    read, by any owner. *)
Theorem X7_delete_removes_one
    (u song_id : string) (o : ObjectId) (w : world) (d : document) (s : Song.t) :
  ready w ->
  pending_songs_fault (after_songs_call w) = None ->
  ObjectId_of_str song_id = Some o ->
  List.find (matches (by_id_and_user o u)) (songs w) = Some d ->
  Song.from_dict (clock w) d = Ok s ->
  (SongsDatabase.delete_song u song_id w).1 = Ok (Some s) /\
  (exists l1 l2,
     songs w = (l1 ++ d :: l2)%list /\
     songs (SongsDatabase.delete_song u song_id w).2 = (l1 ++ l2)%list) /\
  (unique_ids (songs w) ->
   (forall x, x ∈ songs (SongsDatabase.delete_song u song_id w).2 ->
              x !! "_id" <> Some (VOid o)) /\
   forall u' w',
     ready w' ->
     songs w' = songs (SongsDatabase.delete_song u song_id w).2 ->
     (SongsDatabase.get_song_by_id u' song_id w').1 = Ok None).
Proof.
  intros [Hc Hp] Hp2 Ho Hfind Hread.
  destruct (delete_first_found _ _ _ Hfind) as (l1 & l2 & Hsplit & Hdel & Hl1).
  assert (Hrun : SongsDatabase.delete_song u song_id w
                 = (Ok (Some s),
                    set_songs (l1 ++ l2)%list (after_songs_call (after_songs_call w)))).
  { rewrite delete_song_eq, get_song_by_id_eq, Hc, Ho, Hp, Hfind, Hread, Hp2.
    change (songs (after_songs_call w)) with (songs w). by rewrite Hdel. }
  rewrite Hrun. simpl. split_and!; [done|by exists l1, l2|].
  intros Hu.
  assert (Hgone : forall x, x ∈ (l1 ++ l2)%list -> x !! "_id" <> Some (VOid o)).
  { intros x Hx Hid. unfold unique_ids, ids in Hu. rewrite Hsplit in Hu.
    rewrite fmap_app, fmap_cons in Hu.
    apply List.find_some in Hfind as [_ Hm].
    apply matches_by_id_and_user in Hm as [Hd _].
    apply NoDup_app in Hu as (_ & Hdisj & Hnd).
    apply NoDup_cons in Hnd as [Hnotin _].
    apply elem_of_app in Hx as [Hx|Hx].
    - apply (Hdisj (Some (VOid o))).
      + rewrite <- Hid. by apply list_elem_of_fmap_2.
      + rewrite Hd. apply list_elem_of_here.
    - apply Hnotin. rewrite Hd, <- Hid. by apply list_elem_of_fmap_2. }
  split; [exact Hgone|].
  intros u' w' [Hc' Hp'] Hs'.
  rewrite get_song_by_id_eq, Hc', Ho, Hp', Hs', find_foreign; [done|].
  intros x Hx Hid. by destruct (Hgone x Hx).
Qed.

Lemma X7_delete_removes_one_witness :
  (SongsDatabase.delete_song "alice" id_1 world_rock).1 = Ok (Some song_1_stored) /\
  songs (SongsDatabase.delete_song "alice" id_1 world_rock).2 = [rock_doc].
Proof.
  destruct (X7_delete_removes_one "alice" id_1 (Oid 1) world_rock alice_doc song_1_stored)
    as (Hret & (l1 & l2 & Hsplit & Hafter) & _); try reflexivity.
  - by split.
  - split; [exact Hret|]. vm_compute. reflexivity.
Defined.

(** ** Repository: updating *)

Lemma rbind_ok_inv {A B} (r : result A) (k : A -> result B) (b : B) :
  rbind r k = Ok b -> exists a, r = Ok a /\ k a = Ok b.
Proof. destruct r as [a|e]; simpl; [eauto|discriminate]. Qed.

Lemma get_str_ok (d : document) (k : string) (o : option string) :
  get_str d k = Ok o -> d !! k = (VStr <$> o).
Proof. unfold get_str. destruct (d !! k) as [[]|]; intros [= <-]; reflexivity. Qed.

Lemma get_int_ok (d : document) (k : string) (o : option Z) :
  get_int d k = Ok o -> d !! k = (VInt <$> o).
Proof. unfold get_int. destruct (d !! k) as [[]|]; intros [= <-]; reflexivity. Qed.

Lemma get_time_ok (d : document) (k : string) (o : option Z) :
  get_time d k = Ok o -> d !! k = (VTime <$> o).
Proof. unfold get_time. destruct (d !! k) as [[]|]; intros [= <-]; reflexivity. Qed.

Lemma get_oid_ok (d : document) (k : string) (o : option ObjectId) :
  get_oid d k = Ok o -> d !! k = (VOid <$> o).
Proof. unfold get_oid. destruct (d !! k) as [[]|]; intros [= <-]; reflexivity. Qed.

(** What a document that reads as a record holds. *)
Lemma from_dict_inv (now : Z) (d : document) (s : Song.t) :
  Song.from_dict now d = Ok s ->
  Song._validate s = Ok tt /\
  d !! "genre" = (VStr <$> Song.genre s) /\
  d !! "year" = (VInt <$> Song.year s) /\
  d !! "duration" = (VInt <$> Song.duration s) /\
  d !! "_id" = (VOid <$> Song.id s) /\
  (forall u, d !! "username" = Some (VStr u) -> Song.username s = u).
Proof.
  unfold Song.from_dict. intros H.
  apply rbind_ok_inv in H as (t & Ht & H).
  apply rbind_ok_inv in H as (a & Ha & H).
  apply rbind_ok_inv in H as (u & Hu & H).
  apply rbind_ok_inv in H as (g & Hg & H).
  apply rbind_ok_inv in H as (y & Hy & H).
  apply rbind_ok_inv in H as (du & Hdu & H).
  apply rbind_ok_inv in H as (c & Hc & H).
  apply rbind_ok_inv in H as (up & Hup & H).
  apply rbind_ok_inv in H as (i & Hi & H).
  unfold Song.new in H. apply rbind_ok_inv in H as ([] & Hv & H).
  injection H as <-. simpl.
  apply get_str_ok in Hg, Hu. apply get_int_ok in Hy, Hdu. apply get_oid_ok in Hi.
  split_and!; try done.
  intros u' Hu'. rewrite Hu' in Hu. destruct u as [u|]; [|done]. by injection Hu as ->.
Qed.

Lemma keeps_fields_refl s : keeps_fields s s.
Proof. by repeat split. Qed.

Lemma keeps_fields_trans s1 s2 s3 :
  keeps_fields s1 s2 -> keeps_fields s2 s3 -> keeps_fields s1 s3.
Proof. unfold keeps_fields. intros (?&?&?&?) (?&?&?&?). split_and!; auto. Qed.

Lemma keeps_fields_setattr (s : Song.t) (kw : Song.kwarg) :
  keeps_fields s (Song.setattr s kw).
Proof.
  destruct kw as [v|v|v|v|v|v|v|v|v|k v]; destruct v; simpl;
    try apply keeps_fields_refl; unfold keeps_fields; simpl; split_and!; eauto.
Qed.

Lemma keeps_fields_update (kwargs : list Song.kwarg) (now : Z) (s : Song.t) :
  keeps_fields s (Song.update_fields kwargs now s).1.
Proof.
  rewrite update_fields_object.
  apply keeps_fields_trans with (foldl Song.setattr s kwargs).
  - revert s. induction kwargs as [|kw kwargs IH]; intros s; [apply keeps_fields_refl|].
    simpl. eapply keeps_fields_trans; [apply keeps_fields_setattr | apply IH].
  - by repeat split.
Qed.

Lemma fmap_None_keeps {A B} (f : A -> B) (o1 o2 : option A) :
  (is_Some o1 -> is_Some o2) -> o2 = None -> f <$> o1 = None.
Proof. intros H ->. destruct o1; [|done]. by destruct (H ltac:(eauto)). Qed.

(** The document an update leaves reads as the merged record. *)
Lemma from_dict_merged (now now' : Z) (d : document) (old new : Song.t) :
  Song.from_dict now d = Ok old ->
  Song._validate new = Ok tt ->
  keeps_fields old new ->
  Song.from_dict now' (Song.to_dict new ∪ d) = Ok (merged_form old new).
Proof.
  intros Hold Hnew (Kg & Ky & Kd & Ki).
  apply from_dict_inv in Hold as (_ & Dg & Dy & Dd & Di & _).
  destruct (to_dict_lookup new) as (Ht & Ha & Hu & Hg & Hy & Hdu & Hc & Hup & Hi).
  assert (Lt := lookup_union_Some_l _ d _ _ Ht).
  assert (La := lookup_union_Some_l _ d _ _ Ha).
  assert (Lu := lookup_union_Some_l _ d _ _ Hu).
  assert (Lc := lookup_union_Some_l _ d _ _ Hc).
  assert (Lup := lookup_union_Some_l _ d _ _ Hup).
  assert (Lg : (Song.to_dict new ∪ d) !! "genre"
               = VStr <$> (if truthy_opt (Song.genre new) then strip <$> Song.genre new
                           else Song.genre old)).
  { destruct (truthy_opt (Song.genre new)) eqn:E.
    - destruct (Song.genre new) as [g|]; [|done]. simpl in *.
      by apply lookup_union_Some_l.
    - rewrite lookup_union_r by done. exact Dg. }
  assert (Ly : (Song.to_dict new ∪ d) !! "year" = (VInt <$> Song.year new)).
  { destruct (Song.year new) as [y|] eqn:E; simpl in *.
    - by apply lookup_union_Some_l.
    - rewrite lookup_union_r by done. rewrite Dy. by apply (fmap_None_keeps _ _ None). }
  assert (Ld : (Song.to_dict new ∪ d) !! "duration" = (VInt <$> Song.duration new)).
  { destruct (Song.duration new) as [y|] eqn:E; simpl in *.
    - by apply lookup_union_Some_l.
    - rewrite lookup_union_r by done. rewrite Dd. by apply (fmap_None_keeps _ _ None). }
  assert (Li : (Song.to_dict new ∪ d) !! "_id" = (VOid <$> Song.id new)).
  { destruct (Song.id new) as [y|] eqn:E; simpl in *.
    - by apply lookup_union_Some_l.
    - rewrite lookup_union_r by done. rewrite Di. by apply (fmap_None_keeps _ _ None). }
  unfold Song.from_dict, get_str, get_int, get_time, get_oid.
  rewrite Lt, La, Lu, Lg, Ly, Ld, Lc, Lup, Li.
  assert (Hm : Song._validate (merged_form old new) = Ok tt).
  { apply validate_ok_iff. apply validate_ok_iff in Hnew.
    unfold checked_invariants, merged_form in *; simpl. by rewrite !strip_idem. }
  apply new_ok_iff in Hm. unfold merged_form in *.
  destruct (truthy_opt (Song.genre new)), (Song.genre new), (Song.genre old),
    (Song.year new), (Song.duration new), (Song.id new); simpl in *; exact Hm.
Qed.

Lemma update_first_split (q upd d : document) (coll : list document) :
  List.find (matches q) coll = Some d ->
  (upd ∪ d) !! "_id" = d !! "_id" ->
  exists l1 l2 n,
    coll = (l1 ++ d :: l2)%list /\
    update_first q upd coll = Ok ((l1 ++ (upd ∪ d) :: l2)%list, n) /\
    (forall x, x ∈ l1 -> matches q x = false).
Proof.
  intros Hf Hid. induction coll as [|a coll IH]; [discriminate|].
  simpl in *. destruct (matches q a) eqn:Ha.
  - injection Hf as ->. rewrite bool_decide_eq_true_2 by exact Hid.
    exists [], coll. destruct (bool_decide (upd ∪ d = d)) eqn:E.
    + apply bool_decide_eq_true in E. exists 0%nat. rewrite E.
      split_and!; try done. intros x Hx. by apply elem_of_nil in Hx.
    + exists 1%nat. split_and!; try done. intros x Hx. by apply elem_of_nil in Hx.
  - destruct (IH Hf) as (l1 & l2 & n & -> & -> & Hl1).
    exists (a :: l1), l2, n. split_and!; try done.
    intros x Hx. apply elem_of_cons in Hx as [->|Hx]; auto.
Qed.

Lemma find_in_middle (f : document -> bool) (l1 l2 : list document) (d : document) :
  (forall x, x ∈ l1 -> f x = false) -> f d = true ->
  List.find f (l1 ++ d :: l2) = Some d.
Proof.
  intros Hl Hd. induction l1 as [|a l IH]; simpl.
  - by rewrite Hd.
  - rewrite (Hl a) by apply list_elem_of_here. apply IH.
    intros x Hx. apply Hl. by apply list_elem_of_further.
Qed.

(** X8.  After an update that keeps the owner and the identifier, the
    record read back by the owner is the updated record as stored: title,
    artist and owner trimmed, year, duration and creation time as
    updated, updatedAt the time of the update.  The genre is the new one
    trimmed, except that a genre updated to the empty string is not
    written: the stored genre stays.  Only the one document changes. *)
Theorem X8_update_then_get
    (u song_id : string) (o : ObjectId) (kw : list Song.kwarg)
    (w : world) (d : document) (song : Song.t) :
  ready w ->
  pending_songs_fault (after_songs_call w) = None ->
  pending_songs_fault (after_songs_call (after_songs_call w)) = None ->
  ObjectId_of_str song_id = Some o ->
  List.find (matches (by_id_and_user o u)) (songs w) = Some d ->
  Song.from_dict (clock w) d = Ok song ->
  Song._validate (Song.update_fields kw (clock w) song).1 = Ok tt ->
  Song.id (Song.update_fields kw (clock w) song).1 = Song.id song ->
  strip (Song.username (Song.update_fields kw (clock w) song).1) = u ->
  (SongsDatabase.get_song_by_id u song_id
     (SongsDatabase.update_song u song_id kw w).2).1
    = Ok (Some (merged_form song (Song.update_fields kw (clock w) song).1)) /\
  exists l1 l2,
    songs w = (l1 ++ d :: l2)%list /\
    songs (SongsDatabase.update_song u song_id kw w).2
      = (l1 ++ (Song.to_dict (Song.update_fields kw (clock w) song).1 ∪ d) :: l2)%list.
Proof.
  intros [Hconn Hp1] Hp2 Hp3 Ho Hfind Hread Hvalid Hid Hown.
  set (song' := (Song.update_fields kw (clock w) song).1) in *.
  assert (Hmatch : d !! "_id" = Some (VOid o)).
  { apply List.find_some in Hfind as [_ Hm].
    by apply matches_by_id_and_user in Hm as [? _]. }
  destruct (to_dict_lookup song') as (_ & _ & Hu & _ & _ & _ & _ & _ & Hi).
  rewrite Hid, (from_dict_id _ _ _ _ Hread Hmatch) in Hi. simpl in Hi.
  assert (Hkeep : (Song.to_dict song' ∪ d) !! "_id" = d !! "_id").
  { rewrite Hmatch. by apply lookup_union_Some_l. }
  destruct (update_first_split _ _ _ _ Hfind Hkeep) as (l1 & l2 & n & Hsplit & Hupd & Hl1).
  assert (Hrun : SongsDatabase.update_song u song_id kw w
                 = (Ok (0 <? n)%nat,
                    set_songs (l1 ++ (Song.to_dict song' ∪ d) :: l2)%list
                              (after_songs_call (after_songs_call w)))).
  { rewrite update_song_eq, get_song_by_id_eq, Hconn, Ho, Hp1, Hfind, Hread.
    change (clock (after_songs_call w)) with (clock w).
    rewrite update_fields_outcome, <- update_fields_object.
    fold song'. rewrite Hvalid, Hp2.
    change (songs (after_songs_call w)) with (songs w).
    by rewrite Hupd. }
  rewrite Hrun. split; [|by exists l1, l2].
  rewrite get_song_by_id_eq. cbn [connected set_songs after_songs_call set_songs_faults fst snd].
  rewrite Hconn, Ho.
  change (pending_songs_fault (set_songs _ (after_songs_call (after_songs_call w))))
    with (pending_songs_fault (after_songs_call (after_songs_call w))).
  rewrite Hp3. cbn [songs clock set_songs].
  rewrite find_in_middle; [| exact Hl1 |].
  - change (clock (after_songs_call (after_songs_call w))) with (clock w).
    rewrite (from_dict_merged (clock w) (clock w) d song song' Hread Hvalid).
    + reflexivity.
    + apply keeps_fields_update.
  - apply matches_by_id_and_user. split.
    + by apply lookup_union_Some_l.
    + apply lookup_union_Some_l. by rewrite Hu, Hown.
Qed.

Lemma X8_update_then_get_witness :
  (SongsDatabase.get_song_by_id "alice" id_2
     (SongsDatabase.update_song "alice" id_2
        [Song.kw_title (Some " Song 2 (Live) "); Song.kw_genre (Some "")] world_rock).2).1
  = Ok (Some (Song.mk "Song 2 (Live)" "Artist" "alice" (Some "Rock") (Some 1999) None
                      1500 2000 (Some (Oid 2)))).
Proof.
  apply (X8_update_then_get "alice" id_2 (Oid 2)
           [Song.kw_title (Some " Song 2 (Live) "); Song.kw_genre (Some "")]
           world_rock rock_doc
           (Song.mk "Song 2" "Artist" "alice" (Some "Rock") (Some 1999) None
                    1500 1500 (Some (Oid 2)))); try reflexivity.
  by split.
Defined.

(** ** Repository: documents stay readable *)

Lemma update_first_cases (q upd : document) (coll coll' : list document) (n : nat) :
  update_first q upd coll = Ok (coll', n) ->
  coll' = coll \/
  exists l1 l2 d,
    coll = (l1 ++ d :: l2)%list /\
    List.find (matches q) coll = Some d /\
    coll' = (l1 ++ (upd ∪ d) :: l2)%list.
Proof.
  revert coll' n. induction coll as [|a coll IH]; intros coll' n; simpl.
  - intros [= <- _]. by left.
  - destruct (matches q a) eqn:Ha.
    + destruct (bool_decide (_ !! "_id" = _)); [|discriminate].
      destruct (bool_decide (_ = a)); intros [= <- _]; [by left|].
      right. by exists [], coll, a.
    + destruct (update_first q upd coll) as [[c m]|e]; [|discriminate].
      simpl. intros [= <- _].
      destruct (IH c m eq_refl) as [->|(l1 & l2 & d & -> & Hf & ->)]; [by left|].
      right. by exists (a :: l1), l2, d.
Qed.

(** An update changes at most the document it loaded. *)
Lemma update_song_cases (u song_id : string) (kw : list Song.kwarg) (w : world) :
  songs (SongsDatabase.update_song u song_id kw w).2 = songs w \/
  exists l1 l2 d old,
    songs w = (l1 ++ d :: l2)%list /\
    Song.from_dict (clock w) d = Ok old /\
    Song._validate (Song.update_fields kw (clock w) old).1 = Ok tt /\
    songs (SongsDatabase.update_song u song_id kw w).2
      = (l1 ++ (Song.to_dict (Song.update_fields kw (clock w) old).1 ∪ d) :: l2)%list.
Proof.
  rewrite update_song_eq, get_song_by_id_eq.
  destruct (connected w); [|by left].
  destruct (ObjectId_of_str song_id) as [o|]; [|by left].
  destruct (pending_songs_fault w); [by left|].
  destruct (List.find _ (songs w)) as [d|] eqn:Hfind; [|by left].
  destruct (Song.from_dict (clock w) d) as [old|e] eqn:Hread; [|by left].
  change (clock (after_songs_call w)) with (clock w).
  rewrite update_fields_outcome, <- update_fields_object.
  destruct (Song._validate _) as [[]|e] eqn:Hv; [|by left].
  destruct (pending_songs_fault (after_songs_call w)); [by left|].
  change (songs (after_songs_call w)) with (songs w).
  destruct (update_first _ _ (songs w)) as [[coll n]|e] eqn:Hupd; [|by left].
  simpl. apply update_first_cases in Hupd as [->|(l1 & l2 & d' & Hs & Hf & ->)]; [by left|].
  rewrite Hfind in Hf. injection Hf as <-.
  right. by exists l1, l2, d, old.
Qed.

(** X9.  The repository never leaves a document it cannot read: if every
    document of the songs collection reads as a record, so does every
    document after adding a valid record, after an update and after a
    delete, whatever their outcome. *)
Theorem X9_documents_stay_readable
    (s : Song.t) (u song_id : string) (kw : list Song.kwarg) (w : world) :
  readable (songs w) ->
  (Song._validate s = Ok tt -> readable (songs (SongsDatabase.add_song s w).2)) /\
  readable (songs (SongsDatabase.update_song u song_id kw w).2) /\
  readable (songs (SongsDatabase.delete_song u song_id w).2).
Proof.
  intros Hr. split_and!.
  - intros Hv. destruct (db_add_song_outcome s w) as (Hok & Hfail & _).
    destruct (SongsDatabase.add_song s w) as [[o|e] w1] eqn:E; simpl in *.
    + destruct (Hok o eq_refl) as (_ & -> & _).
      intros d now Hd. apply elem_of_app in Hd as [Hd|Hd]; [by apply Hr|].
      apply list_elem_of_singleton in Hd as ->.
      rewrite from_dict_to_dict.
      change (stored_form (with_id o s)) with (with_id o (stored_form s)).
      apply validate_stored_form in Hv.
      assert (Hn : Song._validate (with_id o (stored_form s)) = Ok tt).
      { apply validate_ok_iff. by apply validate_ok_iff in Hv. }
      apply new_ok_iff in Hn. by rewrite Hn.
    + by destruct (Hfail e eq_refl) as [_ ->].
  - destruct (update_song_cases u song_id kw w)
      as [->|(l1 & l2 & d & old & Hs & Hread & Hv & ->)]; [done|].
    intros x now Hx. rewrite Hs in Hr.
    apply elem_of_app in Hx as [Hx|Hx].
    + apply Hr. apply elem_of_app. by left.
    + apply elem_of_cons in Hx as [->|Hx].
      * rewrite (from_dict_merged (clock w) now d old _ Hread Hv); [done|].
        apply keeps_fields_update.
      * apply Hr. apply elem_of_app. right. by apply list_elem_of_further.
  - intros d now Hd. apply Hr.
    eapply sublist_subseteq; [apply delete_song_songs | exact Hd].
Qed.

Lemma X9_documents_stay_readable_witness :
  readable (songs (SongsDatabase.add_song song_2 world_alice).2) /\
  readable (songs (SongsDatabase.update_song "alice" id_1
                     [Song.kw_title (Some "Song 1 (Remix)")] world_alice).2).
Proof.
  destruct (X9_documents_stay_readable song_2 "alice" id_1
              [Song.kw_title (Some "Song 1 (Remix)")] world_alice) as (Ha & Hu & _).
  - intros d now Hd. apply list_elem_of_singleton in Hd as ->.
    change alice_doc with (Song.to_dict song_1_stored).
    rewrite from_dict_to_dict. reflexivity.
  - split; [apply Ha; reflexivity | exact Hu].
Defined.

(** ** Repository: listing, history, search *)

Lemma matches_by_user (u : string) (d : document) :
  matches (by_user u) d = true <-> d !! "username" = Some (VStr u).
Proof.
  unfold matches, by_user. rewrite bool_decide_eq_true.
  rewrite map_Forall_insert by (by simplify_map_eq).
  split; [by intros [? _]|]. intros H. split; [done|apply map_Forall_empty].
Qed.

Lemma map_result_ok_inv {A B} (f : A -> result B) (xs : list A) (ys : list B) :
  map_result f xs = Ok ys -> Forall2 (fun x y => f x = Ok y) xs ys.
Proof.
  revert ys. induction xs as [|x xs IH]; intros ys; simpl.
  - intros [= <-]. constructor.
  - intros H. apply rbind_ok_inv in H as (y & Hy & H).
    apply rbind_ok_inv in H as (ys' & Hys & H). injection H as <-.
    constructor; auto.
Qed.

Lemma Forall2_elem_r {A B} (P : A -> B -> Prop) (xs : list A) (ys : list B) (y : B) :
  Forall2 P xs ys -> y ∈ ys -> exists x, x ∈ xs /\ P x y.
Proof.
  induction 1 as [|x y' xs ys Hxy HF IH]; intros Hy.
  - by apply elem_of_nil in Hy.
  - apply elem_of_cons in Hy as [->|Hy].
    + exists x. split; [apply list_elem_of_here|done].
    + destruct (IH Hy) as (x' & Hx' & HP). exists x'. split; [|done].
      by apply list_elem_of_further.
Qed.

Lemma from_dict_texts (now : Z) (d : document) (s : Song.t) :
  Song.from_dict now d = Ok s ->
  (forall t, d !! "title" = Some (VStr t) -> Song.title s = t) /\
  (forall a, d !! "artist" = Some (VStr a) -> Song.artist s = a).
Proof.
  unfold Song.from_dict. intros H.
  apply rbind_ok_inv in H as (t & Ht & H).
  apply rbind_ok_inv in H as (a & Ha & H).
  apply rbind_ok_inv in H as (u & Hu & H).
  apply rbind_ok_inv in H as (g & Hg & H).
  apply rbind_ok_inv in H as (y & Hy & H).
  apply rbind_ok_inv in H as (du & Hdu & H).
  apply rbind_ok_inv in H as (c & Hc & H).
  apply rbind_ok_inv in H as (up & Hup & H).
  apply rbind_ok_inv in H as (i & Hi & H).
  unfold Song.new in H. apply rbind_ok_inv in H as ([] & Hv & H).
  injection H as <-. simpl.
  apply get_str_ok in Ht, Ha. split.
  - intros t' E. rewrite E in Ht. destruct t; [|done]. by injection Ht as ->.
  - intros a' E. rewrite E in Ha. destruct a; [|done]. by injection Ha as ->.
Qed.

Lemma find_sorted_elem (q : document) (field : string) (coll : list document) (d : document) :
  d ∈ find_sorted q field coll <-> d ∈ coll /\ matches q d = true.
Proof.
  unfold find_sorted. rewrite merge_sort_Permutation.
  rewrite list_elem_of_In, filter_In, <- list_elem_of_In. done.
Qed.

Lemma find_sorted_length (q : document) (field : string) (coll : list document) :
  List.length (find_sorted q field coll) = List.length (List.filter (matches q) coll).
Proof. unfold find_sorted. apply Permutation_length, merge_sort_Permutation. Qed.

Lemma cursor_limit_length (n : Z) (l : list document) :
  n <> 0 -> (List.length (cursor_limit n l) <= Z.abs_nat n)%nat.
Proof.
  intros Hn. unfold cursor_limit. destruct (Z.eqb_spec n 0); [done|].
  rewrite length_take. lia.
Qed.

Lemma get_songs_run (username : option string) (limit : option Z) (w : world) l :
  (SongsDatabase.get_songs username limit w).1 = Ok l ->
  ready w /\
  map_result (Song.from_dict (clock w))
    (let cursor :=
       find_sorted
         (if truthy_opt username then set_opt "username" (VStr <$> username) ∅ else ∅)
         "created_at" (songs w) in
     match limit with
     | Some n => cursor_limit n cursor
     | None => cursor
     end) = Ok l.
Proof.
  intros H.
  assert (Hc : connected w = true).
  { unfold SongsDatabase.get_songs, SongsDatabase._ensure_connected, bind in H.
    destruct (connected w); [done|discriminate]. }
  assert (Hp : pending_songs_fault w = None).
  { unfold SongsDatabase.get_songs, SongsDatabase._ensure_connected, bind, try_except in H.
    rewrite Hc, songs_call_eq in H.
    destruct (pending_songs_fault w); [discriminate|done]. }
  split; [done|]. rewrite get_songs_eq in H by done. simpl in H.
  destruct (map_result _ _); [done|discriminate].
Qed.

(** X10.  A listing for a named owner returns that owner's records only,
    and never more than the limit asks for (taken in absolute value; a
    limit of zero, like no limit, returns them all).  It changes neither
    collection. *)
Theorem X10_listing_by_owner (u : string) (limit : option Z) (w : world) (l : list Song.t) :
  u <> "" ->
  (SongsDatabase.get_songs (Some u) limit w).1 = Ok l ->
  (forall r, r ∈ l -> Song.username r = u) /\
  (forall n, limit = Some n -> n <> 0 -> (List.length l <= Z.abs_nat n)%nat) /\
  (limit = None \/ limit = Some 0 ->
   List.length l = List.length (List.filter (matches (by_user u)) (songs w))) /\
  songs (SongsDatabase.get_songs (Some u) limit w).2 = songs w /\
  history (SongsDatabase.get_songs (Some u) limit w).2 = history w.
Proof.
  intros Hu H. apply get_songs_run in H as H'. destruct H' as [[Hc Hp] Hrun].
  apply truthy_true in Hu. cbn [truthy_opt set_opt fmap option_fmap option_map] in Hrun.
  rewrite Hu in Hrun. fold (by_user u) in Hrun.
  apply map_result_ok_inv in Hrun.
  split_and!.
  - intros r Hr. destruct (Forall2_elem_r _ _ _ _ Hrun Hr) as (d & Hd & Hread).
    assert (Hin : d ∈ find_sorted (by_user u) "created_at" (songs w)).
    { destruct limit; [by eapply cursor_limit_subseteq | done]. }
    apply find_sorted_elem in Hin as [_ Hm]. apply matches_by_user in Hm.
    by apply from_dict_inv in Hread as (_ & _ & _ & _ & _ & Hown); apply Hown.
  - intros n -> Hn. rewrite <- (Forall2_length _ _ _ Hrun). by apply cursor_limit_length.
  - intros Hl. rewrite <- (Forall2_length _ _ _ Hrun), <- (find_sorted_length _ "created_at").
    by destruct Hl as [-> | ->].
  - rewrite get_songs_eq by done. reflexivity.
  - rewrite get_songs_eq by done. reflexivity.
Qed.

Lemma X10_listing_by_owner_witness :
  exists l,
    (SongsDatabase.get_songs (Some "alice") (Some (-1)) world_shared).1 = Ok l /\
    (forall r, r ∈ l -> Song.username r = "alice") /\
    (List.length l <= 1)%nat.
Proof.
  eexists. split; [vm_compute; reflexivity|].
  edestruct (X10_listing_by_owner "alice" (Some (-1)) world_shared) as (Hown & Hlen & _).
  - discriminate.
  - vm_compute. reflexivity.
  - split; [exact Hown|]. apply (Hlen (-1)); [reflexivity|lia].
Defined.
Lemma history_call_eq (w : world) :
  history_call w =
  (match pending_history_fault w with
   | Some f => Raise (exn_of_fault f)
   | None => Ok tt
   end,
   set_history_faults (next_fault (history_faults w)).2 w).
Proof.
  unfold history_call, pending_history_fault.
  destruct (next_fault (history_faults w)) as [[f|] plan]; reflexivity.
Qed.

Lemma get_history_run (u : string) (limit : Z) (w : world) l :
  (SongsDatabase.get_history u limit w).1 = Ok l ->
  history_ready w /\
  map_result (HistoryEntry.from_dict (clock w))
    (cursor_limit limit (find_sorted (by_user u) "timestamp" (history w))) = Ok l /\
  songs (SongsDatabase.get_history u limit w).2 = songs w /\
  history (SongsDatabase.get_history u limit w).2 = history w.
Proof.
  unfold SongsDatabase.get_history, SongsDatabase._ensure_connected, bind, try_except.
  destruct (connected w) eqn:Hc; [|discriminate].
  rewrite history_call_eq.
  destruct (pending_history_fault w) eqn:Hp; [discriminate|].
  unfold now. simpl. fold (by_user u).
  destruct (map_result _ _) as [l'|e]; simpl; [|discriminate].
  intros [= <-]. by repeat split.
Qed.

Lemma entry_from_dict_inv (now : Z) (d : document) (e : HistoryEntry.t) :
  HistoryEntry.from_dict now d = Ok e ->
  (forall u, d !! "username" = Some (VStr u) -> HistoryEntry.username e = u) /\
  (forall t, d !! "timestamp" = Some (VTime t) -> HistoryEntry.timestamp e = t).
Proof.
  unfold HistoryEntry.from_dict. intros H.
  apply rbind_ok_inv in H as (u & Hu & H).
  apply rbind_ok_inv in H as (a & Ha & H).
  apply rbind_ok_inv in H as (t & Ht & H).
  apply rbind_ok_inv in H as (ar & Har & H).
  apply rbind_ok_inv in H as (ts & Hts & H).
  apply rbind_ok_inv in H as (i & Hi & H).
  unfold HistoryEntry.new in H. apply rbind_ok_inv in H as ([] & Hv & H).
  injection H as <-. simpl.
  apply get_str_ok in Hu. apply get_time_ok in Hts. split.
  - intros u' E. rewrite E in Hu. destruct u; [|done]. by injection Hu as ->.
  - intros t' E. rewrite E in Hts. destruct ts; [|done]. by injection Hts as ->.
Qed.

#[global] Instance latest_first_trans : Transitive latest_first.
Proof. unfold latest_first. intros x y z. lia. Qed.

(** X11.  The history of a user holds entries of that user only, at most
    as many as the limit asks for (in absolute value; zero asks for all),
    and, the stored entries carrying their timestamps, the latest first.
    Reading it changes neither collection. *)
Theorem X11_history_of_user (u : string) (limit : Z) (w : world) (l : list HistoryEntry.t) :
  (SongsDatabase.get_history u limit w).1 = Ok l ->
  (forall e, e ∈ l -> HistoryEntry.username e = u) /\
  (limit <> 0 -> (List.length l <= Z.abs_nat limit)%nat) /\
  (limit = 0 ->
   List.length l = List.length (List.filter (matches (by_user u)) (history w))) /\
  ((forall d, d ∈ history w -> exists t, d !! "timestamp" = Some (VTime t)) ->
   StronglySorted latest_first l) /\
  songs (SongsDatabase.get_history u limit w).2 = songs w /\
  history (SongsDatabase.get_history u limit w).2 = history w.
Proof.
  intros H. apply get_history_run in H as (_ & Hrun & Hs & Hh).
  apply map_result_ok_inv in Hrun.
  assert (Hin : forall d, d ∈ cursor_limit limit
                            (find_sorted (by_user u) "timestamp" (history w)) ->
                          d ∈ history w /\ d !! "username" = Some (VStr u)).
  { intros d Hd. apply cursor_limit_subseteq in Hd.
    apply find_sorted_elem in Hd as [Hd Hm]. by apply matches_by_user in Hm. }
  split_and!; try done.
  - intros e He. destruct (Forall2_elem_r _ _ _ _ Hrun He) as (d & Hd & Hread).
    destruct (Hin d Hd) as [_ Hu].
    by apply entry_from_dict_inv in Hread as [Hown _]; apply Hown.
  - intros Hn. rewrite <- (Forall2_length _ _ _ Hrun). by apply cursor_limit_length.
  - intros ->. rewrite <- (Forall2_length _ _ _ Hrun),
      <- (find_sorted_length _ "timestamp"). reflexivity.
  - intros Hts. apply Sorted_StronglySorted; [apply _|].
    assert (Hsorted : Sorted (desc_by "timestamp")
                        (cursor_limit limit
                           (find_sorted (by_user u) "timestamp" (history w)))).
    { apply Sorted_cursor_limit. apply Sorted_merge_sort. apply _. }
    clear Hs Hh. revert Hrun Hsorted Hin. generalize (cursor_limit limit
                           (find_sorted (by_user u) "timestamp" (history w))).
    intros ds Hrun' Hsorted Hin.
    induction Hrun' as [|d e ds' l' Hde HF IH]; [constructor|].
    apply Sorted_inv in Hsorted as [Hsorted Hhd].
    constructor.
    + apply IH; [done|]. intros x Hx. apply Hin. by apply list_elem_of_further.
    + destruct HF as [|d' e' ds'' l'' Hde' HF]; constructor.
      apply HdRel_inv in Hhd.
      destruct (Hin d) as [Hd _]; [apply list_elem_of_here|].
      destruct (Hin d') as [Hd' _]; [apply list_elem_of_further, list_elem_of_here|].
      destruct (Hts d Hd) as [t Ht]. destruct (Hts d' Hd') as [t' Ht'].
      apply entry_from_dict_inv in Hde as [_ Hte]. apply entry_from_dict_inv in Hde' as [_ Hte'].
      unfold latest_first. rewrite (Hte t Ht), (Hte' t' Ht').
      unfold desc_by in Hhd. rewrite Ht, Ht' in Hhd. simpl in Hhd.
      apply Is_true_true in Hhd. lia.
Qed.

Lemma X11_history_of_user_witness :
  exists l,
    (SongsDatabase.get_history "alice" 10 world_shared).1 = Ok l /\
    HistoryEntry.action <$> l = ["viewed"; "added"] /\
    StronglySorted latest_first l.
Proof.
  eexists. split; [vm_compute; reflexivity|]. split; [reflexivity|].
  edestruct (X11_history_of_user "alice" 10 world_shared) as (_ & _ & _ & Hs & _).
  - vm_compute. reflexivity.
  - apply Hs. intros d Hd.
    repeat (apply elem_of_cons in Hd as [->|Hd]; [eexists; vm_compute; reflexivity|]).
    by apply elem_of_nil in Hd.
Defined.

(** ** Search *)

Lemma search_songs_run rs (u term : string) (w : world) l :
  (SongsDatabase.search_songs rs u term w).1 = Ok l ->
  ready w /\
  map_result (Song.from_dict (clock w))
    (List.filter
       (fun d => matches (by_user u) d
                 && (SongsDatabase.regex_field rs term "title" d
                     || SongsDatabase.regex_field rs term "artist" d))
       (songs w)) = Ok l /\
  songs (SongsDatabase.search_songs rs u term w).2 = songs w /\
  history (SongsDatabase.search_songs rs u term w).2 = history w.
Proof.
  unfold SongsDatabase.search_songs, SongsDatabase._ensure_connected, bind, try_except.
  destruct (connected w) eqn:Hc; [|discriminate].
  rewrite songs_call_eq.
  destruct (pending_songs_fault w) eqn:Hp; [discriminate|].
  unfold now. simpl. fold (by_user u).
  destruct (map_result _ _) as [l'|e]; simpl; [|discriminate].
  intros [= <-]. by repeat split.
Qed.

(** X12.  A search trims its term; a term that is empty after trimming is
    rejected with a ValueError before any connection is opened, the world
    untouched.  Every record a search returns belongs to the searching
    owner and has a title or an artist in which the server's
    case-insensitive regular-expression search of the trimmed term
    succeeds; searching changes neither collection. *)
Theorem X12_search_results rs (u term : string) (w : world) :
  (strip term = "" ->
   SongsService.search_songs rs u term w
     = (Raise (Exn ValueError "Invalid search: Search term cannot be empty"), w)) /\
  (forall l,
     (SongsService.search_songs rs u term w).1 = Ok l ->
     strip term <> "" /\
     (forall r, r ∈ l ->
        Song.username r = u /\
        (rs (strip term) (Song.title r) = true \/
         rs (strip term) (Song.artist r) = true)) /\
     songs (SongsService.search_songs rs u term w).2 = songs w /\
     history (SongsService.search_songs rs u term w).2 = history w).
Proof.
  split.
  - intros Hb. unfold SongsService.search_songs, try_except. by rewrite Hb.
  - intros l H.
    assert (Hne : strip term <> "").
    { unfold SongsService.search_songs, try_except in H.
      destruct (truthy (strip term)) eqn:Ht; [by apply truthy_true|discriminate]. }
    apply truthy_true in Hne as Ht.
    assert (Hrun : SongsService.search_songs rs u term w
                   = ((SongsDatabase.search_songs rs u (strip term) (session w)).1,
                      SongsDatabase.close
                        (SongsDatabase.search_songs rs u (strip term) (session w)).2)
                   /\ (SongsDatabase.search_songs rs u (strip term) (session w)).1 = Ok l).
    { unfold SongsService.search_songs, try_except in *. rewrite Ht in *.
      cbn [negb] in *. rewrite with_db_eq in *.
      destruct (pending_connect_fault w) as [f|].
      { unfold connect_error in H. destruct (fault_is f); discriminate. }
      simpl in *.
      destruct (SongsDatabase.search_songs rs u (strip term) (session w)) as [[l'|e] w'];
        simpl in *; [done|].
      destruct (exn_cls e); discriminate. }
    destruct Hrun as [-> Hdb].
    apply search_songs_run in Hdb as (_ & Hrun & Hs & Hh).
    apply map_result_ok_inv in Hrun. split_and!; try done.
    intros r Hr. destruct (Forall2_elem_r _ _ _ _ Hrun Hr) as (d & Hd & Hread).
    apply list_elem_of_In, filter_In in Hd as [_ Hd].
    apply andb_true_iff in Hd as [Hm Hrx]. apply matches_by_user in Hm.
    pose proof (from_dict_texts _ _ _ Hread) as [Ht' Ha'].
    apply from_dict_inv in Hread as (_ & _ & _ & _ & _ & Hown).
    split; [by apply Hown|].
    apply orb_true_iff in Hrx as [Hrx|Hrx]; [left|right];
      unfold SongsDatabase.regex_field in Hrx.
    + destruct (d !! "title") as [[t| | |]|] eqn:E; try discriminate.
      by rewrite (Ht' t eq_refl).
    + destruct (d !! "artist") as [[t| | |]|] eqn:E; try discriminate.
      by rewrite (Ha' t eq_refl).
Qed.

Lemma X12_search_results_witness :
  SongsService.search_songs contains "alice" "   " world_idle
    = (Raise (Exn ValueError "Invalid search: Search term cannot be empty"), world_idle) /\
  exists l,
    (SongsService.search_songs contains "alice" " Song " world_shared).1 = Ok l /\
    Song.title <$> l = ["Song 1"; "Song 2"] /\
    forall r, r ∈ l -> Song.username r = "alice".
Proof.
  destruct (X12_search_results contains "alice" "   " world_idle) as [Hblank _].
  destruct (X12_search_results contains "alice" " Song " world_shared) as [_ Hok].
  split; [by apply Hblank|].
  eexists. split; [vm_compute; reflexivity|]. split; [reflexivity|].
  intros r Hr. edestruct Hok as (_ & Hall & _); [vm_compute; reflexivity|].
  by apply Hall.
Defined.

(** ** Lifecycle of a session *)

(** X13.  Before a connection, and after the session is closed, every
    operation of the repository and of the audit log raises "Database not
    connected" and leaves the world as it is.  A [with DatabaseManager()]
    block always ends with the session closed; when the connection cannot
    be opened its body does not run, the collections are untouched, and
    the error is a DatabaseError that says whether the store was
    unreachable.  Closing twice is closing once. *)
Theorem X13_session_lifecycle :
  (forall w s u i kw l n rs t e,
     connected w = false ->
     SongsDatabase.add_song s w = (Raise not_connected, w) /\
     SongsDatabase.get_songs l n w = (Raise not_connected, w) /\
     SongsDatabase.search_songs rs u t w = (Raise not_connected, w) /\
     SongsDatabase.get_song_by_id u i w = (Raise not_connected, w) /\
     SongsDatabase.update_song u i kw w = (Raise not_connected, w) /\
     SongsDatabase.delete_song u i w = (Raise not_connected, w) /\
     SongsDatabase.add_history_entry e w = (Raise not_connected, w) /\
     SongsDatabase.get_history u (default 10 n) w = (Raise not_connected, w)) /\
  (forall A (body : M A) w, connected (with_db body w).2 = false) /\
  (forall A (body : M A) w f,
     pending_connect_fault w = Some f ->
     same_store w (with_db body w).2 /\
     (with_db body w).1
       = Raise (Exn DatabaseError
                  ((if bool_decide (fault_is f = connection_failure \/
                                    fault_is f = server_selection_timeout)
                    then "Database connection failed: "
                    else "Unexpected database error: ") +:+ fault_msg f))) /\
  (forall w, SongsDatabase.close (SongsDatabase.close w) = SongsDatabase.close w) /\
  (forall w u i, (SongsDatabase.get_song_by_id u i (SongsDatabase.close w)).1
                 = Raise not_connected).
Proof.
  split_and!.
  - intros w s u i kw l n rs t e Hc.
    unfold SongsDatabase.add_song, SongsDatabase.get_songs, SongsDatabase.search_songs,
      SongsDatabase.get_song_by_id, SongsDatabase.update_song, SongsDatabase.delete_song,
      SongsDatabase.add_history_entry, SongsDatabase.get_history,
      SongsDatabase._ensure_connected, bind.
    rewrite Hc. by repeat split.
  - intros A body w. rewrite with_db_eq.
    destruct (pending_connect_fault w); reflexivity.
  - intros A body w f Hf. rewrite with_db_eq, Hf. split; [by split|].
    simpl. unfold connect_error.
    destruct (fault_is f); simpl; try reflexivity;
      rewrite ?bool_decide_eq_true_2 by auto; try reflexivity;
      rewrite bool_decide_eq_false_2; try reflexivity; intros [|]; discriminate.
  - reflexivity.
  - intros w u i. unfold SongsDatabase.get_song_by_id, SongsDatabase._ensure_connected, bind.
    reflexivity.
Qed.

Lemma X13_session_lifecycle_witness :
  connected (SongsService.list_songs (Some "alice") None world_alice).2 = false /\
  (SongsService.list_songs (Some "alice") None world_offline).1
    = Raise (Exn DatabaseError
               "Failed to list songs: Database connection failed: connection refused").
Proof.
  destruct X13_session_lifecycle as (_ & Hclosed & Hdown & _).
  split.
  - apply (Hclosed _ (SongsDatabase.get_songs (Some "alice") None) world_alice).
  - unfold SongsService.list_songs, try_except.
    destruct (Hdown _ (SongsDatabase.get_songs (Some "alice") None) world_offline
                (Fault connection_failure "connection refused") eq_refl) as [_ Hr].
    destruct (with_db _ world_offline) as [r w']. simpl in Hr. rewrite Hr. reflexivity.
Defined.

(** ** Services: what a use-case leaves behind *)

Lemma try_except_world {A} (body : M A) (handler : exn -> M A) (w : world) :
  (forall e w', (handler e w').2 = w') ->
  (try_except body handler w).2 = (body w).2.
Proof.
  intros Hh. unfold try_except. destruct (body w) as [[a|e] w']; [done|apply Hh].
Qed.

Lemma try_except_ok {A} (body : M A) (handler : exn -> M A) (w : world) (r : A) :
  (forall e w', is_ok (handler e w').1 = false) ->
  (try_except body handler w).1 = Ok r <-> (body w).1 = Ok r.
Proof.
  intros Hh. split; [by apply try_except_ok_inv|].
  unfold try_except. destruct (body w) as [[a|e] w']; [done|discriminate].
Qed.

Ltac handler_world :=
  let e := fresh "e" in
  intros e ?; destruct (exn_cls e); reflexivity.

Lemma update_first_zero (q upd : document) (coll coll' : list document) :
  update_first q upd coll = Ok (coll', 0%nat) -> coll' = coll.
Proof.
  revert coll'. induction coll as [|a coll IH]; intros coll'; simpl.
  - by intros [= <-].
  - destruct (matches q a).
    + destruct (bool_decide (_ !! "_id" = _)); [|discriminate].
      destruct (bool_decide (_ = a)); [by intros [= <-]|discriminate].
    + destruct (update_first q upd coll) as [[c m]|e]; [|discriminate].
      simpl. intros [= <- ->]. f_equal. by apply IH.
Qed.

Lemma db_update_song_unchanged (u song_id : string) kw (w : world) :
  (SongsDatabase.update_song u song_id kw w).1 <> Ok true ->
  songs (SongsDatabase.update_song u song_id kw w).2 = songs w.
Proof.
  rewrite update_song_eq.
  pose proof (get_song_by_id_songs u song_id w) as Hs.
  destruct (connected w); [|done].
  destruct (SongsDatabase.get_song_by_id u song_id w) as [[[s|]|e] w1];
    simpl in Hs; rewrite <- ?Hs; try done.
  destruct (Song.update_fields kw (clock w1) s).2; [|done].
  destruct (ObjectId_of_str song_id); [|done].
  destruct (pending_songs_fault w1); [done|].
  destruct (update_first _ _ _) as [[coll [|n]]|e] eqn:E; [| |done].
  - intros _. simpl. by apply update_first_zero in E.
  - intros H. by destruct H.
Qed.

Lemma delete_first_zero (q : document) (coll : list document) :
  (delete_first q coll).2 = 0%nat -> (delete_first q coll).1 = coll.
Proof.
  induction coll as [|a coll IH]; simpl; [done|].
  destruct (matches q a); simpl; [discriminate|]. intros H. f_equal. by apply IH.
Qed.

Lemma db_delete_song_unchanged (u song_id : string) (w : world) :
  (forall s, (SongsDatabase.delete_song u song_id w).1 <> Ok (Some s)) ->
  songs (SongsDatabase.delete_song u song_id w).2 = songs w.
Proof.
  rewrite delete_song_eq.
  pose proof (get_song_by_id_songs u song_id w) as Hs.
  destruct (connected w); [|done].
  destruct (SongsDatabase.get_song_by_id u song_id w) as [[[s|]|e] w1];
    simpl in Hs; rewrite <- ?Hs; try done.
  destruct (ObjectId_of_str song_id); [|done].
  destruct (pending_songs_fault w1); [done|].
  simpl. destruct (0 <? _)%nat eqn:E.
  - intros H. by destruct (H s).
  - intros _. apply delete_first_zero. apply Nat.ltb_ge in E. lia.
Qed.

Lemma delete_song_audit (u song_id : string) (w : world) :
  history (SongsDatabase.delete_song u song_id w).2 = history w /\
  oid_counter (SongsDatabase.delete_song u song_id w).2 = oid_counter w /\
  clock (SongsDatabase.delete_song u song_id w).2 = clock w.
Proof.
  rewrite delete_song_eq.
  pose proof (get_song_by_id_audit u song_id w) as [Hh Ho].
  pose proof (get_song_by_id_clock u song_id w) as Hc.
  destruct (SongsDatabase.get_song_by_id u song_id w) as [r w1]. simpl in *.
  destruct_matches; done.
Qed.

(** Name what the body of a session returned, in the equation [E] of a
    use-case, and open its first step. *)
Ltac name_body E :=
  match type of E with
  | context [(?body (session ?w)).1] =>
      let rb := fresh "rb" in
      let wb := fresh "wb" in
      destruct (body (session w)) as [rb wb] eqn:Hbody;
      cbn [fst snd] in E; unfold raise, ret in E;
      unfold bind at 1 in Hbody
  end.

(** X14.  A mutating use-case that does not report success has changed
    nothing: when adding raises, and when updating or deleting raises or
    returns false, the songs collection and the history collection are
    exactly as before. *)
Theorem X14_no_success_no_change :
  (forall username title artist genre year duration w,
     (SongsService.add_song username title artist genre year duration w).1 <> Ok true ->
     same_store w (SongsService.add_song username title artist genre year duration w).2) /\
  (forall username song_id kwargs w,
     (SongsService.update_song username song_id kwargs w).1 <> Ok true ->
     same_store w (SongsService.update_song username song_id kwargs w).2) /\
  (forall username song_id w,
     (SongsService.delete_song username song_id w).1 <> Ok true ->
     same_store w (SongsService.delete_song username song_id w).2).
Proof.
  split_and!.
  - intros u t a g y d w.
    destruct (SongsService.add_song u t a g y d w) as [r w'] eqn:E. simpl. intros H.
    unfold SongsService.add_song, try_except, now, lift in E.
    unfold bind at 1 in E. unfold bind at 1 in E. unfold bind at 1 in E.
    destruct (Song.new _) as [song|e0].
    2:{ destruct (exn_cls e0); injection E as _ <-; split; reflexivity. }
    rewrite with_db_eq in E. destruct (pending_connect_fault w) as [f|].
    { unfold connect_error in E. destruct (fault_is f); injection E as _ <-;
        split; reflexivity. }
    name_body E.
    destruct (db_add_song_outcome song (session w)) as (_ & Hfail & Hh).
    destruct (SongsDatabase.add_song song (session w)) as [[o|e] w2]; simpl in *.
    + destruct (log_history_spec u "added" t a w2) as (w3 & Hlog & _).
      unfold bind in Hbody. rewrite Hlog in Hbody. injection Hbody as <- <-.
      injection E as <- _. by destruct H.
    + destruct (Hfail e eq_refl) as [_ Hs]. injection Hbody as <- <-.
      destruct (exn_cls e); injection E as _ <-; split; done.
  - intros u song_id kw w.
    destruct (SongsService.update_song u song_id kw w) as [r w'] eqn:E. simpl. intros H.
    unfold SongsService.update_song, try_except in E.
    destruct (List.filter Song.kw_is_set kw) as [|k ks].
    { injection E as _ <-. split; reflexivity. }
    rewrite with_db_eq in E. destruct (pending_connect_fault w) as [f|].
    { unfold connect_error in E. destruct (fault_is f); injection E as _ <-;
        split; reflexivity. }
    name_body E.
    pose proof (get_song_by_id_songs u song_id (session w)) as Hs1.
    pose proof (get_song_by_id_audit u song_id (session w)) as [Hh1 _].
    destruct (SongsDatabase.get_song_by_id u song_id (session w)) as [[[orig|]|e] w2];
      simpl in Hs1, Hh1.
    2:{ injection Hbody as <- <-. injection E as _ <-. split; done. }
    2:{ injection Hbody as <- <-. destruct (exn_cls e); injection E as _ <-; split; done. }
    unfold bind at 1 in Hbody.
    pose proof (db_update_song_unchanged u song_id (k :: ks) w2) as Hs2.
    pose proof (update_song_audit u song_id (k :: ks) w2) as (Hh2 & _).
    destruct (SongsDatabase.update_song u song_id (k :: ks) w2) as [[[|]|e] w3];
      simpl in Hs2, Hh2.
    + destruct (log_history_spec u "updated" (Song.title orig) (Song.artist orig) w3)
        as (w4 & Hlog & _).
      unfold bind in Hbody. rewrite Hlog in Hbody. injection Hbody as <- <-.
      injection E as <- _. by destruct H.
    + injection Hbody as <- <-. injection E as _ <-. simpl.
      split; simpl; [rewrite Hs2 by done; exact Hs1 | by rewrite Hh2, Hh1].
    + injection Hbody as <- <-. destruct (exn_cls e); injection E as _ <-; simpl;
        (split; simpl; [rewrite Hs2 by done; exact Hs1 | by rewrite Hh2, Hh1]).
  - intros u song_id w.
    destruct (SongsService.delete_song u song_id w) as [r w'] eqn:E. simpl. intros H.
    unfold SongsService.delete_song, try_except in E.
    rewrite with_db_eq in E. destruct (pending_connect_fault w) as [f|].
    { unfold connect_error in E. destruct (fault_is f); injection E as _ <-;
        split; reflexivity. }
    name_body E.
    pose proof (db_delete_song_unchanged u song_id (session w)) as Hs.
    pose proof (delete_song_audit u song_id (session w)) as (Hh & _).
    destruct (SongsDatabase.delete_song u song_id (session w)) as [[[s|]|e] w2];
      simpl in Hs, Hh.
    + destruct (log_history_spec u "deleted" (Song.title s) (Song.artist s) w2)
        as (w3 & Hlog & _).
      unfold bind in Hbody. rewrite Hlog in Hbody. injection Hbody as <- <-.
      injection E as <- _. by destruct H.
    + injection Hbody as <- <-. injection E as _ <-. simpl. split; simpl; [by apply Hs | done].
    + injection Hbody as <- <-. destruct (exn_cls e); injection E as _ <-; simpl;
        (split; simpl; [by apply Hs | done]).
Qed.

Lemma X14_no_success_no_change_witness :
  songs (SongsService.update_song "bob" id_1 [Song.kw_title (Some "Mine")] world_idle).2
    = [alice_doc] /\
  history (SongsService.add_song "alice" "Song 3" "Artist" None (Some 5000) None
             world_idle).2 = [].
Proof.
  destruct X14_no_success_no_change as (Hadd & Hupd & _).
  split.
  - apply (Hupd "bob" id_1 [Song.kw_title (Some "Mine")] world_idle).
    vm_compute. discriminate.
  - apply (Hadd "alice" "Song 3" "Artist" None (Some 5000) None world_idle).
    vm_compute. discriminate.
Defined.

(** ** Services: the trail a use-case leaves *)

Lemma add_song_clock (s : Song.t) (w : world) :
  clock (SongsDatabase.add_song s w).2 = clock w.
Proof. rewrite add_song_eq. destruct_matches; reflexivity. Qed.

(** What the audit step appends, in terms of the world the use-case
    started in. *)
Lemma log_history_entry (username action title artist : string) (w0 w : world) :
  history w = history w0 -> clock w = clock w0 ->
  exists w',
    SongsService._log_history username action title artist w = (Ok tt, w') /\
    songs w' = songs w /\
    (history w' = history w0 \/
     exists h, history w'
               = (history w0 ++ [audit_entry h username action title artist (clock w0)])%list).
Proof.
  intros Hh Hc.
  destruct (log_history_spec username action title artist w) as (w' & Hlog & Hsame & Hhist).
  exists w'. split; [done|]. split; [apply Hsame|].
  rewrite Hh, Hc in Hhist. destruct Hhist as [?|?]; [by left|right]. by eexists.
Qed.

(** X15.  When the add use-case returns true, the songs collection has
    gained exactly the new record's document, created and updated at the
    time of the call, and the history collection at most one entry: the
    "added" entry with the title and artist as they were passed.  The
    session is closed. *)
Theorem X15_add_use_case
    (username title artist : string) (genre : option string) (year duration : option Z)
    (w w' : world) :
  SongsService.add_song username title artist genre year duration w = (Ok true, w') ->
  let song := Song.mk title artist username genre year duration (clock w) (clock w) None in
  Song._validate song = Ok tt /\
  (exists o, songs w' = (songs w ++ [Song.to_dict (with_id o song)])%list) /\
  (history w' = history w \/
   exists h, history w'
             = (history w ++ [audit_entry h username "added" title artist (clock w)])%list) /\
  connected w' = false.
Proof.
  intros E. unfold SongsService.add_song, try_except, now, lift in E.
  unfold bind at 1 in E. unfold bind at 1 in E. unfold bind at 1 in E.
  destruct (Song.new _) as [song|e0] eqn:Hnew.
  2:{ destruct (exn_cls e0); discriminate. }
  rewrite with_db_eq in E. destruct (pending_connect_fault w) as [f|].
  { unfold connect_error in E. destruct (fault_is f); discriminate. }
  name_body E.
  assert (Hsong : song = Song.mk title artist username genre year duration
                                 (clock w) (clock w) None /\
                  Song._validate song = Ok tt).
  { unfold Song.new in Hnew. destruct (Song._validate _) eqn:Hv; [|discriminate].
    simpl in Hnew. injection Hnew as <-. by destruct a. }
  destruct Hsong as [-> Hv].
  destruct (db_add_song_outcome
              (Song.mk title artist username genre year duration (clock w) (clock w) None)
              (session w)) as (Hok & _ & Hh).
  pose proof (add_song_clock
                (Song.mk title artist username genre year duration (clock w) (clock w) None)
                (session w)) as Hc.
  destruct (SongsDatabase.add_song _ (session w)) as [[o|e] w2]; cbn [fst snd] in *.
  2:{ injection Hbody as <- <-. destruct (exn_cls e); discriminate. }
  destruct (Hok o eq_refl) as (_ & Hs & _).
  destruct (log_history_entry username "added" title artist w w2 Hh Hc)
    as (w3 & Hlog & Hs3 & Hh3).
  unfold bind in Hbody. rewrite Hlog in Hbody. injection Hbody as <- <-.
  injection E as <-. simpl. split_and!; try done.
  exists o. by rewrite Hs3, Hs.
Qed.

Lemma X15_add_use_case_witness :
  exists o h,
    songs (SongsService.add_song "alice" " Song 2 " "Artist" None None None world_idle).2
      = [alice_doc;
         Song.to_dict (Song.mk " Song 2 " "Artist" "alice" None None None 2000 2000 (Some o))]
    /\
    history (SongsService.add_song "alice" " Song 2 " "Artist" None None None world_idle).2
      = [audit_entry h "alice" "added" " Song 2 " "Artist" 2000].
Proof.
  destruct (X15_add_use_case "alice" " Song 2 " "Artist" None None None world_idle
              (SongsService.add_song "alice" " Song 2 " "Artist" None None None
                 world_idle).2)
    as (_ & (o & Hs) & Hh & _).
  { vm_compute. reflexivity. }
  destruct Hh as [Hh|(h & Hh)].
  { exfalso. apply (f_equal List.length) in Hh. revert Hh. vm_compute. discriminate. }
  exists o, h. split; [exact Hs | exact Hh].
Defined.

(** X16.  When the delete use-case returns true, the repository has
    deleted a record of the owner's, and the history collection has
    gained at most one entry: the "deleted" entry carrying the title and
    artist of the record that is gone.  The remaining documents are the
    old ones, in the old order. *)
Theorem X16_delete_use_case (username song_id : string) (w w' : world) :
  SongsService.delete_song username song_id w = (Ok true, w') ->
  exists deleted,
    (SongsDatabase.delete_song username song_id (session w)).1 = Ok (Some deleted) /\
    songs w' = songs (SongsDatabase.delete_song username song_id (session w)).2 /\
    songs w' `sublist_of` songs w /\
    (history w' = history w \/
     exists h, history w'
               = (history w ++ [audit_entry h username "deleted"
                                  (Song.title deleted) (Song.artist deleted) (clock w)])%list)
    /\ connected w' = false.
Proof.
  intros E. unfold SongsService.delete_song, try_except in E.
  rewrite with_db_eq in E. destruct (pending_connect_fault w) as [f|].
  { unfold connect_error in E. destruct (fault_is f); discriminate. }
  name_body E.
  pose proof (delete_song_songs username song_id (session w)) as Hsub.
  pose proof (delete_song_audit username song_id (session w)) as (Hh & _ & Hc).
  destruct (SongsDatabase.delete_song username song_id (session w)) as [[[s|]|e] w2];
    cbn [fst snd] in *.
  2:{ injection Hbody as <- <-. discriminate. }
  2:{ injection Hbody as <- <-. destruct (exn_cls e); discriminate. }
  destruct (log_history_entry username "deleted" (Song.title s) (Song.artist s) w w2 Hh Hc)
    as (w3 & Hlog & Hs3 & Hh3).
  unfold bind in Hbody. rewrite Hlog in Hbody. injection Hbody as <- <-.
  injection E as <-. simpl. exists s. split_and!; try done. by rewrite Hs3.
Qed.

Lemma X16_delete_use_case_witness :
  exists h,
    songs (SongsService.delete_song "alice" id_1 world_idle).2 = [] /\
    history (SongsService.delete_song "alice" id_1 world_idle).2
      = [audit_entry h "alice" "deleted" "Song 1" "Artist" 2000].
Proof.
  destruct (X16_delete_use_case "alice" id_1 world_idle
              (SongsService.delete_song "alice" id_1 world_idle).2)
    as (deleted & Hdel & _ & _ & Hh & _).
  { vm_compute. reflexivity. }
  assert (Hd : deleted = song_1_stored).
  { assert (E : (SongsDatabase.delete_song "alice" id_1 (session world_idle)).1
                = Ok (Some song_1_stored)) by (vm_compute; reflexivity).
    rewrite E in Hdel. by injection Hdel as <-. }
  subst deleted. destruct Hh as [Hh|(h & Hh)].
  { exfalso. apply (f_equal List.length) in Hh. revert Hh. vm_compute. discriminate. }
  exists h. split; [vm_compute; reflexivity | exact Hh].
Defined.



(** X18.  Input is validated before any connection is opened: an add with
    invalid data and an update without any value to set raise a
    ValueError and leave the whole world, the pending connection
    included, as it was. *)
Theorem X18_validation_precedes_connection :
  (forall username title artist genre year duration w e,
     Song._validate (Song.mk title artist username genre year duration
                             (clock w) (clock w) None) = Raise e ->
     SongsService.add_song username title artist genre year duration w
       = (Raise (Exn ValueError ("Invalid song data: " +:+ exn_msg e)), w)) /\
  (forall username song_id kwargs w,
     List.filter Song.kw_is_set kwargs = [] ->
     SongsService.update_song username song_id kwargs w
       = (Raise (Exn ValueError "Invalid update: No update data provided"), w)).
Proof.
  split.
  - intros u t a g y d w e Hv.
    unfold SongsService.add_song, try_except, now, lift.
    unfold bind at 1. unfold bind at 1. unfold bind at 1.
    unfold Song.new. rewrite Hv. simpl.
    apply validate_raises_ValueError in Hv. by rewrite Hv.
  - intros u song_id kw w Hk. unfold SongsService.update_song, try_except.
    by rewrite Hk.
Qed.

Lemma X18_validation_precedes_connection_witness :
  SongsService.add_song "alice" "Song 3" "Artist" None (Some 5000) None world_offline
    = (Raise (Exn ValueError "Invalid song data: Year must be between 1000 and 3000"),
       world_offline) /\
  SongsService.update_song "alice" id_1 [Song.kw_title None; Song.kw_year None] world_offline
    = (Raise (Exn ValueError "Invalid update: No update data provided"), world_offline).
Proof.
  destruct X18_validation_precedes_connection as [Hadd Hupd].
  split.
  - apply (Hadd "alice" "Song 3" "Artist" None (Some 5000) None world_offline
             (Exn ValueError "Year must be between 1000 and 3000")). reflexivity.
  - apply Hupd. reflexivity.
Defined.

(** * The command handlers *)

Lemma error_message_error (m : string) : error_message (MessageFormatter.error m) = true.
Proof. unfold error_message, MessageFormatter.error. simpl. by destruct m. Qed.

Lemma format_song_list_plain (songs : list Song.t) (u : option string) :
  error_message (SongFormatter.format_song_list songs u) = false.
Proof. destruct songs; reflexivity. Qed.

Lemma format_song_table_plain (songs : list Song.t) :
  error_message (SongFormatter.format_song_table songs) = false.
Proof. destruct songs; reflexivity. Qed.

Lemma search_results_plain (songs : list Song.t) (term : string) :
  error_message (MessageFormatter.search_results songs term) = false.
Proof. destruct songs; reflexivity. Qed.

Lemma format_history_list_plain strftime (h : list HistoryEntry.t) (u : string) :
  error_message (HistoryFormatter.format_history_list strftime h u) = false.
Proof. destruct h; reflexivity. Qed.

(** One printed item after [out]. *)
Ltac printed_one :=
  match goal with
  | |- context [(Ok ?c, ((?out ++ [?x]) ++ [?y])%list, ?w1)] =>
      exists c, [x], y, w1; split; [by rewrite <- app_assoc|]
  | |- context [(Ok ?c, (?out ++ [?x])%list, ?w1)] =>
      exists c, [], x, w1; split; [reflexivity|]
  end.

Ltac settle_code :=
  first
    [ split; [by right|]; split; [intros _|done];
      first [apply error_message_error | reflexivity]
    | split; [by left|]; split; [done|];
      first [ rewrite format_song_list_plain | rewrite format_song_table_plain
            | rewrite search_results_plain | rewrite format_history_list_plain
            | idtac ]; first [ discriminate | by cbn ] ].

(** X19.  Every handler reports.  None lets an exception escape, whatever
    the database does and, for delete, whatever is or is not typed: it
    returns exit code 0 or 1 after printing at least one item, and the
    exit code is 1 exactly when the last item printed is an error
    message. *)
Theorem X19_handlers_report :
  (forall args, reports (SongsCLI.handle_add args)) /\
  (forall args, reports (SongsCLI.handle_list args)) /\
  (forall regex_search args, reports (SongsCLI.handle_search regex_search args)) /\
  (forall args, reports (SongsCLI.handle_get args)) /\
  (forall args, reports (SongsCLI.handle_update args)) /\
  (forall stdin args, reports (SongsCLI.handle_delete stdin args)) /\
  (forall strftime args, reports (SongsCLI.handle_history strftime args)) /\
  (forall args, reports (SongsCLI.handle_play args)).
Proof.
  split_and!.
  - intros args out w. unfold SongsCLI.handle_add, ctry_except, cbind, call, print, cret.
    destruct (SongsService.add_song _ _ _ _ _ _ w) as [[[]|e] w1];
      [..|destruct (exn_cls e)]; printed_one; settle_code.
  - intros args out w. unfold SongsCLI.handle_list, ctry_except, cbind, call, print, cret.
    destruct (SongsService.list_songs _ _ w) as [[songs|e] w1];
      [destruct (SongsCLI.list_table args && _)|destruct (exn_cls e)];
      printed_one; settle_code.
  - intros rs args out w.
    unfold SongsCLI.handle_search, ctry_except, cbind, call, print, cret.
    destruct (SongsService.search_songs _ _ _ w) as [[songs|e] w1];
      [|destruct (exn_cls e)]; printed_one; settle_code.
  - intros args out w. unfold SongsCLI.handle_get, ctry_except, cbind, call, print, cret.
    destruct (SongsService.get_song _ _ w) as [[[s|]|e] w1];
      [..|destruct (exn_cls e)]; printed_one; settle_code.
  - intros args out w.
    unfold SongsCLI.handle_update, ctry_except, cbind, call, print, cret.
    destruct (SongsCLI.update_data args) as [|kw data]; [printed_one; settle_code|].
    destruct (SongsService.update_song _ _ _ w) as [[[]|e] w1];
      [..|destruct (exn_cls e)]; printed_one; settle_code.
  - intros stdin args out w.
    unfold SongsCLI.handle_delete, ctry_except, cbind, call, print, cret, input.
    destruct (SongsCLI.delete_confirm args); cbn [negb].
    + destruct (SongsService.delete_song _ _ w) as [[[]|e] w1];
        [..|destruct (exn_cls e)]; printed_one; settle_code.
    + destruct (SongsService.get_song _ _ w) as [[[s|]|e] w1];
        [|printed_one; settle_code|destruct (exn_cls e); printed_one; settle_code].
      destruct stdin as [response|]; [|cbn [exn_cls]; printed_one; settle_code].
      destruct (negb _); [printed_one; settle_code|].
      destruct (SongsService.delete_song _ _ w1) as [[[]|e] w2];
        [..|destruct (exn_cls e)]; printed_one; settle_code.
  - intros strftime args out w.
    unfold SongsCLI.handle_history, ctry_except, cbind, call, print, cret.
    destruct (SongsService.get_history _ _ w) as [[h|e] w1];
      [|destruct (exn_cls e)]; printed_one; settle_code.
  - intros args out w. unfold SongsCLI.handle_play, ctry_except, cbind, call, print, cret.
    destruct (PlaybackService.play_song _ _ w) as [[[]|e] w1]; printed_one; settle_code.
Qed.

Lemma X19_handlers_report_witness :
  reports (SongsCLI.handle_delete None (SongsCLI.DeleteArgs "alice" id_1 false)).
Proof.
  destruct X19_handlers_report as (_ & _ & _ & _ & _ & H & _). apply H.
Defined.

Lemma service_get_song_songs (username song_id : string) (w : world) :
  songs (SongsService.get_song username song_id w).2 = songs w.
Proof.
  destruct (SongsService.get_song username song_id w) as [r w'] eqn:E. cbn [snd].
  unfold SongsService.get_song, try_except in E.
  rewrite with_db_eq in E. destruct (pending_connect_fault w) as [f|].
  { unfold connect_error in E. destruct (fault_is f); by injection E as _ <-. }
  name_body E.
  pose proof (get_song_by_id_songs username song_id (session w)) as Hs.
  change (songs (session w)) with (songs w) in Hs.
  destruct (SongsDatabase.get_song_by_id username song_id (session w))
    as [[[s|]|e] w2]; cbn [fst snd] in *.
  - destruct (log_history_spec username "viewed" (Song.title s) (Song.artist s) w2)
      as (w3 & Hlog & (Hs3 & _) & _).
    unfold bind in Hbody. rewrite Hlog in Hbody. injection Hbody as <- <-.
    injection E as _ <-. cbn [songs SongsDatabase.close set_connected]. congruence.
  - injection Hbody as <- <-. by injection E as _ <-.
  - injection Hbody as <- <-. by destruct (exn_cls e); injection E as _ <-.
Qed.

(** X20.  A handler does to the world what its use-case does, and nothing
    more, and it exits with 0 exactly when the use-case succeeded: add,
    update, delete and play returned true, get found a record, list,
    search and history returned.  The confirmed delete goes straight to
    the delete use-case; an update without options does not reach its
    use-case and changes nothing, which is what the use-case would have
    done with no data. *)
Theorem X20_exit_code_is_outcome (out : list string) (w : world) :
  (forall args,
     let run := SongsService.add_song (SongsCLI.add_user args) (SongsCLI.add_title args)
                  (SongsCLI.add_artist args) (SongsCLI.add_genre args)
                  (SongsCLI.add_year args) (SongsCLI.add_duration args) w in
     (SongsCLI.handle_add args out w).2 = run.2 /\
     (exit_code (SongsCLI.handle_add args out w) = Ok 0 <-> run.1 = Ok true)) /\
  (forall args,
     let run := SongsService.list_songs
                  (if SongsCLI.list_all args then None else Some (SongsCLI.list_user args))
                  (SongsCLI.list_limit args) w in
     (SongsCLI.handle_list args out w).2 = run.2 /\
     (exit_code (SongsCLI.handle_list args out w) = Ok 0 <-> exists l, run.1 = Ok l)) /\
  (forall regex_search args,
     let run := SongsService.search_songs regex_search (SongsCLI.search_user args)
                  (SongsCLI.search_term args) w in
     (SongsCLI.handle_search regex_search args out w).2 = run.2 /\
     (exit_code (SongsCLI.handle_search regex_search args out w) = Ok 0
      <-> exists l, run.1 = Ok l)) /\
  (forall args,
     let run := SongsService.get_song (SongsCLI.id_user args) (SongsCLI.id_song_id args) w in
     (SongsCLI.handle_get args out w).2 = run.2 /\
     (exit_code (SongsCLI.handle_get args out w) = Ok 0 <-> exists s, run.1 = Ok (Some s))) /\
  (forall args,
     let run := SongsService.update_song (SongsCLI.update_user args)
                  (SongsCLI.update_song_id args) (SongsCLI.update_data args) w in
     (SongsCLI.handle_update args out w).2 = run.2 /\
     (exit_code (SongsCLI.handle_update args out w) = Ok 0 <-> run.1 = Ok true)) /\
  (forall stdin args,
     SongsCLI.delete_confirm args = true ->
     let run := SongsService.delete_song (SongsCLI.delete_user args)
                  (SongsCLI.delete_song_id args) w in
     (SongsCLI.handle_delete stdin args out w).2 = run.2 /\
     (exit_code (SongsCLI.handle_delete stdin args out w) = Ok 0 <-> run.1 = Ok true)) /\
  (forall strftime args,
     let run := SongsService.get_history (SongsCLI.history_user args)
                  (SongsCLI.history_limit args) w in
     (SongsCLI.handle_history strftime args out w).2 = run.2 /\
     (exit_code (SongsCLI.handle_history strftime args out w) = Ok 0
      <-> exists l, run.1 = Ok l)) /\
  (forall args,
     let run := PlaybackService.play_song (SongsCLI.id_user args)
                  (SongsCLI.id_song_id args) w in
     (SongsCLI.handle_play args out w).2 = run.2 /\
     (exit_code (SongsCLI.handle_play args out w) = Ok 0 <-> run.1 = Ok true)).
Proof.
  unfold exit_code. split_and!.
  - intros args. cbv zeta.
    unfold SongsCLI.handle_add, ctry_except, cbind, call, print, cret.
    destruct (SongsService.add_song _ _ _ _ _ _ w) as [[[]|e] w1];
      [..|destruct (exn_cls e)]; cbn [fst snd]; split; done.
  - intros args. cbv zeta.
    unfold SongsCLI.handle_list, ctry_except, cbind, call, print, cret.
    destruct (SongsService.list_songs _ _ w) as [[songs|e] w1];
      [destruct (SongsCLI.list_table args && _)|destruct (exn_cls e)];
      cbn [fst snd]; split; try done; split; try done; eauto; by intros [? ?].
  - intros rs args. cbv zeta.
    unfold SongsCLI.handle_search, ctry_except, cbind, call, print, cret.
    destruct (SongsService.search_songs _ _ _ w) as [[songs|e] w1];
      [|destruct (exn_cls e)];
      cbn [fst snd]; split; try done; split; try done; eauto; by intros [? ?].
  - intros args. cbv zeta.
    unfold SongsCLI.handle_get, ctry_except, cbind, call, print, cret.
    destruct (SongsService.get_song _ _ w) as [[[s|]|e] w1];
      [..|destruct (exn_cls e)];
      cbn [fst snd]; split; try done; split; try done; eauto; by intros [? ?].
  - intros args. cbv zeta.
    unfold SongsCLI.handle_update, ctry_except, cbind, call, print, cret.
    destruct (SongsCLI.update_data args) as [|kw data].
    { unfold SongsService.update_song, try_except. cbn [List.filter fst snd exn_cls].
      split; done. }
    destruct (SongsService.update_song _ _ _ w) as [[[]|e] w1];
      [..|destruct (exn_cls e)]; cbn [fst snd]; split; done.
  - intros stdin args Hc. cbv zeta.
    unfold SongsCLI.handle_delete, ctry_except, cbind, call, print, cret. rewrite Hc.
    cbn [negb].
    destruct (SongsService.delete_song _ _ w) as [[[]|e] w1];
      [..|destruct (exn_cls e)]; cbn [fst snd]; split; done.
  - intros strftime args. cbv zeta.
    unfold SongsCLI.handle_history, ctry_except, cbind, call, print, cret.
    destruct (SongsService.get_history _ _ w) as [[h|e] w1];
      [|destruct (exn_cls e)];
      cbn [fst snd]; split; try done; split; try done; eauto; by intros [? ?].
  - intros args. cbv zeta.
    unfold SongsCLI.handle_play, ctry_except, cbind, call, print, cret.
    destruct (PlaybackService.play_song _ _ w) as [[[]|e] w1]; cbn [fst snd]; split; done.
Qed.

Lemma X20_exit_code_is_outcome_witness :
  exit_code (SongsCLI.handle_add
               (SongsCLI.AddArgs "alice" "Song 2" "Artist" None None (Some 0)) [] world_idle)
    = Ok 0 /\
  exit_code (SongsCLI.handle_delete None (SongsCLI.DeleteArgs "bob" id_1 true) [] world_idle)
    <> Ok 0.
Proof.
  destruct (X20_exit_code_is_outcome [] world_idle) as (Hadd & _ & _ & _ & _ & Hdel & _).
  split.
  - apply Hadd. vm_compute. reflexivity.
  - intros H. apply (Hdel None (SongsCLI.DeleteArgs "bob" id_1 true)) in H;
      [|reflexivity]. revert H. vm_compute. discriminate.
Defined.

(** X21.  Without the confirm flag the delete handler first views the
    record.  Unless a line answering y or yes, in any letter case, is
    read, the songs collection stays as it was.  A record that is not
    found ends the command with exit code 1 before anything is asked; any
    other answer than yes ends it with exit code 0 after the question and
    the notice, in the world the view has left (its history entry
    included); on yes the delete use-case runs in that world and decides
    the exit code. *)
Theorem X21_delete_asks_first
    (stdin : option string) (args : SongsCLI.delete_args) (out : list string) (w : world) :
  SongsCLI.delete_confirm args = false ->
  let view := SongsService.get_song (SongsCLI.delete_user args)
                (SongsCLI.delete_song_id args) w in
  let run := SongsCLI.handle_delete stdin args out w in
  ((forall response, stdin = Some response -> confirms response = false) ->
   songs run.2 = songs w) /\
  (view.1 = Ok None ->
   run = (Ok 1, (out ++ [MessageFormatter.error "Song not found"])%list, view.2)) /\
  (forall s response,
     view.1 = Ok (Some s) -> stdin = Some response -> confirms response = false ->
     run = (Ok 0, (out ++ [delete_prompt s; MessageFormatter.info "Delete cancelled"])%list,
            view.2)) /\
  (forall s response,
     view.1 = Ok (Some s) -> stdin = Some response -> confirms response = true ->
     let deletion := SongsService.delete_song (SongsCLI.delete_user args)
                       (SongsCLI.delete_song_id args) view.2 in
     run.2 = deletion.2 /\
     (exit_code run = Ok 0 <-> deletion.1 = Ok true) /\
     exists message, stdout run = (out ++ [delete_prompt s; message])%list).
Proof.
  intros Hc. cbv zeta.
  pose proof (service_get_song_songs (SongsCLI.delete_user args)
                (SongsCLI.delete_song_id args) w) as Hs.
  unfold exit_code, stdout, SongsCLI.handle_delete, ctry_except, cbind, call, print, cret,
    input, confirms.
  rewrite Hc. cbn [negb].
  destruct (SongsService.get_song _ _ w) as [[[s|]|e] w1]; cbn [fst snd] in *.
  - destruct stdin as [response|]; cbn [exn_cls fst snd].
    + split_and!.
      * intros Hr. rewrite (Hr response eq_refl). cbn [negb fst snd]. exact Hs.
      * discriminate.
      * intros s' r [= <-] [= <-] Hr. rewrite Hr. cbn [negb].
        by rewrite <- app_assoc.
      * intros s' r [= <-] [= <-] Hr. rewrite Hr. cbn [negb].
        destruct (SongsService.delete_song _ _ w1) as [[[]|e] w2];
          [..|destruct (exn_cls e)]; cbn [fst snd];
          (split; [done|]; split; [done|]; eexists; by rewrite <- app_assoc).
    + split_and!; [done|discriminate|discriminate..].
  - split_and!; [done|done|discriminate..].
  - destruct (exn_cls e); cbn [fst snd]; split_and!; done.
Qed.

Lemma X21_delete_asks_first_witness :
  let run := SongsCLI.handle_delete (Some "N") (SongsCLI.DeleteArgs "alice" id_1 false)
               [] world_idle in
  exit_code run = Ok 0 /\
  stdout run = ["Are you sure you want to delete 'Song 1' by Artist? (y/N): ";
                MessageFormatter.info "Delete cancelled"] /\
  songs run.2 = [alice_doc] /\
  List.length (history run.2) = 1%nat.
Proof.
  cbv zeta.
  destruct (X21_delete_asks_first (Some "N") (SongsCLI.DeleteArgs "alice" id_1 false)
              [] world_idle) as (Hsongs & _ & H & _).
  { reflexivity. }
  assert (E := H song_1_stored "N").
  assert (Hview : (SongsService.get_song "alice" id_1 world_idle).1 = Ok (Some song_1_stored))
    by (vm_compute; reflexivity).
  specialize (E Hview eq_refl eq_refl).
  split; [exact (f_equal exit_code E)|].
  split; [exact (f_equal stdout E)|].
  split; [apply Hsongs; by intros r [= <-]|].
  rewrite (f_equal (fun r => List.length (history r.2)) E). vm_compute. reflexivity.
Defined.

(** X22.  The play handler knows two outcomes only.  Its use-case never
    raises, so the handler's own error branch is never taken: whatever
    goes wrong, a connection that fails or an identifier that is no
    identifier included, is reported as "Song not found" with exit
    code 1. *)
Theorem X22_play_reports_not_found (args : SongsCLI.id_args) (out : list string) (w : world) :
  let run := SongsCLI.handle_play args out w in
  let played := PlaybackService.play_song (SongsCLI.id_user args)
                  (SongsCLI.id_song_id args) w in
  (played.1 = Ok true /\
   run = (Ok 0, (out ++ [MessageFormatter.success "Song played successfully!"])%list,
          played.2)) \/
  (played.1 = Ok false /\
   run = (Ok 1, (out ++ [MessageFormatter.error "Song not found"])%list, played.2)).
Proof.
  cbv zeta. unfold SongsCLI.handle_play, ctry_except, cbind, call, print, cret.
  assert (H : exists b w', PlaybackService.play_song (SongsCLI.id_user args)
                             (SongsCLI.id_song_id args) w = (Ok b, w')).
  { unfold PlaybackService.play_song, try_except.
    destruct (bind _ _ w) as [[b|e] w']; eauto. }
  destruct H as (b & w' & ->). destruct b; [left|right]; done.
Qed.

Lemma X22_play_reports_not_found_witness :
  stdout (SongsCLI.handle_play (SongsCLI.IdArgs "alice" id_1) [] world_offline)
    = [MessageFormatter.error "Song not found"] /\
  exit_code (SongsCLI.handle_play (SongsCLI.IdArgs "alice" "xyz") [] world_idle) = Ok 1.
Proof.
  split.
  - destruct (X22_play_reports_not_found (SongsCLI.IdArgs "alice" id_1) [] world_offline)
      as [[H _]|[_ H]]; [vm_compute in H; discriminate|].
    by rewrite H.
  - destruct (X22_play_reports_not_found (SongsCLI.IdArgs "alice" "xyz") [] world_idle)
      as [[H _]|[_ H]]; [vm_compute in H; discriminate|].
    by rewrite H.
Defined.

(** X23.  The update handler passes on only options that carry a value:
    an option given as the empty text or as zero is dropped like one that
    was not given, and the use-case drops none of what it is passed.
    When no option carries a value the handler prints "No update fields
    provided" and exits with 1 without touching the world, not even
    trying to connect. *)
Theorem X23_update_needs_a_value (args : SongsCLI.update_args) :
  Forall (fun kw => sets_value kw = true) (SongsCLI.update_data args) /\
  List.filter Song.kw_is_set (SongsCLI.update_data args) = SongsCLI.update_data args /\
  (SongsCLI.update_data args = [] <-> no_option args) /\
  (no_option args ->
   forall out w,
     SongsCLI.handle_update args out w
       = (Ok 1, (out ++ [MessageFormatter.error "No update fields provided"])%list, w)).
Proof.
  destruct args as [u i t a g y d]. unfold SongsCLI.update_data, no_option.
  cbn [SongsCLI.update_title SongsCLI.update_artist SongsCLI.update_genre
       SongsCLI.update_year SongsCLI.update_duration].
  assert (Hdata : (truthy_opt t = false /\ truthy_opt a = false /\ truthy_opt g = false /\
                   truthy_int y = false /\ truthy_int d = false) ->
                  SongsCLI.update_data (SongsCLI.UpdateArgs u i t a g y d) = []).
  { intros (Ht & Ha & Hg & Hy & Hd). unfold SongsCLI.update_data.
    cbn [SongsCLI.update_title SongsCLI.update_artist SongsCLI.update_genre
         SongsCLI.update_year SongsCLI.update_duration].
    by rewrite Ht, Ha, Hg, Hy, Hd. }
  split_and!.
  - destruct (truthy_opt t) eqn:Ht, (truthy_opt a) eqn:Ha, (truthy_opt g) eqn:Hg,
      (truthy_int y) eqn:Hy, (truthy_int d) eqn:Hd;
      cbn [app]; repeat (apply Forall_cons; split; [done|]); apply Forall_nil_2.
  - destruct t as [t|], a as [a|], g as [g|], y as [y|], d as [d|]; cbn [truthy_opt truthy_int];
      repeat match goal with |- context [truthy ?s] => destruct (truthy s) end;
      repeat match goal with |- context [negb ?b] => destruct (negb b) end;
      reflexivity.
  - split; [|by intros (-> & -> & -> & -> & ->)].
    destruct (truthy_opt t), (truthy_opt a), (truthy_opt g), (truthy_int y), (truthy_int d);
      cbn [app]; done.
  - intros H out w. unfold SongsCLI.handle_update. rewrite (Hdata H). reflexivity.
Qed.

Lemma X23_update_needs_a_value_witness :
  SongsCLI.handle_update
    (SongsCLI.UpdateArgs "alice" id_1 None None (Some "") None (Some 0)) [] world_offline
    = (Ok 1, [MessageFormatter.error "No update fields provided"], world_offline).
Proof.
  destruct (X23_update_needs_a_value
              (SongsCLI.UpdateArgs "alice" id_1 None None (Some "") None (Some 0)))
    as (_ & _ & _ & H).
  apply (H ltac:(by split_and!) [] world_offline).
Defined.




(** * The formatters *)

Lemma holds_from_spec (count : nat) (n : Z) (P : Z -> bool) :
  holds_from count n P = true -> forall m, n <= m < n + Z.of_nat count -> P m = true.
Proof.
  revert n. induction count as [|c IH]; intros n H m Hm; [lia|].
  simpl in H. apply andb_true_iff in H as [H1 H2].
  destruct (decide (m = n)) as [->|Hne]; [done|].
  apply (IH (n + 1)); [done|lia].
Qed.

Lemma length_append (a b : string) :
  String.length (a +:+ b) = (String.length a + String.length b)%nat.
Proof. induction a as [|c a IH]; simpl; [done|by rewrite IH]. Qed.

Lemma length_spaces (n : nat) : String.length (spaces n) = n.
Proof. induction n as [|n IH]; simpl; [done|by rewrite IH]. Qed.

Lemma length_pad_right (width : nat) (s : string) :
  String.length (pad_right width s) = Nat.max width (String.length s).
Proof. unfold pad_right. rewrite length_append, length_spaces. lia. Qed.

Lemma length_take_chars (n : nat) (s : string) :
  (n <= String.length s)%nat -> String.length (take_chars n s) = n.
Proof.
  unfold take_chars. revert s. induction n as [|n IH]; intros s H.
  - by destruct s.
  - destruct s as [|c s]; simpl in *; [lia|]. rewrite IH; [done|lia].
Qed.

(** A text cut to fit a column: over [width] characters it is cut to
    [width - 3] and three dots. *)
Lemma length_cut (width : nat) (s : string) :
  (3 <= width)%nat ->
  (String.length (if (width <? String.length s)%nat
                  then take_chars (width - 3) s +:+ "..." else s) <= width)%nat.
Proof.
  intros Hw. destruct (width <? String.length s)%nat eqn:E.
  - apply Nat.ltb_lt in E. rewrite length_append, length_take_chars by lia. simpl. lia.
  - by apply Nat.ltb_ge in E.
Qed.

Lemma length_year (y : Z) : 1000 <= y <= 3000 -> String.length (str_of_int y) = 4%nat.
Proof.
  intros H.
  assert (E : holds_from (Z.to_nat 2001) 1000
                (fun n => (String.length (str_of_int n) =? 4)%nat) = true)
    by (vm_compute; reflexivity).
  apply Nat.eqb_eq. apply (holds_from_spec _ _ _ E). rewrite Z2Nat.id; lia.
Qed.

Lemma length_minutes (m : Z) :
  0 <= m < 100000 -> (1 <= String.length (str_of_int m) <= 5)%nat.
Proof.
  intros H.
  assert (E : holds_from (Z.to_nat 100000) 0
                (fun n => (1 <=? String.length (str_of_int n))%nat
                          && (String.length (str_of_int n) <=? 5)%nat) = true)
    by (vm_compute; reflexivity).
  pose proof (holds_from_spec _ _ _ E m) as Hm. rewrite Z2Nat.id in Hm by lia.
  specialize (Hm ltac:(lia)). apply andb_true_iff in Hm as [H1 H2].
  apply Nat.leb_le in H1, H2. lia.
Qed.

Lemma length_seconds (r : Z) : 0 <= r < 60 -> String.length (zero_pad_2 r) = 2%nat.
Proof.
  intros H.
  assert (E : holds_from (Z.to_nat 60) 0
                (fun n => (String.length (zero_pad_2 n) =? 2)%nat) = true)
    by (vm_compute; reflexivity).
  apply Nat.eqb_eq. apply (holds_from_spec _ _ _ E). rewrite Z2Nat.id; lia.
Qed.

Lemma length_minutes_seconds (d : Z) :
  0 <= d < 6000000 -> (4 <= String.length (minutes_seconds d) <= 8)%nat.
Proof.
  intros H. unfold minutes_seconds. rewrite !length_append.
  pose proof (length_minutes (d / 60)) as Hm.
  pose proof (length_seconds (d mod 60)) as Hs.
  assert (0 <= d / 60 < 100000).
  { split; [apply Z.div_pos; lia|apply Z.div_lt_upper_bound; lia]. }
  assert (0 <= d mod 60 < 60) by (apply Z.mod_pos_bound; lia).
  specialize (Hm ltac:(done)). rewrite Hs by done. simpl. lia.
Qed.

(** X25.  The rows of the table line up with its header.  For a record
    that passes validation and lasts less than 100000 minutes, the row is
    exactly as wide as the header, 88 characters, however long its title,
    artist and genre are: what does not fit its column is cut and ends in
    three dots. *)
Theorem X25_table_rows_line_up (s : Song.t) :
  Song._validate s = Ok tt ->
  (forall d, Song.duration s = Some d -> d < 6000000) ->
  String.length (SongFormatter.table_row s) = String.length SongFormatter.table_header /\
  String.length SongFormatter.table_header = 88%nat.
Proof.
  intros Hv Hd. split; [|reflexivity].
  apply validate_ok_iff in Hv. destruct Hv as (_ & _ & _ & Hy & Hdur).
  change (String.length SongFormatter.table_header) with 88%nat.
  unfold SongFormatter.table_row. rewrite !length_append, !length_pad_right.
  pose proof (length_cut 30 (Song.title s) ltac:(lia)) as Ht.
  pose proof (length_cut 25 (Song.artist s) ltac:(lia)) as Ha.
  cbn [Nat.sub] in Ht, Ha.
  assert (Hg : (String.length
                  (if truthy_opt (Song.genre s)
                      && (15 <? String.length (default "" (Song.genre s)))%nat
                   then take_chars 12 (default "" (Song.genre s)) +:+ "..."
                   else opt_str_or (Song.genre s) "N/A") <= 15)%nat).
  { destruct (Song.genre s) as [g|]; cbn [truthy_opt default from_option id opt_str_or andb].
    - destruct (truthy g) eqn:Eg; cbn [andb].
      + pose proof (length_cut 15 g ltac:(lia)) as H. cbn [Nat.sub] in H.
        unfold str_or. rewrite Eg. exact H.
      + unfold str_or. rewrite Eg. simpl. lia.
    - simpl. lia. }
  assert (Hyr : (String.length
                   (if truthy_int (Song.year s)
                    then str_of_int (default 0%Z (Song.year s)) else "N/A") <= 6)%nat).
  { destruct (Song.year s) as [y|]; cbn [truthy_int default from_option id].
    - destruct (negb (y =? 0)); [|simpl; lia]. rewrite length_year; [lia|]. by apply Hy.
    - simpl. lia. }
  assert (Hdr : (String.length
                   (if truthy_int (Song.duration s)
                    then minutes_seconds (default 0%Z (Song.duration s)) else "N/A") <= 8)%nat).
  { destruct (Song.duration s) as [d|]; cbn [truthy_int default from_option id].
    - destruct (negb (d =? 0)); [|simpl; lia].
      specialize (Hdur d eq_refl). specialize (Hd d eq_refl).
      pose proof (length_minutes_seconds d ltac:(lia)) as H. lia.
    - simpl. lia. }
  simpl String.length. lia.
Qed.

Lemma X25_table_rows_line_up_witness :
  String.length
    (SongFormatter.table_row
       (Song.mk "A title that does not fit into thirty characters" "Artist" "alice"
                (Some "Rock") (Some 1999) (Some 245) 0 0 None)) = 88%nat.
Proof.
  destruct (X25_table_rows_line_up
              (Song.mk "A title that does not fit into thirty characters" "Artist" "alice"
                       (Some "Rock") (Some 1999) (Some 245) 0 0 None)) as [H1 H2].
  - reflexivity.
  - intros d [= <-]. lia.
  - by rewrite H1, H2.
Defined.

Lemma hex_digit_char (d : N) : (d < 16)%N -> hex_digit (hex_char d) = Some d.
Proof.
  intros H.
  assert (d = 0 \/ d = 1 \/ d = 2 \/ d = 3 \/ d = 4 \/ d = 5 \/ d = 6 \/ d = 7 \/
          d = 8 \/ d = 9 \/ d = 10 \/ d = 11 \/ d = 12 \/ d = 13 \/ d = 14 \/ d = 15)%N
    as Hd by lia.
  repeat (destruct Hd as [->|Hd]; [reflexivity|]). by subst.
Qed.

Lemma hex_digit_range (c : ascii) (d : N) : hex_digit c = Some d -> (d < 16)%N.
Proof.
  unfold hex_digit.
  destruct ((48 <=? N_of_ascii c) && (N_of_ascii c <=? 57))%N eqn:E1.
  { apply andb_true_iff in E1 as [H1 H2]. apply N.leb_le in H1, H2. intros [= <-]. lia. }
  destruct ((97 <=? N_of_ascii c) && (N_of_ascii c <=? 102))%N eqn:E2.
  { apply andb_true_iff in E2 as [H1 H2]. apply N.leb_le in H1, H2. intros [= <-]. lia. }
  destruct ((65 <=? N_of_ascii c) && (N_of_ascii c <=? 70))%N eqn:E3; [|discriminate].
  apply andb_true_iff in E3 as [H1 H2]. apply N.leb_le in H1, H2. intros [= <-]. lia.
Qed.

Lemma length_hex_digits (count : nat) (n : N) (acc : string) :
  String.length (hex_digits count n acc) = (count + String.length acc)%nat.
Proof.
  revert n acc. induction count as [|c IH]; intros n acc; simpl; [done|].
  rewrite IH. simpl. lia.
Qed.

Lemma hex_value_digits (count : nat) (n a : N) (acc : string) :
  hex_value a (hex_digits count n acc)
  = hex_value (a * 16 ^ N.of_nat count + n mod 16 ^ N.of_nat count)%N acc.
Proof.
  revert n a acc. induction count as [|c IH]; intros n a acc.
  - simpl. rewrite N.mod_1_r. f_equal. lia.
  - cbn [hex_digits]. rewrite IH. cbn [hex_value].
    rewrite hex_digit_char by (apply N.mod_lt; lia). f_equal.
    rewrite Nat2N.inj_succ, N.pow_succ_r'.
    rewrite (N.Div0.mod_mul_r n 16 (16 ^ N.of_nat c)). lia.
Qed.

Lemma hex_value_bound (s : string) (a n : N) :
  hex_value a s = Some n -> (n < (a + 1) * 16 ^ N.of_nat (String.length s))%N.
Proof.
  revert a. induction s as [|c s IH]; intros a; cbn [hex_value String.length].
  - intros [= <-]. simpl. lia.
  - destruct (hex_digit c) as [d|] eqn:Hd; [|discriminate].
    apply hex_digit_range in Hd. intros H. apply IH in H.
    rewrite Nat2N.inj_succ, N.pow_succ_r'.
    assert (0 < 16 ^ N.of_nat (String.length s))%N by (apply N.neq_0_lt_0, N.pow_nonzero; lia).
    nia.
Qed.

Lemma append_shift (a x y t : string) : x = y +:+ t -> a +:+ x = (a +:+ y) +:+ t.
Proof.
  intros ->. induction a as [|c a IH]; [reflexivity|].
  change (String c (a +:+ y +:+ t) = String c ((a +:+ y) +:+ t)). by f_equal.
Qed.

(** Displaying an identifier of twelve bytes and reading the text again
    gives the identifier. *)
Lemma ObjectId_of_str_of_ObjectId (n : N) :
  (n < 2 ^ 96)%N -> ObjectId_of_str (str_of_ObjectId (Oid n)) = Some (Oid n).
Proof.
  intros H. unfold ObjectId_of_str, str_of_ObjectId.
  rewrite length_hex_digits. cbn [String.length Nat.add Nat.eqb].
  rewrite hex_value_digits. cbn [hex_value fmap option_fmap option_map]. 
  rewrite N.mod_small; [done|]. exact H.
Qed.

(** An identifier read from a text has twelve bytes. *)
Lemma ObjectId_of_str_twelve_bytes (song_id : string) (n : N) :
  ObjectId_of_str song_id = Some (Oid n) -> (n < 2 ^ 96)%N.
Proof.
  unfold ObjectId_of_str. destruct (Nat.eqb _ 24) eqn:E; [|discriminate].
  apply Nat.eqb_eq in E. destruct (hex_value 0 song_id) as [m|] eqn:Hv; [|discriminate].
  intros [= <-]. apply hex_value_bound in Hv. rewrite E in Hv.
  change (16 ^ N.of_nat 24)%N with (2 ^ 96)%N in Hv. lia.
Qed.

(** X26.  The identifier a record is displayed with finds the record.  A
    record read by its identifier carries that identifier; the text
    [format_song] prints for it is accepted where the identifier was, in
    whatever letter case it was typed, and the same read returns the same
    record. *)
Theorem X26_displayed_id_reads_back (u song_id : string) (s : Song.t) (w w1 : world) :
  SongsDatabase.get_song_by_id u song_id w = (Ok (Some s), w1) ->
  exists o,
    Song.id s = Some o /\
    ObjectId_of_str song_id = Some o /\
    (exists shown,
       SongFormatter.format_song s = shown +:+ "   ID: " +:+ str_of_ObjectId o +:+ LF) /\
    ObjectId_of_str (str_of_ObjectId o) = Some o /\
    SongsDatabase.get_song_by_id u (str_of_ObjectId o) w = (Ok (Some s), w1).
Proof.
  intros H. rewrite get_song_by_id_eq in H.
  destruct (connected w) eqn:Hc; [|discriminate].
  destruct (ObjectId_of_str song_id) as [[n]|] eqn:Ho; [|discriminate].
  destruct (pending_songs_fault w) as [f|] eqn:Hf; [discriminate|].
  destruct (List.find _ _) as [d|] eqn:Hfind; [|discriminate].
  destruct (Song.from_dict (clock w) d) as [s'|e] eqn:Hd; [|discriminate].
  injection H as -> <-.
  pose proof Hfind as Hm.
  apply find_some in Hm as [_ Hm]. apply matches_by_id_and_user in Hm as [Hi _].
  pose proof (ObjectId_of_str_of_ObjectId n (ObjectId_of_str_twelve_bytes _ _ Ho)) as Hback.
  assert (Hid : Song.id s = Some (Oid n)) by (by eapply from_dict_id).
  exists (Oid n). split_and!; [done | done | | done |].
  { unfold SongFormatter.format_song. rewrite Hid. cbv zeta.
    eexists. repeat first [reflexivity | apply append_shift]. }
  by rewrite get_song_by_id_eq, Hback, Hc, Hf, Hfind, Hd.
Qed.

Lemma X26_displayed_id_reads_back_witness :
  exists o,
    Song.id song_1_stored = Some o /\
    (SongsDatabase.get_song_by_id "alice" (str_of_ObjectId o) (session world_idle)).1
      = Ok (Some song_1_stored).
Proof.
  destruct (X26_displayed_id_reads_back "alice" id_1
              song_1_stored (session world_idle)
              (SongsDatabase.get_song_by_id "alice" id_1
                 (session world_idle)).2) as (o & Hi & _ & _ & _ & H).
  { vm_compute. reflexivity. }
  exists o. split; [exact Hi|]. by rewrite H.
Defined.
